(** * chatbot-api: predicate composition and transactional tool execution

    A shallow embedding of the query-building and tool-execution core of
    the chatbot API (Python), with the properties stated about it.

    The model:
    - [PyStr]           Python strings as sequences of code points;
    - [UnicodeData]     what [unicodedata], [str] and [re] read from the
                        Unicode character database, and [UnicodeExcerpt],
                        its tables for Basic Latin and Greek;
    - [DateTime]        dates and the two [strptime] formats;
    - [NormalizeText]   app/utils/normalize_text.py;
    - [Sql]             predicates, statements and their evaluation;
    - [Conditions]      app/utils/build_fuzzy_conditions.py and
                        app/utils/build_regex_conditions.py;
    - [Builders]        app/tools/statement_builders/;
    - [Executor]        app/tools/sequential_tool_executor.py;
    - [Formatters]      app/tools/formatters/.

    The properties: [ExecutorFacts], [DateTimeFacts], [BuilderFacts],
    [NormalizeFacts], [FormatterFacts]. *)

From Stdlib Require Import String Ascii QArith_base Sorted.
From stdpp Require Import base option list numbers gmap.

(* ===================================================================== *)
(** ** Python strings                                                     *)
(* ===================================================================== *)

(** A Python [str] is a sequence of Unicode code points.  Literals of the
    source are written as UTF-8 text and decoded with [lit]. *)
Module PyStr.

Definition codepoint : Type := N.
Definition str : Type := list codepoint.

Definition bytes_of (s : string) : list N :=
  List.map (fun a => N_of_ascii a) (list_ascii_of_string s).

(** UTF-8 decoding of well-formed text (one to four bytes per code point). *)
Fixpoint utf8_decode (bs : list N) : str :=
  match bs with
  | [] => []
  | b0 :: r0 =>
      if (b0 <? 128)%N then b0 :: utf8_decode r0
      else if (b0 <? 224)%N then
        match r0 with
        | b1 :: r1 => ((b0 - 192) * 64 + (b1 - 128))%N :: utf8_decode r1
        | _ => []
        end
      else if (b0 <? 240)%N then
        match r0 with
        | b1 :: b2 :: r2 =>
            ((b0 - 224) * 4096 + (b1 - 128) * 64 + (b2 - 128))%N
              :: utf8_decode r2
        | _ => []
        end
      else
        match r0 with
        | b1 :: b2 :: b3 :: r3 =>
            ((b0 - 240) * 262144 + (b1 - 128) * 4096
             + (b2 - 128) * 64 + (b3 - 128))%N :: utf8_decode r3
        | _ => []
        end
  end.

Definition lit (s : string) : str := utf8_decode (bytes_of s).

(** [a == b] on strings. *)
Definition str_eqb (a b : str) : bool := bool_decide (a = b).

(** Truthiness of a string: [not s] is [True] exactly for the empty one. *)
Definition truthy (s : str) : bool :=
  match s with [] => false | _ => true end.

End PyStr.
Export PyStr.

(* ===================================================================== *)
(** ** The Unicode character database                                     *)
(* ===================================================================== *)

(** The functions of Python's [unicodedata], [str] and [re] modules that
    read the Unicode character database.  The program is modelled over any
    database; [UnicodeExcerpt] below gives the tables of the code points
    used in the examples. *)
Class UnicodeData : Type := {
  (** [unicodedata.normalize("NFC", s)] *)
  normalize_NFC : str -> str;
  (** [unicodedata.normalize("NFD", s)] *)
  normalize_NFD : str -> str;
  (** [unicodedata.category(c) == "Mn"] *)
  category_Mn : codepoint -> bool;
  (** [s.lower()] *)
  str_lower : str -> str;
  (** the value of a decimal digit: [\d] of [re] matches the code points
      that have one, and [int] reads it *)
  decimal : codepoint -> option N
}.

(** The facts about the database the proofs rely on: the small sigma and
    the space are not nonspacing marks, and the ASCII digits are decimal
    digits. *)
Class UnicodeFacts (U : UnicodeData) : Prop := {
  sigma_not_Mn : category_Mn 0x03C3%N = false;
  space_not_Mn : category_Mn 32%N = false;
  decimal_ascii : forall c, (48 <= c <= 57)%N -> decimal c = Some (c - 48)%N
}.

(** [c.isspace()], which is also [\s] of [re] on [str] patterns. *)
Definition isspace (c : codepoint) : bool :=
  bool_decide (c ∈ [9; 10; 11; 12; 13; 28; 29; 30; 31; 32; 0x85; 0xA0; 0x1680;
                    0x2000; 0x2001; 0x2002; 0x2003; 0x2004; 0x2005; 0x2006;
                    0x2007; 0x2008; 0x2009; 0x200A; 0x2028; 0x2029; 0x202F;
                    0x205F; 0x3000]%N).

(* ===================================================================== *)
(** ** An excerpt of the character database                               *)
(* ===================================================================== *)

(** The database restricted to the text the service handles, with the
    normalisation algorithm of Unicode Standard Annex 15 run on these
    tables.  The tables hold Basic Latin, the Greek letters U+0386 to
    U+03CE (with tonos and dialytika), the punctuation U+00B7, U+037E and
    U+0387, the marks U+0301 and U+0308 the Greek letters decompose to,
    the grapheme joiner U+034F and the spacing marks U+1B44 and U+302E.
    Any other code point is taken as an unassigned one. *)
Module UnicodeExcerpt.

(** Canonical decomposition mappings. *)
Definition decomposition_table : list (codepoint * str) :=
  [(0x0386, [0x0391; 0x0301]); (0x0388, [0x0395; 0x0301]);
   (0x0389, [0x0397; 0x0301]); (0x038A, [0x0399; 0x0301]);
   (0x038C, [0x039F; 0x0301]); (0x038E, [0x03A5; 0x0301]);
   (0x038F, [0x03A9; 0x0301]); (0x0390, [0x03CA; 0x0301]);
   (0x03AA, [0x0399; 0x0308]); (0x03AB, [0x03A5; 0x0308]);
   (0x03AC, [0x03B1; 0x0301]); (0x03AD, [0x03B5; 0x0301]);
   (0x03AE, [0x03B7; 0x0301]); (0x03AF, [0x03B9; 0x0301]);
   (0x03B0, [0x03CB; 0x0301]); (0x03CA, [0x03B9; 0x0308]);
   (0x03CB, [0x03C5; 0x0308]); (0x03CC, [0x03BF; 0x0301]);
   (0x03CD, [0x03C5; 0x0301]); (0x03CE, [0x03C9; 0x0301]);
   (0x037E, [0x003B]); (0x0387, [0x00B7])]%N.

(** Canonical combining classes other than 0. *)
Definition combining_table : list (codepoint * N) :=
  [(0x0301, 230); (0x0308, 230); (0x1B44, 9); (0x302E, 224)]%N.

(** Code points of general category Mn. *)
Definition Mn_table : list codepoint := [0x0301; 0x0308; 0x034F]%N.

(** Lower-case mappings that are not a shift by 32. *)
Definition lower_table : list (codepoint * codepoint) :=
  [(0x0386, 0x03AC); (0x0388, 0x03AD); (0x0389, 0x03AE); (0x038A, 0x03AF);
   (0x038C, 0x03CC); (0x038E, 0x03CD); (0x038F, 0x03CE)]%N.

(** Code points with the Case_Ignorable property. *)
Definition case_ignorable_table : list codepoint :=
  [0x0027; 0x002E; 0x003A; 0x005E; 0x0060; 0x00B7; 0x0387; 0x034F; 0x0301;
   0x0308]%N.

Definition assoc {A} (c : codepoint) (table : list (codepoint * A)) : option A :=
  match List.find (fun e => (fst e =? c)%N) table with
  | Some e => Some (snd e)
  | None => None
  end.

Definition between (lo hi c : N) : bool := ((lo <=? c) && (c <=? hi))%N.

Definition combining (c : codepoint) : N := default 0%N (assoc c combining_table).

Definition is_Mn (c : codepoint) : bool := bool_decide (c ∈ Mn_table).

Definition is_cased (c : codepoint) : bool :=
  between 65 90 c || between 97 122 c
  || bool_decide (c ∈ [0x0386; 0x0388; 0x0389; 0x038A; 0x038C]%N)
  || between 0x038E 0x03A1 c || between 0x03A3 0x03CE c.

Definition is_case_ignorable (c : codepoint) : bool :=
  bool_decide (c ∈ case_ignorable_table).

Definition lower_cp (c : codepoint) : codepoint :=
  match assoc c lower_table with
  | Some l => l
  | None =>
      if between 65 90 c || between 0x0391 0x03A1 c || between 0x03A3 0x03AB c
      then (c + 32)%N else c
  end.

Fixpoint skip_ignorable (s : str) : str :=
  match s with
  | c :: r => if is_case_ignorable c then skip_ignorable r else s
  | [] => []
  end.

(** The capital sigma at the end of a word becomes the final sigma:
    it follows a cased letter and no cased letter follows it, case-
    ignorable characters being skipped on both sides. *)
Definition final_sigma_context (before_rev after : str) : bool :=
  match skip_ignorable before_rev with
  | c :: _ => is_cased c
  | [] => false
  end
  && match skip_ignorable after with
     | c :: _ => negb (is_cased c)
     | [] => true
     end.

(** [before_rev] holds the characters already read, the last one first. *)
Fixpoint lower_from (before_rev : str) (s : str) : str :=
  match s with
  | [] => []
  | c :: r =>
      (if (c =? 0x03A3)%N
       then (if final_sigma_context before_rev r then 0x03C2%N else 0x03C3%N)
       else lower_cp c) :: lower_from (c :: before_rev) r
  end.

Definition lower (s : str) : str := lower_from [] s.

(** Full canonical decomposition of one code point. *)
Fixpoint decompose_cp (fuel : nat) (c : codepoint) : str :=
  match fuel with
  | O => [c]
  | S fuel' =>
      match assoc c decomposition_table with
      | Some d => flat_map (decompose_cp fuel') d
      | None => [c]
      end
  end.

(** Canonical ordering: a character of combining class [k > 0] moves
    before the characters of a higher class that precede it. [acc_rev] is
    the text already ordered, the last character first. *)
Fixpoint insert_ordered (c : codepoint) (acc_rev : str) : str :=
  match acc_rev with
  | p :: ps =>
      if negb (combining c =? 0)%N && (combining c <? combining p)%N
      then p :: insert_ordered c ps
      else c :: acc_rev
  | [] => [c]
  end.

Definition canonical_order (s : str) : str :=
  rev (fold_left (fun acc_rev c => insert_ordered c acc_rev) s []).

Definition NFD (s : str) : str :=
  canonical_order (flat_map (decompose_cp (length decomposition_table)) s).

(** The primary composite of a pair: a two-character decomposition read
    backwards (none of the table is excluded from composition). *)
Definition compose_pair (a b : codepoint) : option codepoint :=
  match List.find (fun e => bool_decide (snd e = [a; b])) decomposition_table with
  | Some e => Some (fst e)
  | None => None
  end.

(** Canonical composition of an ordered text.  [done_rev] is the output
    before the last starter, [starter] the last starter and [marks_rev]
    the characters after it that did not combine, the last one first. *)
Fixpoint compose_from (done_rev : str) (starter : option codepoint)
    (marks_rev : str) (s : str) : str :=
  match s with
  | [] =>
      rev (marks_rev ++ match starter with Some st => [st] | None => [] end
           ++ done_rev)
  | c :: r =>
      let blocked :=
        match marks_rev with
        | m :: _ => (combining c <=? combining m)%N
        | [] => false
        end in
      match starter with
      | Some st =>
          match (if blocked then None else compose_pair st c) with
          | Some composite => compose_from done_rev (Some composite) marks_rev r
          | None =>
              if (combining c =? 0)%N
              then compose_from (marks_rev ++ [st] ++ done_rev) (Some c) [] r
              else compose_from done_rev starter (c :: marks_rev) r
          end
      | None =>
          if (combining c =? 0)%N
          then compose_from (marks_rev ++ done_rev) (Some c) [] r
          else compose_from done_rev None (c :: marks_rev) r
      end
  end.

Definition NFC (s : str) : str := compose_from [] None [] (NFD s).

Definition decimal_value (c : codepoint) : option N :=
  if between 48 57 c then Some (c - 48)%N else None.

Definition unicode_excerpt : UnicodeData :=
  {| normalize_NFC := NFC;
     normalize_NFD := NFD;
     category_Mn := is_Mn;
     str_lower := lower;
     decimal := decimal_value |}.

End UnicodeExcerpt.
Export UnicodeExcerpt.

(* ===================================================================== *)
(** ** Dates and times                                                    *)
(* ===================================================================== *)

(** [datetime.date] and the two [strptime] formats of the builders. *)
Module DateTime.

Record date : Type := mkDate { year : N; month : N; day : N }.

#[global] Instance date_eq_dec : EqDecision date.
Proof. solve_decision. Defined.

Definition is_leap (y : N) : bool :=
  ((y mod 4 =? 0) && (negb (y mod 100 =? 0) || (y mod 400 =? 0)))%N.

Definition days_in_month (y m : N) : N :=
  if bool_decide (m ∈ [4; 6; 9; 11]%N) then 30
  else if (m =? 2)%N then (if is_leap y then 29 else 28)
  else 31.

(** [datetime.date(y, m, d)]: [None] stands for its [ValueError]. *)
Definition make_date (y m d : N) : option date :=
  if ((1 <=? y) && (y <=? 9999) && (1 <=? m) && (m <=? 12)
      && (1 <=? d) && (d <=? days_in_month y m))%N
  then Some (mkDate y m d) else None.

(** A number below 100 on two digits, a number below 10000 on four. *)
Definition two_digits (n : N) : str := [(48 + n / 10)%N; (48 + n mod 10)%N].

Definition four_digits (n : N) : str :=
  [(48 + n / 1000)%N; (48 + n / 100 mod 10)%N; (48 + n / 10 mod 10)%N;
   (48 + n mod 10)%N].

Definition hyphen : N := 45.
Definition colon : N := 58.

(** [d.isoformat()], the text "YYYY-MM-DD" of a date. *)
Definition isoformat (d : date) : str :=
  four_digits (year d) ++ [hyphen] ++ two_digits (month d) ++ [hyphen]
  ++ two_digits (day d).

Section Parsing.

Context {U : UnicodeData}.

(** A matcher consumes a prefix of the text and yields a number. *)
Definition matcher : Type := str -> option (N * str).

(** [\d] *)
Definition re_digit : matcher := fun s =>
  match s with
  | c :: r => match decimal c with Some v => Some (v, r) | None => None end
  | [] => None
  end.

(** [[lo-hi]] for ASCII digits [lo], [hi]. *)
Definition re_range (lo hi : N) : matcher := fun s =>
  match s with
  | c :: r => if ((48 + lo <=? c) && (c <=? 48 + hi))%N
              then Some ((c - 48)%N, r) else None
  | [] => None
  end.

(** A literal character, of value 0. *)
Definition re_char (ch : N) : matcher := fun s =>
  match s with
  | c :: r => if (c =? ch)%N then Some (0%N, r) else None
  | [] => None
  end.

(** Two matchers in sequence; the text matched is read as a decimal
    number, the second matcher giving its last digit. *)
Definition re_pair (p q : matcher) : matcher := fun s =>
  match p s with
  | Some (a, r) => match q r with
                   | Some (b, r') => Some ((10 * a + b)%N, r')
                   | None => None
                   end
  | None => None
  end.

(** [(a1|a2|...)] followed by the rest of the pattern [k]: the
    alternatives are tried in order, and the next one is tried when the
    rest of the pattern fails after the current one. *)
Fixpoint re_alt {A} (alts : list matcher) (k : N -> str -> option A) (s : str)
    : option A :=
  match alts with
  | [] => None
  | p :: alts' =>
      match p s with
      | Some (v, r) =>
          match k v r with
          | Some a => Some a
          | None => re_alt alts' k s
          end
      | None => re_alt alts' k s
      end
  end.

(** The groups of the pattern of ["%Y-%m-%d"]:
    [(\d\d\d\d)], [(1[0-2]|0[1-9]|[1-9])] and
    [(3[0-1]|[1-2]\d|0[1-9]|[1-9]| [1-9])]. *)
Definition re_Y : matcher :=
  re_pair (re_pair (re_pair re_digit re_digit) re_digit) re_digit.

Definition re_m : list matcher :=
  [re_pair (re_range 1 1) (re_range 0 2);
   re_pair (re_range 0 0) (re_range 1 9);
   re_range 1 9].

Definition re_d : list matcher :=
  [re_pair (re_range 3 3) (re_range 0 1);
   re_pair (re_range 1 2) re_digit;
   re_pair (re_range 0 0) (re_range 1 9);
   re_range 1 9;
   re_pair (re_char 32) (re_range 1 9)].

(** The pattern matched at the start of the text; yields the three
    numbers and the text left over. *)
Definition match_Ymd (s : str) : option (N * N * N * str) :=
  match re_Y s with
  | Some (y, r) =>
      match re_char hyphen r with
      | Some (_, r) =>
          re_alt re_m
            (fun m r =>
               match re_char hyphen r with
               | Some (_, r) => re_alt re_d (fun d r => Some (y, m, d, r)) r
               | None => None
               end) r
      | None => None
      end
  | None => None
  end.

(** [datetime.datetime.strptime(date_str, "%Y-%m-%d").date()]; [None]
    stands for the [ValueError] of a text that does not match, of text
    left unconverted, or of a date that does not exist. *)
Definition strptime_date (date_str : str) : option date :=
  match match_Ymd date_str with
  | Some (y, m, d, []) => make_date y m d
  | _ => None
  end.

(** The groups of the pattern of ["%H:%M:%S"]:
    [(2[0-3]|[0-1]\d|\d)], [([0-5]\d|\d)] and [(6[0-1]|[0-5]\d|\d)]. *)
Definition re_H : list matcher :=
  [re_pair (re_range 2 2) (re_range 0 3);
   re_pair (re_range 0 1) re_digit;
   re_digit].

Definition re_M : list matcher := [re_pair (re_range 0 5) re_digit; re_digit].

Definition re_S : list matcher :=
  [re_pair (re_range 6 6) (re_range 0 1);
   re_pair (re_range 0 5) re_digit;
   re_digit].

Definition match_HMS (s : str) : option (N * N * N * str) :=
  re_alt re_H
    (fun h r =>
       match re_char colon r with
       | Some (_, r) =>
           re_alt re_M
             (fun m r =>
                match re_char colon r with
                | Some (_, r) => re_alt re_S (fun sec r => Some (h, m, sec, r)) r
                | None => None
                end) r
       | None => None
       end) s.

(** [datetime.datetime.strptime(time_str, "%H:%M:%S")] succeeds. *)
Definition strptime_time_ok (time_str : str) : bool :=
  match match_HMS time_str with
  | Some (h, m, sec, []) => (sec <=? 59)%N
  | _ => false
  end.

End Parsing.

End DateTime.
Export DateTime.

(* ===================================================================== *)
(** ** Text normalisation                                                 *)
(* ===================================================================== *)

(** app/utils/normalize_text.py *)
Module NormalizeText.

(** [string.punctuation] *)
Definition string_punctuation : str :=
  [33; 34; 35; 36; 37; 38; 39; 40; 41; 42; 43; 44; 45; 46; 47;
   58; 59; 60; 61; 62; 63; 64; 91; 92; 93; 94; 95; 96; 123; 124; 125; 126]%N.

(** The two characters added in the source text: the Greek question mark
    U+037E and the middle dot U+00B7. *)
Definition punctuation_to_remove : str := string_punctuation ++ [0x037E; 0x00B7]%N.

Definition final_sigma : codepoint := 0x03C2%N.
Definition small_sigma : codepoint := 0x03C3%N.

(** [s.replace(old, new)] for one-character [old] and [new]. *)
Definition replace_char (old new : codepoint) (s : str) : str :=
  List.map (fun c => if (c =? old)%N then new else c) s.

(** [s.translate(str.maketrans("", "", chars))] *)
Definition translate_remove (chars : str) (s : str) : str :=
  List.filter (fun c => negb (bool_decide (c ∈ chars))) s.

Fixpoint lstrip (s : str) : str :=
  match s with
  | c :: r => if isspace c then lstrip r else s
  | [] => []
  end.

Definition rstrip (s : str) : str := rev (lstrip (rev s)).

(** [s.strip()] *)
Definition strip (s : str) : str := rstrip (lstrip s).

(** [re.sub(r"\s+", " ", s)]; [in_run] tells that the previous character
    was white space, already replaced. *)
Fixpoint collapse_from (in_run : bool) (s : str) : str :=
  match s with
  | [] => []
  | c :: r =>
      if isspace c
      then (if in_run then collapse_from true r else 32%N :: collapse_from true r)
      else c :: collapse_from false r
  end.

Definition collapse_whitespace (s : str) : str := collapse_from false s.

(** The texts [collapse_from in_run] leaves as they are: white space is
    the single space, never twice in a row, and not at the start when
    [in_run] holds. *)
Fixpoint collapsed (in_run : bool) (s : str) : bool :=
  match s with
  | [] => true
  | c :: r =>
      if isspace c then (c =? 32)%N && negb in_run && collapsed true r
      else collapsed false r
  end.

(** The first and the last character, if any, are not white space. *)
Definition no_edge_space (s : str) : Prop :=
  (forall c, head s = Some c -> isspace c = false)
  /\ (forall c, last s = Some c -> isspace c = false).

Section WithUnicode.

Context {U : UnicodeData}.

(** Steps 1 to 3: NFC, lower case, NFD; the text before the nonspacing
    marks are dropped. *)
Definition decomposed_lower (text : str) : str :=
  normalize_NFD (str_lower (normalize_NFC text)).

(** Steps 3 (removal of the marks) to 6. *)
Definition strip_marks_and_punctuation (decomposed : str) : str :=
  let no_accents := List.filter (fun c => negb (category_Mn c)) decomposed in
  let normalized_text := replace_char final_sigma small_sigma no_accents in
  let normalized_text := translate_remove punctuation_to_remove normalized_text in
  let normalized_text := strip normalized_text in
  collapse_whitespace normalized_text.

(** A character the steps after the decomposition leave alone. *)
Definition plain (c : codepoint) : Prop :=
  category_Mn c = false /\ c <> final_sigma /\ c ∉ punctuation_to_remove.

(** [normalize_text(text)] for [text : str | None].  None of the steps
    raises on a string, so the [except] branch is never taken. *)
Definition normalize_text (text : option str) : option str :=
  match text with
  | None => None
  | Some text =>
      if negb (truthy text) then Some []
      else Some (strip_marks_and_punctuation (decomposed_lower text))
  end.

End WithUnicode.

End NormalizeText.
Export NormalizeText.

(* ===================================================================== *)
(** ** Relational predicates and statements                               *)
(* ===================================================================== *)

(** The part of SQLAlchemy's expression language the builders use. *)
Module Sql.

Inductive Column : Type :=
  | Outage_outage_date | Outage_outage_type | Outage_outage_start
  | Screening_screening_date | Screening_screening_time
  | Movie_movie_name | Movie_normalized_movie_name
  | Movie_normalized_movie_name_greek | Movie_normalized_movie_name_english
  | Movie_normalized_genre | Movie_genre | Movie_year
  | Cinema_cinema_name | Hall_hall_name
  | HospitalShift_hospital_shift_date | HospitalShift_hospital_name
  | HospitalShift_normalized_hospital_name
  | HospitalShift_hospital_shift_start_time
  | HospitalShift_hospital_shift_end_time
  | Performance_performance_date | Performance_performance_name
  | Performance_normalized_performance_name
  | Performance_normalized_performance_location
  | Performance_performance_type.

#[global] Instance Column_eq_dec : EqDecision Column.
Proof. solve_decision. Defined.

Inductive Entity : Type := Outage | Screening | Movie | Hall | Cinema
                         | HospitalShift | Performance.

(** The settings read when a predicate is built: the similarity
    threshold is a floating-point number, left abstract. *)
Class Settings : Type := {
  float : Type;
  FUZZY_THRESHOLD : float
}.

Section WithSettings.

Context {S : Settings}.

(** A boolean SQL expression, [ColumnElement[bool]]. *)
#[warnings="-register-all"] Inductive ColumnElement : Type :=
  | In_ (column : Column) (dates : list date)        (* column.in_(dates) *)
  | False_                                           (* false() *)
  | EqStr (column : Column) (value : str)            (* column == value *)
  | EqInt (column : Column) (value : Z)
  | GeStr (column : Column) (value : str)            (* column >= value *)
  | LeStr (column : Column) (value : str)            (* column <= value *)
  | SimilarityGt (column : Column) (term : str) (threshold : float)
      (* func.similarity(column, term) > threshold *)
  | RegexMatchI (column : Column) (pattern : str)    (* column.op("~*")(pattern) *)
  | ILike (column : Column) (pattern : str)          (* column.ilike(pattern) *)
  | Or_ (clauses : list ColumnElement)               (* or_( *clauses) *)
  | And_ (clauses : list ColumnElement).             (* and_( *clauses) *)

Inductive Direction : Type := Asc | Desc.

Inductive Selected : Type :=
  | SelectEntity (e : Entity)            (* select(Outage) *)
  | SelectColumns (cols : list Column).  (* select( *select_columns) *)

(** A [Select] statement. *)
Record Select : Type := mkSelect {
  selected : Selected;
  select_from : option Entity;
  joins : list Entity;
  whereclause : option ColumnElement;
  is_distinct : bool;
  order_by_clauses : list (Column * Direction)
}.

Definition select (sel : Selected) : Select := mkSelect sel None [] None false [].
Definition with_select_from (e : Entity) (stmt : Select) : Select :=
  mkSelect (selected stmt) (Some e) (joins stmt) (whereclause stmt)
    (is_distinct stmt) (order_by_clauses stmt).
Definition join (e : Entity) (stmt : Select) : Select :=
  mkSelect (selected stmt) (select_from stmt) (joins stmt ++ [e]) (whereclause stmt)
    (is_distinct stmt) (order_by_clauses stmt).
(** [stmt.where(clause)] on a statement that may already have a
    criterion: the two are joined by AND. *)
Definition where_ (clause : ColumnElement) (stmt : Select) : Select :=
  mkSelect (selected stmt) (select_from stmt) (joins stmt)
    (match whereclause stmt with
     | None => Some clause
     | Some w => Some (And_ [w; clause])
     end)
    (is_distinct stmt) (order_by_clauses stmt).
Definition distinct (stmt : Select) : Select :=
  mkSelect (selected stmt) (select_from stmt) (joins stmt) (whereclause stmt)
    true (order_by_clauses stmt).
Definition order_by (clauses : list (Column * Direction)) (stmt : Select) : Select :=
  mkSelect (selected stmt) (select_from stmt) (joins stmt) (whereclause stmt)
    (is_distinct stmt) (order_by_clauses stmt ++ clauses).

(** *** Evaluation of a predicate on a row *)

Inductive SqlValue : Type :=
  | SqlNull
  | SqlDate (d : date)
  | SqlStr (s : str)
  | SqlInt (z : Z).

(** A row gives a value to every column of the query. *)
Definition Row : Type := Column -> SqlValue.

(** The operators evaluated by PostgreSQL; a result of [None] is SQL's
    NULL. *)
Record Postgres : Type := mkPostgres {
  pg_similarity_gt : str -> str -> float -> bool;  (* similarity(a, b) > t *)
  pg_regex_match_i : str -> str -> bool;           (* a ~* pattern *)
  pg_ilike : str -> str -> bool;                   (* a ILIKE pattern *)
  pg_str_le : str -> str -> bool                   (* a <= b in the collation *)
}.

Definition on_str (v : SqlValue) (f : str -> bool) : option bool :=
  match v with SqlStr s => Some (f s) | _ => None end.

(** Three-valued AND and OR. *)
Definition and3 (a b : option bool) : option bool :=
  match a, b with
  | Some false, _ | _, Some false => Some false
  | Some true, Some true => Some true
  | _, _ => None
  end.
Definition or3 (a b : option bool) : option bool :=
  match a, b with
  | Some true, _ | _, Some true => Some true
  | Some false, Some false => Some false
  | _, _ => None
  end.

Fixpoint eval (pg : Postgres) (row : Row) (p : ColumnElement) : option bool :=
  match p with
  | In_ c ds =>
      match row c with
      | SqlDate d => Some (bool_decide (d ∈ ds))
      | _ => None
      end
  | False_ => Some false
  | EqStr c v => on_str (row c) (fun s => str_eqb s v)
  | EqInt c v => match row c with SqlInt z => Some (Z.eqb z v) | _ => None end
  | GeStr c v => on_str (row c) (fun s => pg_str_le pg v s)
  | LeStr c v => on_str (row c) (fun s => pg_str_le pg s v)
  | SimilarityGt c t th => on_str (row c) (fun s => pg_similarity_gt pg s t th)
  | RegexMatchI c pat => on_str (row c) (fun s => pg_regex_match_i pg s pat)
  | ILike c pat => on_str (row c) (fun s => pg_ilike pg s pat)
  | Or_ ps => fold_right (fun q acc => or3 (eval pg row q) acc) (Some false) ps
  | And_ ps => fold_right (fun q acc => and3 (eval pg row q) acc) (Some true) ps
  end.

(** A row is selected when the criterion evaluates to true; a statement
    without WHERE clause selects every row. *)
Definition matches (pg : Postgres) (p : option ColumnElement) (row : Row) : bool :=
  match p with
  | None => true
  | Some p => bool_decide (eval pg row p = Some true)
  end.

Definition rows_selected (pg : Postgres) (stmt : Select) (rows : list Row)
    : list Row :=
  List.filter (matches pg (whereclause stmt)) rows.

End WithSettings.

End Sql.
Export Sql.

(* ===================================================================== *)
(** ** Matching-condition builders                                        *)
(* ===================================================================== *)

(** app/utils/build_fuzzy_conditions.py, app/utils/build_regex_conditions.py *)
Module Conditions.

Definition wildcard : str := lit "*".

(** [s.split()]: the maximal runs of characters that are not white space;
    [word] is the run being read. *)
Fixpoint split_from (word : str) (s : str) : list str :=
  match s with
  | [] => if truthy word then [word] else []
  | c :: r =>
      if isspace c
      then (if truthy word then word :: split_from [] r else split_from [] r)
      else split_from (word ++ [c]) r
  end.

Definition split (s : str) : list str := split_from [] s.

(** [sep.join(parts)] *)
Fixpoint str_join (sep : str) (parts : list str) : str :=
  match parts with
  | [] => []
  | [w] => w
  | w :: rest => w ++ sep ++ str_join sep rest
  end.

(** The characters [re.escape] protects with a backslash. *)
Definition re_special_chars : str :=
  [40; 41; 91; 93; 123; 125; 63; 42; 43; 45; 124; 94; 36; 92; 46; 38; 126; 35;
   32; 9; 10; 13; 11; 12]%N.

Definition re_escape (word : str) : str :=
  flat_map (fun c => if bool_decide (c ∈ re_special_chars) then [92%N; c] else [c])
    word.

Section WithContext.

Context {U : UnicodeData} {S : Settings}.

(** The comprehension both builders start with:
    [[norm_term for term in terms if term != "*" and term
      if (norm_term := normalize_text(term))]] *)
Definition valid_terms_normalized (terms : list str) : list str :=
  flat_map
    (fun term =>
       if negb (str_eqb term wildcard) && truthy term then
         match normalize_text (Some term) with
         | Some norm_term => if truthy norm_term then [norm_term] else []
         | None => []
         end
       else [])
    terms.

Definition build_fuzzy_conditions (column : Column) (terms : list str)
    (threshold : float) : list ColumnElement :=
  List.map (fun norm_term => SimilarityGt column norm_term threshold)
    (valid_terms_normalized terms).

Definition build_regex_conditions (column : Column) (terms : list str)
    : list ColumnElement :=
  flat_map
    (fun norm_term =>
       let words := split norm_term in
       match words with
       | [] => []
       | _ =>
           let escaped_words := List.map re_escape words in
           let pattern := lit "\m" ++ str_join (lit "\M.*\m") escaped_words ++ lit "\M" in
           [RegexMatchI column pattern]
       end)
    (valid_terms_normalized terms).

End WithContext.

End Conditions.
Export Conditions.

(* ===================================================================== *)
(** ** Per-entity filter builders and statement assemblers                *)
(* ===================================================================== *)

(** app/tools/statement_builders/ *)
Module Builders.

Section WithContext.

Context {U : UnicodeData} {S : Settings}.

(** The loop over a date list, the same in the four date builders:
    it returns [valid_dates] and [has_attempted_dates]. *)
Fixpoint date_loop (dates : list str) (valid_dates : list date)
    (has_attempted_dates : bool) : list date * bool :=
  match dates with
  | [] => (valid_dates, has_attempted_dates)
  | date_str :: rest =>
      if str_eqb date_str wildcard || negb (truthy date_str)
      then date_loop rest valid_dates has_attempted_dates
      else
        match strptime_date date_str with
        | Some d => date_loop rest (valid_dates ++ [d]) true
        | None => date_loop rest valid_dates true        (* ValueError, logged *)
        end
  end.

(** The three exits after the loop. *)
Definition date_filter_result (column : Column) (r : list date * bool)
    : option ColumnElement :=
  let '(valid_dates, has_attempted_dates) := r in
  match valid_dates with
  | _ :: _ => Some (In_ column valid_dates)
  | [] => if has_attempted_dates then Some False_ else None
  end.

(** if [f] is not None: [filters.append(f)] *)
Definition append_filter (filters : list ColumnElement) (f : option ColumnElement)
    : list ColumnElement :=
  match f with
  | Some c => filters ++ [c]
  | None => filters
  end.

(** if [filters]: [stmt = stmt.where(and_( *filters))] *)
Definition apply_filters (filters : list ColumnElement) (stmt : Select) : Select :=
  match filters with
  | [] => stmt
  | _ => where_ (And_ filters) stmt
  end.

(** *** outages_statement_builder.py *)

Definition _build_outage_date_filter (outage_dates : list str)
    : option ColumnElement :=
  if bool_decide (outage_dates = [wildcard]) then None
  else date_filter_result Outage_outage_date (date_loop outage_dates [] false).

Definition _build_outage_type_filter (outage_type : option str)
    : option ColumnElement :=
  match outage_type with
  | None => None
  | Some t =>
      if str_eqb t wildcard || negb (truthy t) then None
      else Some (EqStr Outage_outage_type t)
  end.

Definition _build_outage_location_filter (locations : list str)
    : option ColumnElement := None.

Definition _build_outage_affected_areas_filter (affected_areas : list str)
    : option ColumnElement := None.

Definition build_outages_statement (outage_dates : list str)
    (outage_type : option str) (locations affected_areas : list str) : Select :=
  let stmt := select (SelectEntity Outage) in
  let filters := [] in
  let filters := append_filter filters (_build_outage_date_filter outage_dates) in
  let filters := append_filter filters (_build_outage_type_filter outage_type) in
  let filters := append_filter filters (_build_outage_location_filter locations) in
  let filters :=
    append_filter filters (_build_outage_affected_areas_filter affected_areas) in
  let stmt := apply_filters filters stmt in
  order_by [(Outage_outage_date, Desc); (Outage_outage_start, Desc)] stmt.

(** *** movies_statement_builder.py *)

Definition _build_screening_date_filter (screening_dates : list str)
    : option ColumnElement :=
  if bool_decide (screening_dates = [wildcard]) then None
  else date_filter_result Screening_screening_date
         (date_loop screening_dates [] false).

Definition _build_movie_filter (movies : list str) : option ColumnElement :=
  if bool_decide (movies = [wildcard]) then None
  else
    let conditions_primary :=
      build_fuzzy_conditions Movie_normalized_movie_name movies FUZZY_THRESHOLD in
    let conditions_greek :=
      build_fuzzy_conditions Movie_normalized_movie_name_greek movies
        FUZZY_THRESHOLD in
    let conditions_english :=
      build_fuzzy_conditions Movie_normalized_movie_name_english movies
        FUZZY_THRESHOLD in
    let all_movie_conditions :=
      conditions_primary ++ conditions_greek ++ conditions_english in
    match all_movie_conditions with
    | [] => None
    | _ => Some (Or_ all_movie_conditions)
    end.

Definition _build_genre_filter (genres : list str) : option ColumnElement :=
  if bool_decide (genres = [wildcard]) || bool_decide (genres = []) then None
  else
    let regex_conditions := build_regex_conditions Movie_normalized_genre genres in
    let fuzzy_conditions :=
      build_fuzzy_conditions Movie_normalized_genre genres FUZZY_THRESHOLD in
    let all_genre_conditions := regex_conditions ++ fuzzy_conditions in
    match all_genre_conditions with
    | [] => None
    | _ => Some (Or_ all_genre_conditions)
    end.

Definition _build_year_filter (year : option Z) : option ColumnElement :=
  match year with
  | None => None
  | Some y => Some (EqInt Movie_year y)
  end.

Definition _build_cinema_filter (cinemas : list str) : option ColumnElement :=
  if bool_decide (cinemas = [wildcard]) then None
  else
    let cinema_conditions :=
      flat_map
        (fun cinema_name =>
           if str_eqb cinema_name wildcard || negb (truthy cinema_name) then []
           else
             let sim_condition :=
               SimilarityGt Cinema_cinema_name cinema_name FUZZY_THRESHOLD in
             let ilike_condition :=
               ILike Cinema_cinema_name (lit "%" ++ cinema_name ++ lit "%") in
             [Or_ [sim_condition; ilike_condition]])
        cinemas in
    match cinema_conditions with
    | [] => None
    | _ => Some (Or_ cinema_conditions)
    end.

Definition build_cinemas_statement (screening_dates movies cinemas : list str)
    (halls_and_screening_times : bool) (genres : list str) (year : option Z)
    : Select :=
  let select_columns :=
    if halls_and_screening_times
    then [Screening_screening_date; Screening_screening_time; Movie_movie_name;
          Cinema_cinema_name; Hall_hall_name; Movie_genre; Movie_year]
    else [Screening_screening_date; Movie_movie_name; Cinema_cinema_name;
          Movie_genre; Movie_year] in
  let stmt := select (SelectColumns select_columns) in
  let stmt := join Cinema (join Hall (join Movie (with_select_from Screening stmt))) in
  let filters := [] in
  let filters := append_filter filters (_build_screening_date_filter screening_dates) in
  let filters := append_filter filters (_build_movie_filter movies) in
  let filters := append_filter filters (_build_cinema_filter cinemas) in
  let filters := append_filter filters (_build_genre_filter genres) in
  let filters := append_filter filters (_build_year_filter year) in
  let stmt := apply_filters filters stmt in
  let stmt := if negb halls_and_screening_times then distinct stmt else stmt in
  let order_columns :=
    [(Screening_screening_date, Asc); (Cinema_cinema_name, Asc);
     (Movie_movie_name, Asc)] in
  let order_columns :=
    if halls_and_screening_times
    then order_columns ++ [(Screening_screening_time, Asc)]
    else order_columns in
  order_by order_columns stmt.

(** *** hospital_shifts_statement_builder.py *)

Definition _build_hospital_shift_date_filter (hospital_shift_dates : list str)
    : option ColumnElement :=
  if bool_decide (hospital_shift_dates = [wildcard]) then None
  else date_filter_result HospitalShift_hospital_shift_date
         (date_loop hospital_shift_dates [] false).

Definition _build_hospital_name_filter (hospital_names : list str)
    : option ColumnElement :=
  if bool_decide (hospital_names = [wildcard]) then None
  else
    let regex_conditions :=
      build_regex_conditions HospitalShift_normalized_hospital_name hospital_names in
    let fuzzy_threshold := FUZZY_THRESHOLD in
    let fuzzy_conditions :=
      build_fuzzy_conditions HospitalShift_normalized_hospital_name hospital_names
        fuzzy_threshold in
    let all_conditions := regex_conditions ++ fuzzy_conditions in
    match all_conditions with
    | [] => None
    | [c] => Some c
    | _ => Some (Or_ all_conditions)
    end.

Definition _build_specialties_filter (specialties : list str)
    : option ColumnElement :=
  if bool_decide (specialties = [wildcard]) || bool_decide (specialties = [])
  then None
  else None.

Definition _build_hospital_shift_time_filter (start_time_str end_time_str : str)
    : option ColumnElement :=
  let time_conditions := [] in
  let time_conditions :=
    if negb (str_eqb start_time_str wildcard) then
      if strptime_time_ok start_time_str
      then time_conditions ++ [GeStr HospitalShift_hospital_shift_start_time start_time_str]
      else time_conditions
    else time_conditions in
  let time_conditions :=
    if negb (str_eqb end_time_str wildcard) then
      if strptime_time_ok end_time_str
      then time_conditions ++ [LeStr HospitalShift_hospital_shift_end_time end_time_str]
      else time_conditions
    else time_conditions in
  match time_conditions with
  | [] => None
  | [c] => Some c
  | _ => Some (And_ time_conditions)
  end.

Definition build_hospital_shifts_statement (hospital_shift_dates hospital_names : list str)
    (hospital_shifts_start_time hospital_shifts_end_time : str)
    (specialties : list str) (include_contact_info : bool) : Select :=
  let stmt := select (SelectEntity HospitalShift) in
  let filters := [] in
  let filters :=
    append_filter filters (_build_hospital_shift_date_filter hospital_shift_dates) in
  let filters := append_filter filters (_build_hospital_name_filter hospital_names) in
  let filters :=
    append_filter filters
      (_build_hospital_shift_time_filter hospital_shifts_start_time
         hospital_shifts_end_time) in
  let filters := append_filter filters (_build_specialties_filter specialties) in
  let stmt := apply_filters filters stmt in
  order_by [(HospitalShift_hospital_shift_date, Asc);
            (HospitalShift_hospital_name, Asc)] stmt.

(** *** performances_statement_builder.py *)

Definition _build_performance_date_filter (performance_dates : list str)
    : option ColumnElement :=
  if bool_decide (performance_dates = [wildcard]) then None
  else date_filter_result Performance_performance_date
         (date_loop performance_dates [] false).

Definition _build_performance_name_filter (performance_names : list str)
    : option ColumnElement :=
  if bool_decide (performance_names = [wildcard]) then None
  else
    let name_conditions :=
      build_fuzzy_conditions Performance_normalized_performance_name
        performance_names FUZZY_THRESHOLD in
    match name_conditions with
    | [] => None
    | _ => Some (Or_ name_conditions)
    end.

Definition _build_performance_location_filter (performance_locations : list str)
    : option ColumnElement :=
  if bool_decide (performance_locations = [wildcard]) then None
  else
    let location_conditions :=
      build_fuzzy_conditions Performance_normalized_performance_location
        performance_locations FUZZY_THRESHOLD in
    match location_conditions with
    | [] => None
    | _ => Some (Or_ location_conditions)
    end.

Definition _build_performance_type_filter (performance_type : option str)
    : option ColumnElement :=
  match performance_type with
  | None => None
  | Some t =>
      if str_eqb t wildcard || negb (truthy t) then None
      else Some (EqStr Performance_performance_type t)
  end.

Definition build_performances_statement
    (performance_dates performance_names performance_locations : list str)
    (performance_type : option str) : Select :=
  let stmt := select (SelectEntity Performance) in
  let filters := [] in
  let filters :=
    append_filter filters (_build_performance_date_filter performance_dates) in
  let filters :=
    append_filter filters (_build_performance_name_filter performance_names) in
  let filters :=
    append_filter filters (_build_performance_location_filter performance_locations) in
  let filters :=
    append_filter filters (_build_performance_type_filter performance_type) in
  let stmt := apply_filters filters stmt in
  order_by [(Performance_performance_date, Asc);
            (Performance_performance_name, Asc)] stmt.

(** *** The builders, by kind of field *)

(** The four date-list builders, each with the column it constrains. *)
Definition date_filter_builders : list ((list str -> option ColumnElement) * Column) :=
  [(_build_outage_date_filter, Outage_outage_date);
   (_build_screening_date_filter, Screening_screening_date);
   (_build_hospital_shift_date_filter, HospitalShift_hospital_shift_date);
   (_build_performance_date_filter, Performance_performance_date)].

(** Every builder that reads a list of terms. *)
Definition list_filter_builders : list (list str -> option ColumnElement) :=
  [_build_outage_date_filter; _build_outage_location_filter;
   _build_outage_affected_areas_filter;
   _build_screening_date_filter; _build_movie_filter; _build_genre_filter;
   _build_cinema_filter;
   _build_hospital_shift_date_filter; _build_hospital_name_filter;
   _build_specialties_filter;
   _build_performance_date_filter; _build_performance_name_filter;
   _build_performance_location_filter].

(** The entries of a date list that are neither the wildcard nor empty,
    and those of them that parse as a date, in the order of the list. *)
Definition attempted_entries (dates : list str) : list str :=
  List.filter (fun date_str => negb (str_eqb date_str wildcard || negb (truthy date_str)))
    dates.

Definition parsed_dates (dates : list str) : list date :=
  omap strptime_date (attempted_entries dates).

(** A list made of wildcards and empty strings only. *)
Definition only_sentinels (terms : list str) : Prop :=
  Forall (fun term => term = wildcard \/ term = []) terms.

(** A scalar that is the wildcard or the empty string. *)
Definition sentinel (term : str) : Prop := term = wildcard \/ term = [].

(** The ordering is ascending on [date_column] first, then ascending on
    at least one more column. *)
Definition ascending_by_date_first (date_column : Column) (stmt : Select) : Prop :=
  exists rest,
    order_by_clauses stmt = (date_column, Asc) :: rest
    /\ rest <> [] /\ Forall (fun clause => snd clause = Asc) rest.

End WithContext.

(** Settings with the threshold as a rational number, and a database
    whose text operators compare for equality, for the examples. *)
Definition sample_settings : Settings := {| float := Q; FUZZY_THRESHOLD := Qmake 1 10 |}.

Definition sample_postgres : @Postgres sample_settings :=
  @mkPostgres sample_settings (fun a b _ => str_eqb a b) str_eqb str_eqb
    (fun a b => bool_decide (length a <= length b)).

(** A row of the outages table; the other columns are NULL. *)
Definition outage_row (d : date) (outage_type : str) : Row :=
  fun c =>
    match c with
    | Outage_outage_date => SqlDate d
    | Outage_outage_type => SqlStr outage_type
    | _ => SqlNull
    end.

End Builders.
Export Builders.

(* ===================================================================== *)
(** ** The sequential transactional executor                              *)
(* ===================================================================== *)

(** app/tools/sequential_tool_executor.py *)
Module Executor.

(** Values found in a tool call's parameter dictionary. *)
Inductive PyValue : Type :=
  | PyNone
  | PyBool (b : bool)
  | PyInt (z : Z)
  | PyStr (s : str)
  | PyStrList (items : list str).

(** [tool_call.name] and [tool_call.model_dump(exclude={"name"})]. *)
Record ToolCall : Type := mkToolCall {
  name : str;
  model_dump_exclude_name : gmap str PyValue
}.

(** The transaction opened by [async with db.begin()]. *)
Inductive TxnState : Type := Idle | InTransaction | Committed | RolledBack.

(** An entry of [all_tool_results]: formatted text, the dictionary
    [{"error": message}], or the raw results of a tool without formatter. *)
Inductive ToolResult (Raw : Type) : Type :=
  | Formatted (text : str)
  | ErrorPayload (message : str)
  | RawResults (raw : Raw).
Arguments Formatted {Raw} text.
Arguments ErrorPayload {Raw} message.
Arguments RawResults {Raw} raw.

(** What lies outside the executor: the database as seen by the tool
    functions ([Db]), the raw rows they return ([Raw]) and the exceptions
    they raise ([exn]).
    - [is_Exception e]: [e] is an instance of [Exception], the class both
      [except] clauses catch, rather than a bare [BaseException];
    - a tool function, [await tool_func(params=tool_params, db=db)], raises
      or returns raw results and may change the database state;
    - a formatter is called as [formatter(raw_results)] or with the keyword
      argument [halls_and_screening_times]. *)
Record ToolEnv (Db Raw exn : Type) : Type := mkToolEnv {
  is_Exception : exn -> bool;
  TOOL_REGISTRY : gmap str (gmap str PyValue -> Db -> (exn + Raw) * Db);
  TOOL_FORMATTERS : gmap str (Raw -> option PyValue -> exn + str)
}.
Arguments is_Exception {Db Raw exn} _ _.
Arguments TOOL_REGISTRY {Db Raw exn} _.
Arguments TOOL_FORMATTERS {Db Raw exn} _.

(** State threaded through the loop.  [awaited] is the trace of the tool
    functions that were called, each with the position of its call in the
    batch. *)
Record ExecState (Db Raw : Type) : Type := mkExecState {
  all_tool_results : gmap str (ToolResult Raw);
  db : Db;
  awaited : list (nat * ToolCall)
}.
Arguments mkExecState {Db Raw} _ _ _.
Arguments all_tool_results {Db Raw} _.
Arguments db {Db Raw} _.
Arguments awaited {Db Raw} _.

(** One iteration either falls through to the next one or leaves the loop
    with an exception. *)
Inductive Step (Db Raw exn : Type) : Type :=
  | Continue (st : ExecState Db Raw)
  | Abort (e : exn) (st : ExecState Db Raw).
Arguments Continue {Db Raw exn} st.
Arguments Abort {Db Raw exn} e st.

(** What the caller observes: the returned dictionary or the exception. *)
Inductive Outcome (Raw exn : Type) : Type :=
  | Returned (results : gmap str (ToolResult Raw))
  | Raised (e : exn).
Arguments Returned {Raw exn} results.
Arguments Raised {Raw exn} e.

Record Run (Db Raw exn : Type) : Type := mkRun {
  outcome : Outcome Raw exn;
  transaction : TxnState;
  calls_awaited : list (nat * ToolCall);
  final_db : Db
}.
Arguments mkRun {Db Raw exn} _ _ _ _.
Arguments outcome {Db Raw exn} _.
Arguments transaction {Db Raw exn} _.
Arguments calls_awaited {Db Raw exn} _.
Arguments final_db {Db Raw exn} _.

Definition msg_not_available (tool_name : str) : str :=
  lit "Tool '" ++ tool_name ++ lit "' not available.".
Definition msg_failed_to_format (tool_name : str) : str :=
  lit "Failed to format results for tool '" ++ tool_name ++ lit "'.".
Definition msg_failed_to_execute (tool_name : str) : str :=
  lit "Failed to execute tool '" ++ tool_name ++ lit "'.".

Section WithTools.

Context {Db Raw exn : Type}.
Variable env : ToolEnv Db Raw exn.

Definition set_result (k : str) (v : ToolResult Raw) (st : ExecState Db Raw)
    : ExecState Db Raw :=
  mkExecState (<[k := v]> (all_tool_results st)) (db st) (awaited st).
Definition set_db (d : Db) (st : ExecState Db Raw) : ExecState Db Raw :=
  mkExecState (all_tool_results st) d (awaited st).
Definition log_await (i : nat) (c : ToolCall) (st : ExecState Db Raw)
    : ExecState Db Raw :=
  mkExecState (all_tool_results st) (db st) (awaited st ++ [(i, c)]).

(** The formatter call of lines 64-93. *)
Definition call_formatter (formatter : Raw -> option PyValue -> exn + str)
    (tool_name : str) (tool_params : gmap str PyValue) (raw_results : Raw)
    : exn + str :=
  if str_eqb tool_name (lit "cinemas") then
    let include_times :=
      default (PyBool false) (tool_params !! lit "halls_and_screening_times") in
    formatter raw_results (Some include_times)
  else formatter raw_results None.

(** The body of [for tool_call in tool_calls], lines 23-106. *)
Definition loop_body (i : nat) (tool_call : ToolCall) (st : ExecState Db Raw)
    : Step Db Raw exn :=
  let tool_name := name tool_call in
  let tool_params := model_dump_exclude_name tool_call in
  match TOOL_REGISTRY env !! tool_name with
  | None =>
      Continue (set_result tool_name (ErrorPayload (msg_not_available tool_name)) st)
  | Some tool_func =>
      let st := log_await i tool_call st in
      match tool_func tool_params (db st) with
      | (inl e, db') =>
          let st := set_db db' st in
          if is_Exception env e then
            Abort e (set_result tool_name
                       (ErrorPayload (msg_failed_to_execute tool_name)) st)
          else Abort e st
      | (inr raw_results, db') =>
          let st := set_db db' st in
          match TOOL_FORMATTERS env !! tool_name with
          | Some formatter =>
              match call_formatter formatter tool_name tool_params raw_results with
              | inr formatted_results =>
                  Continue (set_result tool_name (Formatted formatted_results) st)
              | inl fmt_e =>
                  if is_Exception env fmt_e then
                    Continue (set_result tool_name
                                (ErrorPayload (msg_failed_to_format tool_name)) st)
                  else Abort fmt_e st
              end
          | None => Continue (set_result tool_name (RawResults raw_results) st)
          end
      end
  end.

(** The [for] loop, from position [i] of the batch. *)
Fixpoint exec_loop (i : nat) (tool_calls : list ToolCall) (st : ExecState Db Raw)
    : Step Db Raw exn :=
  match tool_calls with
  | [] => Continue st
  | tool_call :: rest =>
      match loop_body i tool_call st with
      | Continue st' => exec_loop (S i) rest st'
      | Abort e st' => Abort e st'
      end
  end.

(** [execute_tools_sequentially]: the loop runs inside one transaction,
    committed on normal exit and rolled back when an exception leaves
    the [async with] block. *)
Definition execute_tools_sequentially (tool_calls : list ToolCall) (d : Db)
    : Run Db Raw exn :=
  let st0 := mkExecState ∅ d [] in
  match exec_loop 0 tool_calls st0 with
  | Continue st => mkRun (Returned (all_tool_results st)) Committed (awaited st) (db st)
  | Abort e st => mkRun (Raised e) RolledBack (awaited st) (db st)
  end.

(** The tool call names a function of the registry. *)
Definition registered (c : ToolCall) : bool :=
  bool_decide (is_Some (TOOL_REGISTRY env !! name c)).

(** Trace entries whose positions lie in [i, i + n). *)
Definition fresh_in (i n : nat) (new : list (nat * ToolCall)) : Prop :=
  Forall (λ p, i ≤ p.1 < i + n) new.

(** What one invocation stores under its name when it is processed on
    database state [d], whatever the dictionary held before. *)
Definition result_of_call (c : ToolCall) (d : Db) : option (ToolResult Raw) :=
  match loop_body 0 c (mkExecState ∅ d []) with
  | Continue st => all_tool_results st !! name c
  | Abort _ _ => None
  end.

End WithTools.

(** A registry in the shape of the one the unit tests install: the
    database state counts the statements executed, raw results are lists
    of row numbers and an exception is its message; [asyncio]'s
    [CancelledError] stands for the exceptions that are not instances of
    [Exception]. *)
Definition sample_env : ToolEnv nat (list nat) str :=
  mkToolEnv nat (list nat) str
    (fun e => negb (str_eqb e (lit "CancelledError")))
    (<[lit "outages" := fun _ d => (inr [d; 7], S d)]>
     (<[lit "cinemas" := fun _ d => (inl (lit "Tool execution failed"), S d)]>
      (<[lit "performances" := fun _ d => (inr [d], S d)]>
       (<[lit "history" := fun _ d => (inr [], d)]> ∅))))
    (<[lit "outages" := fun raw _ => inr (lit "outages: " ++ List.map (fun n => 48 + N.of_nat n)%N raw)]>
     (<[lit "performances" := fun raw _ => inl (lit "TypeError")]>
      (<[lit "cinemas" := fun raw _ => inr (lit "screenings")]> ∅))).

Definition call_of (n : string) : ToolCall := mkToolCall (lit n) ∅.

End Executor.

(* ===================================================================== *)
(** ** Result formatters                                                  *)
(* ===================================================================== *)

(** app/tools/formatters/ *)
Module Formatters.

(** The exceptions a formatter may let escape. *)
Inductive PyError : Type := TypeError | AttributeError.

(** [datetime.time] *)
Record time : Type := mkTime { hour : N; minute : N; second : N; microsecond : N }.

Definition time_key (t : time) : list N := [hour t; minute t; second t; microsecond t].

(** Lexicographic [<=] on sequences of numbers: the order of Python on
    strings (by code point) and on the fields of a time. *)
Fixpoint seq_leb (a b : list N) : bool :=
  match a, b with
  | [], _ => true
  | _ :: _, [] => false
  | x :: a', y :: b' => if (x <? y)%N then true else if (y <? x)%N then false
                        else seq_leb a' b'
  end.

Definition time_leb (a b : time) : bool := seq_leb (time_key a) (time_key b).

(** [sorted(items, key=...)]: a stable sort, [leb] being [<=] on the keys. *)
Fixpoint insert_sorted {A} (leb : A -> A -> bool) (x : A) (l : list A) : list A :=
  match l with
  | [] => [x]
  | y :: r => if leb y x then y :: insert_sorted leb x r else x :: l
  end.

Definition sorted {A} (leb : A -> A -> bool) (l : list A) : list A :=
  fold_left (fun acc x => insert_sorted leb x acc) l [].

(** Decimal digits of a number, as [str(n)] writes them. *)
Fixpoint digits_from (fuel : nat) (n : N) (acc : str) : str :=
  match fuel with
  | O => acc
  | S fuel' =>
      let acc' := (48 + n mod 10)%N :: acc in
      if (n / 10 =? 0)%N then acc' else digits_from fuel' (n / 10)%N acc'
  end.

Definition str_of_N (n : N) : str := digits_from 40 n [].

(** [d.strftime("%d/%m/%Y")]; the C library writes the year without
    padding. *)
Definition strftime_dmY (d : date) : str :=
  two_digits (day d) ++ lit "/" ++ two_digits (month d) ++ lit "/" ++ str_of_N (year d).

(** [t.strftime("%H:%M")] *)
Definition strftime_HM (t : time) : str :=
  two_digits (hour t) ++ lit ":" ++ two_digits (minute t).

(** [s.splitlines()]; [line] is the line being read. *)
Definition is_line_break (c : codepoint) : bool :=
  bool_decide (c ∈ [10; 11; 12; 13; 28; 29; 30; 0x85; 0x2028; 0x2029]%N).

Fixpoint splitlines_from (line : str) (s : str) : list str :=
  match s with
  | [] => if truthy line then [line] else []
  | c :: r =>
      if is_line_break c then
        match c, r with
        | 13%N, 10%N :: r' => line :: splitlines_from [] r'
        | _, _ => line :: splitlines_from [] r
        end
      else splitlines_from (line ++ [c]) r
  end.

Definition splitlines (s : str) : list str := splitlines_from [] s.

(** [x or default] for an optional string. *)
Definition or_default (x : option str) (default : str) : str :=
  match x with
  | Some s => if truthy s then s else default
  | None => default
  end.

(** A truthy optional string. *)
Definition nonempty (x : option str) : option str :=
  match x with
  | Some s => if truthy s then Some s else None
  | None => None
  end.

Definition unknown_date : str := lit "Άγνωστη Ημερομηνία".

Definition date_str_of (d : option date) : str :=
  match d with
  | Some d => strftime_dmY d
  | None => unknown_date
  end.

(** A dictionary with string keys, in insertion order.
    [dict[key].append(v)], the list being created when the key is new: *)
Fixpoint group_append {V} (key : str) (v : V) (groups : list (str * list V))
    : list (str * list V) :=
  match groups with
  | [] => [(key, [v])]
  | (k, vs) :: rest =>
      if str_eqb k key then (k, vs ++ [v]) :: rest
      else (k, vs) :: group_append key v rest
  end.

(** [sorted(groups.items())]: the keys are distinct, so only they are
    compared. *)
Definition sorted_items {V} (groups : list (str * V)) : list (str * V) :=
  sorted (fun a b => seq_leb (fst a) (fst b)) groups.

Definition header_line (date_str : str) : str :=
  [10%N] ++ lit "--- " ++ date_str ++ lit " ---".

(** *** outages_formatter.py *)

Record OutageRow : Type := mkOutage {
  outage_date : option date;
  outage_type : option str;
  outage_location : option str;
  outage_affected_areas : option str;
  outage_start : option time;
  outage_end : option time
}.

(** The key [(o.outage_start is None, o.outage_start)]. *)
Definition start_key_leb (a b : option time) : bool :=
  match a, b with
  | Some x, Some y => time_leb x y
  | Some _, None => true
  | None, Some _ => false
  | None, None => true
  end.

Definition outage_line (outage : OutageRow) : str :=
  let outage_type_display := or_default (outage_type outage) (lit "Άγνωστος") in
  let outage_type_display :=
    if bool_decide (outage_type outage = Some (lit "power")) then lit "ρεύματος"
    else if bool_decide (outage_type outage = Some (lit "water")) then lit "νερού"
    else outage_type_display in
  let line := lit "- Τύπος: " ++ outage_type_display in
  let line :=
    match nonempty (outage_location outage) with
    | Some l => line ++ lit ", Τοποθεσία: " ++ l
    | None => line
    end in
  let line :=
    match nonempty (outage_affected_areas outage) with
    | Some a => line ++ lit ", Περιοχές: " ++ str_join (lit ", ") (splitlines a)
    | None => line
    end in
  let start_time :=
    match outage_start outage with
    | Some t => strftime_HM t
    | None => lit "Άγνωστη"
    end in
  let end_time :=
    match outage_end outage with
    | Some t => strftime_HM t
    | None => lit "Άγνωστη"
    end in
  line ++ lit ", Ώρες: " ++ start_time ++ lit " - " ++ end_time.

(** The sections in the order they are rendered: the groups of
    [outages_by_date], sorted by their key. *)
Definition outage_sections (outages : list OutageRow) : list (str * list OutageRow) :=
  let outages_by_date :=
    fold_left (fun groups outage =>
                 group_append (date_str_of (outage_date outage)) outage groups)
      outages [] in
  sorted_items outages_by_date.

Definition format_outages (outages : list OutageRow) : str :=
  match outages with
  | [] => lit "Δεν βρέθηκαν προγραμματισμένες διακοπές που να ταιριάζουν με τα κριτήριά σας."
  | _ =>
      let formatted_lines := [lit "Βρέθηκαν οι ακόλουθες προγραμματισμένες διακοπές:"] in
      let formatted_lines :=
        fold_left
          (fun lines section =>
             let '(date_str, daily_outages) := section in
             lines ++ [header_line date_str]
             ++ List.map outage_line
                  (sorted (fun a b => start_key_leb (outage_start a) (outage_start b))
                     daily_outages))
          (outage_sections outages) formatted_lines in
      str_join [10%N] formatted_lines
  end.

(** *** performances_formatter.py *)

Record PerformanceRow : Type := mkPerformance {
  performance_date : option date;
  performance_name : option str;
  performance_location : option str;
  performance_type : option str;
  performance_start_time : option time
}.

(** The key [(p.performance_start_time is None, p.performance_start_time,
    p.performance_name or "")]. *)
Definition performance_key_leb (a b : PerformanceRow) : bool :=
  let name_leb :=
    seq_leb (or_default (performance_name a) []) (or_default (performance_name b) []) in
  match performance_start_time a, performance_start_time b with
  | Some x, Some y =>
      if bool_decide (time_key x = time_key y) then name_leb else time_leb x y
  | Some _, None => true
  | None, Some _ => false
  | None, None => name_leb
  end.

Definition performance_line (perf : PerformanceRow) : str :=
  let line := lit "- Παράσταση: " ++ or_default (performance_name perf) (lit "Άγνωστο Όνομα") in
  let line :=
    match nonempty (performance_location perf) with
    | Some l => line ++ lit ", Τοποθεσία: " ++ l
    | None => line
    end in
  let line :=
    match nonempty (performance_type perf) with
    | Some t => line ++ lit ", Είδος: " ++ t
    | None => line
    end in
  match performance_start_time perf with
  | Some t => line ++ lit ", Ώρα Έναρξης: " ++ strftime_HM t
  | None => line ++ lit ", Ώρα Έναρξης: Άγνωστη"
  end.

(** A result row is a tuple holding the entity; an empty tuple is
    skipped. *)
Definition performance_sections (performances : list (list PerformanceRow))
    : list (str * list PerformanceRow) :=
  let performances_by_date :=
    fold_left (fun groups perf_tuple =>
                 match perf_tuple with
                 | [] => groups
                 | perf :: _ =>
                     group_append (date_str_of (performance_date perf)) perf groups
                 end)
      performances [] in
  sorted_items performances_by_date.

Definition format_performances (performances : list (list PerformanceRow)) : str :=
  match performances with
  | [] => lit "Δεν βρέθηκαν παραστάσεις που να ταιριάζουν με τα κριτήριά σας."
  | _ =>
      let formatted_lines := [lit "Βρέθηκαν οι ακόλουθες παραστάσεις:"] in
      let formatted_lines :=
        fold_left
          (fun lines section =>
             let '(date_str, daily_performances) := section in
             lines ++ [header_line date_str]
             ++ List.map performance_line (sorted performance_key_leb daily_performances))
          (performance_sections performances) formatted_lines in
      str_join [10%N] formatted_lines
  end.

(** *** hospital_shifts_formatter.py *)

(** The shift times are declared as strings in the table and read as
    time objects by the formatter. *)
Inductive TimeField : Type :=
  | TimeObject (t : time)
  | TimeString (s : str).

Record HospitalShiftRow : Type := mkHospitalShift {
  hospital_shift_date : option date;
  hospital_name : option str;
  specialties : option str;
  hospital_shift_start_time : option TimeField;
  hospital_shift_end_time : option TimeField;
  address : option str;
  phone_number : option str
}.

(** if [field]: [time_parts.append(f"{label}{field.strftime('%H:%M')}")];
    a string has no [strftime]. *)
Definition append_time_part (label : str) (field : option TimeField)
    (time_parts : list str) : PyError + list str :=
  match field with
  | None => inr time_parts
  | Some (TimeObject t) => inr (time_parts ++ [label ++ strftime_HM t])
  | Some (TimeString s) => if truthy s then inl AttributeError else inr time_parts
  end.

Definition hospital_shift_line (shift : HospitalShiftRow) : PyError + str :=
  let line := lit "- Νοσοκομείο: " ++ or_default (hospital_name shift) (lit "Άγνωστο Όνομα") in
  match append_time_part (lit "Έναρξη: ") (hospital_shift_start_time shift) [] with
  | inl e => inl e
  | inr time_parts =>
      match append_time_part (lit "Λήξη: ") (hospital_shift_end_time shift) time_parts with
      | inl e => inl e
      | inr time_parts =>
          let line :=
            match time_parts with
            | [] => line
            | _ => line ++ lit " (" ++ str_join (lit ", ") time_parts ++ lit ")"
            end in
          let line :=
            match nonempty (specialties shift) with
            | Some sp => line ++ lit ", Ειδικότητες: " ++ str_join (lit ", ") (splitlines sp)
            | None => line
            end in
          let line :=
            match nonempty (address shift) with
            | Some a => line ++ lit ", Διεύθυνση: " ++ a
            | None => line
            end in
          let line :=
            match nonempty (phone_number shift) with
            | Some ph => line ++ lit ", Τηλέφωνο: " ++ ph
            | None => line
            end in
          inr line
      end
  end.

(** The lines of a list of rows, up to the first error. *)
Fixpoint lines_of {A} (render : A -> PyError + str) (rows : list A)
    : PyError + list str :=
  match rows with
  | [] => inr []
  | row :: rest =>
      match render row with
      | inl e => inl e
      | inr line =>
          match lines_of render rest with
          | inl e => inl e
          | inr lines => inr (line :: lines)
          end
      end
  end.

Definition hospital_shift_sections (shifts : list HospitalShiftRow)
    : list (str * list HospitalShiftRow) :=
  let shifts_by_date :=
    fold_left (fun groups shift =>
                 group_append (date_str_of (hospital_shift_date shift)) shift groups)
      shifts [] in
  sorted_items shifts_by_date.

Fixpoint hospital_section_lines (sections : list (str * list HospitalShiftRow))
    (formatted_lines : list str) : PyError + list str :=
  match sections with
  | [] => inr formatted_lines
  | (date_str, daily_shifts) :: rest =>
      let ordered :=
        sorted (fun a b => seq_leb (or_default (hospital_name a) [])
                             (or_default (hospital_name b) []))
          daily_shifts in
      match lines_of hospital_shift_line ordered with
      | inl e => inl e
      | inr lines =>
          hospital_section_lines rest (formatted_lines ++ [header_line date_str] ++ lines)
      end
  end.

Definition format_hospital_shifts (shifts : list HospitalShiftRow) : PyError + str :=
  match shifts with
  | [] => inr (lit "Δεν βρέθηκαν εφημερίες νοσοκομείων που να ταιριάζουν με τα κριτήριά σας.")
  | _ =>
      match hospital_section_lines (hospital_shift_sections shifts)
              [lit "Βρέθηκαν οι ακόλουθες εφημερίες νοσοκομείων:"] with
      | inl e => inl e
      | inr formatted_lines => inr (str_join [10%N] formatted_lines)
      end
  end.

(** *** screenings_formatter.py *)

(** A result row: the tuple of seven columns selected with times and
    halls, or the tuple of five columns selected without. *)
Inductive ScreeningTuple : Type :=
  | ScreeningRow (date_obj : option date) (time_obj : option time)
      (movie cinema hall genre : option str) (release_year : option Z)
  | ScreeningRowNoTime (date_obj : option date)
      (movie cinema genre : option str) (release_year : option Z).

(** What [grouped_screenings[date][cinema][movie]] holds: the list of
    (time, hall) pairs, or [True]. *)
Inductive MovieEntry : Type :=
  | Details (times : list (str * str))
  | Presence.

(** [d[key] = f(d.get(key))] on a dictionary in insertion order. *)
Fixpoint dict_upsert {K V} `{EqDecision K} (key : K) (f : option V -> V)
    (d : list (K * V)) : list (K * V) :=
  match d with
  | [] => [(key, f None)]
  | (k, v) :: rest =>
      if decide (k = key) then (k, f (Some v)) :: rest
      else (k, v) :: dict_upsert key f rest
  end.

Definition Grouped : Type :=
  list (str * list (option str * list (option str * MovieEntry))).

(** [grouped_screenings[date_str][cinema][movie] = entry(old)], the inner
    dictionaries being created on first access. *)
Definition grouped_update (date_str : str) (cinema movie : option str)
    (entry : option MovieEntry -> MovieEntry) (grouped : Grouped) : Grouped :=
  dict_upsert date_str
    (fun cinemas_data =>
       dict_upsert cinema
         (fun movies_data => dict_upsert movie entry (default [] movies_data))
         (default [] cinemas_data))
    grouped.

Definition append_details (x : str * str) (old : option MovieEntry) : MovieEntry :=
  match old with
  | Some (Details l) => Details (l ++ [x])
  | _ => Details [x]
  end.

(** One iteration of the loop over the rows; a tuple of the wrong length
    fails to unpack and is skipped. *)
Definition group_screening (halls_and_screening_times : bool)
    (grouped : Grouped) (row : ScreeningTuple) : Grouped :=
  match halls_and_screening_times, row with
  | true, ScreeningRow date_obj time_obj movie cinema hall _ _ =>
      let date_str := date_str_of date_obj in
      let time_str :=
        match time_obj with
        | Some t => strftime_HM t
        | None => lit "Άγνωστη Ώρα"
        end in
      let hall_str := or_default hall (lit "Άγνωστη Αίθουσα") in
      grouped_update date_str cinema movie (append_details (time_str, hall_str)) grouped
  | false, ScreeningRowNoTime date_obj movie cinema _ _ =>
      grouped_update (date_str_of date_obj) cinema movie (fun _ => Presence) grouped
  | _, _ => grouped
  end.

(** [sorted(d.items())] when a key may be [None]: comparing [None] with
    another key raises [TypeError]. *)
Definition sorted_optional_items {V} (items : list (option str * V))
    : PyError + list (option str * V) :=
  match items with
  | [] | [_] => inr items
  | _ =>
      if existsb (fun kv => negb (bool_decide (is_Some (fst kv)))) items
      then inl TypeError
      else inr (sorted (fun a b => seq_leb (default [] (fst a)) (default [] (fst b)))
                  items)
  end.

Definition movie_line (halls_and_screening_times : bool)
    (item : option str * MovieEntry) : PyError + str :=
  let '(movie, details_or_presence) := item in
  let movie_name_str := or_default movie (lit "Άγνωστη Ταινία") in
  if halls_and_screening_times then
    match details_or_presence with
    | Details details =>
        let sorted_details := sorted (fun a b => seq_leb (fst a) (fst b)) details in
        let times_str_parts :=
          List.map (fun th => fst th ++ lit " (" ++ snd th ++ lit ")") sorted_details in
        inr (lit "    - " ++ movie_name_str ++ lit ": "
             ++ str_join (lit ", ") times_str_parts)
    | Presence => inl TypeError
    end
  else inr (lit "    - " ++ movie_name_str).

Fixpoint cinema_lines (halls_and_screening_times : bool)
    (cinemas : list (option str * list (option str * MovieEntry)))
    : PyError + list str :=
  match cinemas with
  | [] => inr []
  | (cinema, movies_data) :: rest =>
      match sorted_optional_items movies_data with
      | inl e => inl e
      | inr movies =>
          match lines_of (movie_line halls_and_screening_times) movies with
          | inl e => inl e
          | inr lines =>
              match cinema_lines halls_and_screening_times rest with
              | inl e => inl e
              | inr more =>
                  inr ((lit "  Κινηματογράφος: " ++ or_default cinema (lit "Άγνωστος"))
                       :: lines ++ more)
              end
          end
      end
  end.

Fixpoint screening_section_lines (halls_and_screening_times : bool)
    (sections : Grouped) : PyError + list str :=
  match sections with
  | [] => inr []
  | (date_str, cinemas_data) :: rest =>
      match sorted_optional_items cinemas_data with
      | inl e => inl e
      | inr cinemas =>
          match cinema_lines halls_and_screening_times cinemas with
          | inl e => inl e
          | inr lines =>
              match screening_section_lines halls_and_screening_times rest with
              | inl e => inl e
              | inr more => inr (header_line date_str :: lines ++ more)
              end
          end
      end
  end.

Definition screening_sections (screenings : list ScreeningTuple)
    (halls_and_screening_times : bool) : Grouped :=
  sorted_items (fold_left (group_screening halls_and_screening_times) screenings []).

Definition format_screenings (screenings : list ScreeningTuple)
    (halls_and_screening_times : bool) : PyError + str :=
  match screenings with
  | [] => inr (lit "Δεν βρέθηκαν προβολές ταινιών που να ταιριάζουν με τα κριτήριά σας.")
  | _ =>
      match screening_section_lines halls_and_screening_times
              (screening_sections screenings halls_and_screening_times) with
      | inl e => inl e
      | inr lines =>
          inr (str_join [10%N] (lit "Βρέθηκαν οι ακόλουθες προβολές ταινιών:" :: lines))
      end
  end.

(** *** The order asked of the sections *)

(** The date a section header stands for, and the order of the calendar
    on the dates; a section of rows without date has no place in it. *)
Definition date_leb (a b : date) : bool :=
  seq_leb [year a; month a; day a] [year b; month b; day b].

Fixpoint ascending_dates (ds : list date) : bool :=
  match ds with
  | a :: (b :: _) as rest => date_leb a b && negb (bool_decide (a = b))
                             && ascending_dates rest
  | _ => true
  end.

(** Rows dated 15 January 2024 and 1 February 2024, one per formatter. *)
Definition jan_15 : date := mkDate 2024 1 15.
Definition feb_01 : date := mkDate 2024 2 1.

Definition outage_on (d : date) : OutageRow :=
  mkOutage (Some d) (Some (lit "power")) None None None None.
Definition performance_on (d : date) : list PerformanceRow :=
  [mkPerformance (Some d) (Some (lit "Recital")) None None None].
Definition shift_on (d : date) : HospitalShiftRow :=
  mkHospitalShift (Some d) (Some (lit "General")) None None None None None.
Definition screening_on (d : date) : ScreeningTuple :=
  ScreeningRowNoTime (Some d) (Some (lit "Film")) (Some (lit "Odeon")) None None.

End Formatters.
Export Formatters.

(** ** Positions in a batch *)

Module ExecutorSpec.
Import Executor.

(** The calls of a batch paired with their positions, from position [i]. *)
Fixpoint enumerate_from (i : nat) (l : list ToolCall) : list (nat * ToolCall) :=
  match l with
  | [] => []
  | c :: rest => (i, c) :: enumerate_from (S i) rest
  end.

End ExecutorSpec.

(** ** Texts of a clock time *)

Module ClockText.

(** [t.strftime("%H:%M:%S")], the text "HH:MM:SS" the time bounds of a
    hospital-shift query are asked in. *)
Definition strftime_HMS (h m s : N) : str :=
  two_digits h ++ [colon] ++ two_digits m ++ [colon] ++ two_digits s.

End ClockText.
Export ClockText.

(** ** What the sections of a formatted text are asked to be *)

Module FormatterSpec.

(** [sections] groups [rows] by [key]: no key twice; a section holds the
    rows of its key, all of them, in the order of [rows], and is not
    empty; every row's key has a section. *)
Definition grouped_by {A} (key : A -> str) (rows : list A)
    (sections : list (str * list A)) : Prop :=
  NoDup (List.map fst sections)
  /\ Forall (fun s => snd s <> [] /\ snd s = filter (fun r => key r = fst s) rows)
       sections
  /\ Forall (fun r => key r ∈ List.map fst sections) rows.

(** The entities of the result tuples that are not empty. *)
Definition performance_rows (performances : list (list PerformanceRow))
    : list PerformanceRow :=
  flat_map (fun perf_tuple => match perf_tuple with [] => [] | perf :: _ => [perf] end)
    performances.

(** A time field that holds a non-empty string. *)
Definition string_time (field : option TimeField) : bool :=
  match field with
  | Some (TimeString s) => truthy s
  | _ => false
  end.

Definition has_string_time (shift : HospitalShiftRow) : bool :=
  string_time (hospital_shift_start_time shift)
  || string_time (hospital_shift_end_time shift).

(** The order of dates by day, then month, then year. *)
Definition dmy_leb (a b : date) : bool :=
  seq_leb [day a; month a; year a] [day b; month b; year b].

(** A date of the calendar whose year has four digits. *)
Definition four_digit_year (d : date) : Prop :=
  make_date (year d) (month d) (day d) = Some d /\ (1000 <= year d)%N.

(** The tuple has the seven columns selected with times and halls. *)
Definition has_times (row : ScreeningTuple) : bool :=
  match row with
  | ScreeningRow _ _ _ _ _ _ _ => true
  | ScreeningRowNoTime _ _ _ _ _ => false
  end.

Definition screening_names (row : ScreeningTuple) : option str * option str :=
  match row with
  | ScreeningRow _ _ movie cinema _ _ _ => (cinema, movie)
  | ScreeningRowNoTime _ movie cinema _ _ => (cinema, movie)
  end.

(** The keys of the grouped screenings are names, and in detailed mode
    every movie holds its list of times. *)
Definition named_entry (halls_and_screening_times : bool)
    (item : option str * MovieEntry) : Prop :=
  is_Some (fst item)
  /\ (halls_and_screening_times = true -> exists details, snd item = Details details).

Definition named_cinema (halls_and_screening_times : bool)
    (item : option str * list (option str * MovieEntry)) : Prop :=
  is_Some (fst item) /\ Forall (named_entry halls_and_screening_times) (snd item).

Definition named_section (halls_and_screening_times : bool)
    (section : str * list (option str * list (option str * MovieEntry))) : Prop :=
  Forall (named_cinema halls_and_screening_times) (snd section).

End FormatterSpec.
Export FormatterSpec.

(* ===================================================================== *)
(** ** The tool registry and the history tool                             *)
(* ===================================================================== *)

(** app/tools/tool_registry.py, app/tools/formatters/tool_formatters.py and
    app/tools/statement_builders/thessaloniki_history_statement_builder.py *)
Module Registry.
Import Executor.

(** What a tool function returns: the rows read from the database, or
    the text of the history tool. *)
Inductive ToolOutput (Rows : Type) : Type :=
  | RowList (rows : Rows)
  | HistoryText (text : str).
Arguments RowList {Rows} rows.
Arguments HistoryText {Rows} text.

(** [len(x)] is defined on strings and lists. *)
Definition has_len (x : PyValue) : bool :=
  match x with
  | PyStr _ | PyStrList _ => true
  | PyNone | PyBool _ | PyInt _ => false
  end.

Definition msg_history_unavailable : str :=
  lit "Δεν ήταν δυνατή η ανάκτηση των ιστορικών πληροφοριών.".

Section WithDatabase.

Context {Db Rows exn : Type}.

(** The text of [app.tools.thessaloniki_history_data], and the
    [TypeError] of [len] on an object without length. *)
Variable THESSALONIKI_HISTORY_TEXT : str.
Variable TypeError_no_len : exn.

(** The four tool functions that query the database, the four formatters
    and the test [isinstance(e, Exception)]. *)
Variables run_cinemas run_performances run_outages run_hospital_shifts
  : gmap str PyValue -> Db -> (exn + ToolOutput Rows) * Db.
Variables format_outages format_performances format_hospital_shifts
  format_screenings : ToolOutput Rows -> option PyValue -> exn + str.
Variable is_Exception : exn -> bool.

(** [query_thessaloniki_history]: the first log line takes
    [len(search_query)], before the [try]; nothing inside the [try]
    raises. *)
Definition query_thessaloniki_history (search_query : PyValue)
    : exn + option str :=
  if negb (has_len search_query) then inl TypeError_no_len
  else
    let history_text := THESSALONIKI_HISTORY_TEXT in
    if negb (truthy history_text) then inr None
    else inr (Some history_text).

(** [run_history]: the database session is not used. *)
Definition run_history (params : gmap str PyValue) (db : Db)
    : (exn + ToolOutput Rows) * Db :=
  let search_query := default (PyStr []) (params !! lit "search_query") in
  match query_thessaloniki_history search_query with
  | inl e => (inl e, db)
  | inr None => (inr (HistoryText msg_history_unavailable), db)
  | inr (Some history_text) => (inr (HistoryText history_text), db)
  end.

Definition TOOL_REGISTRY
    : gmap str (gmap str PyValue -> Db -> (exn + ToolOutput Rows) * Db) :=
  <[lit "cinemas" := run_cinemas]>
  (<[lit "performances" := run_performances]>
   (<[lit "outages" := run_outages]>
    (<[lit "hospital_shifts" := run_hospital_shifts]>
     (<[lit "history" := run_history]> ∅)))).

Definition TOOL_FORMATTERS
    : gmap str (ToolOutput Rows -> option PyValue -> exn + str) :=
  <[lit "outages" := format_outages]>
  (<[lit "performances" := format_performances]>
   (<[lit "hospital_shifts" := format_hospital_shifts]>
    (<[lit "cinemas" := format_screenings]> ∅))).

(** The executor with the two dictionaries of the application. *)
Definition registry_env : ToolEnv Db (ToolOutput Rows) exn :=
  mkToolEnv Db (ToolOutput Rows) exn is_Exception TOOL_REGISTRY TOOL_FORMATTERS.

(** What the history tool answers. *)
Definition history_answer : str :=
  if truthy THESSALONIKI_HISTORY_TEXT then THESSALONIKI_HISTORY_TEXT
  else msg_history_unavailable.

End WithDatabase.

(** A registry for the examples: the database counts the statements
    executed and the rows are numbers. *)
Definition sample_registry_env : ToolEnv nat (ToolOutput (list nat)) str :=
  registry_env (lit "Η Θεσσαλονίκη ιδρύθηκε το 315 π.Χ.") (lit "TypeError")
    (fun _ d => (inr (RowList [d]), S d)) (fun _ d => (inr (RowList [d]), S d))
    (fun _ d => (inr (RowList [d]), S d)) (fun _ d => (inr (RowList [d]), S d))
    (fun _ _ => inr (lit "outages")) (fun _ _ => inr (lit "performances"))
    (fun _ _ => inr (lit "hospital shifts")) (fun _ _ => inr (lit "screenings"))
    (fun e => true).

End Registry.

(* ===================================================================== *)
(** ** The chat history kept in Redis                                     *)
(* ===================================================================== *)

(** app/memory/service.py *)
Module ChatMemory.

(** *** The Redis commands the service sends *)

(** The elements a pair of indexes denotes, as LRANGE and LTRIM read
    them: a negative index counts from the end, [stop] is included, and
    indexes out of range are clipped. *)
Definition redis_range {A} (l : list A) (start stop : Z) : list A :=
  let llen := Z.of_nat (length l) in
  let start := if (start <? 0)%Z then (llen + start)%Z else start in
  let stop := if (stop <? 0)%Z then (llen + stop)%Z else stop in
  let start := if (start <? 0)%Z then 0%Z else start in
  if ((stop <? start) || (llen <=? start))%Z then []
  else
    let stop := if (llen <=? stop)%Z then (llen - 1)%Z else stop in
    take (Z.to_nat (stop - start + 1)) (drop (Z.to_nat start) l).

(** The lists of the database and the time to live of their keys. *)
Record Redis : Type := mkRedis {
  lists : gmap str (list str);
  ttl : gmap str Z
}.

(** RPUSH key value *)
Definition rpush (key value : str) (r : Redis) : Redis :=
  mkRedis (<[key := default [] (lists r !! key) ++ [value]]> (lists r)) (ttl r).

(** LTRIM key start stop: a list left empty is removed with its key. *)
Definition ltrim (key : str) (start stop : Z) (r : Redis) : Redis :=
  match lists r !! key with
  | None => r
  | Some l =>
      match redis_range l start stop with
      | [] => mkRedis (delete key (lists r)) (delete key (ttl r))
      | kept => mkRedis (<[key := kept]> (lists r)) (ttl r)
      end
  end.

(** EXPIRE key seconds: nothing is set on a key that does not exist. *)
Definition expire (key : str) (seconds : Z) (r : Redis) : Redis :=
  match lists r !! key with
  | None => r
  | Some _ => mkRedis (lists r) (<[key := seconds]> (ttl r))
  end.

(** LRANGE key start stop *)
Definition lrange (key : str) (start stop : Z) (r : Redis) : list str :=
  redis_range (default [] (lists r !! key)) start stop.

(** *** The service *)

Inductive MessageType : Type := user | assistant.

(** The dictionary [{"type": ..., "message": ...}] of a history entry. *)
Record Message : Type := mkMessage { type : MessageType; message : str }.

Section WithSettings.

(** [settings.REDIS_HISTORY_KEY_PREFIX], [REDIS_MAX_HISTORY_LENGTH] and
    [REDIS_HISTORY_TTL]; [json.dumps] on an entry, and [json.loads] with
    [None] for its [JSONDecodeError]. *)
Variable REDIS_HISTORY_KEY_PREFIX : str.
Variable REDIS_MAX_HISTORY_LENGTH : Z.
Variable REDIS_HISTORY_TTL : Z.
Variable json_dumps : Message -> str.
Variable json_loads : str -> option Message.

Definition history_key (session_id : str) : str :=
  REDIS_HISTORY_KEY_PREFIX ++ session_id.

(** [add_chat_turn]: the four commands are queued in a MULTI/EXEC
    pipeline and applied together; when Redis cannot be reached
    ([connected] is false) the error is logged and nothing is stored. *)
Definition add_chat_turn (session_id user_message bot_message : str)
    (connected : bool) (r : Redis) : Redis :=
  let history_key := history_key session_id in
  let user_entry := json_dumps (mkMessage user user_message) in
  let bot_entry := json_dumps (mkMessage assistant bot_message) in
  if connected then
    let r := rpush history_key user_entry r in
    let r := rpush history_key bot_entry r in
    let r := ltrim history_key (- REDIS_MAX_HISTORY_LENGTH * 2) (-1) r in
    expire history_key REDIS_HISTORY_TTL r
  else r.

(** [[json.loads(entry) for entry in raw_history]] *)
Fixpoint loads_all (raw_history : list str) : option (list Message) :=
  match raw_history with
  | [] => Some []
  | entry :: rest =>
      match json_loads entry with
      | None => None
      | Some m =>
          match loads_all rest with
          | None => None
          | Some ms => Some (m :: ms)
          end
      end
  end.

(** [get_chat_history]: the empty list on a Redis error and on an entry
    that is not JSON. *)
Definition get_chat_history (session_id : str) (limit : Z)
    (connected : bool) (r : Redis) : list Message :=
  let history_key := history_key session_id in
  if connected then
    let raw_history := lrange history_key (- limit) (-1) r in
    match loads_all raw_history with
    | Some history => history
    | None => []
    end
  else [].

End WithSettings.

(** An encoding for the examples: the type as a letter, then the
    message. *)
Definition sample_dumps (m : Message) : str :=
  (match type m with user => 117%N | assistant => 97%N end) :: message m.

Definition sample_loads (s : str) : option Message :=
  match s with
  | 117%N :: text => Some (mkMessage user text)
  | 97%N :: text => Some (mkMessage assistant text)
  | _ => None
  end.

End ChatMemory.

(* ===================================================================== *)
(** ** Properties of the executor                                         *)
(* ===================================================================== *)

Module ExecutorFacts.
Import Executor.

Lemma filter_none {A} (P : A → Prop) `{!∀ x, Decision (P x)} (l : list A) :
  Forall (λ x, ¬ P x) l → filter P l = [].
Proof.
  induction 1 as [|x l Hx _ IH]; [done|]. by rewrite filter_cons_False.
Qed.

Section WithTools.

Context {Db Raw exn : Type}.
Variable env : ToolEnv Db Raw exn.

Lemma exec_loop_app i l1 l2 (st : ExecState Db Raw) :
  exec_loop env i (l1 ++ l2) st =
  match exec_loop env i l1 st with
  | Continue st' => exec_loop env (i + length l1) l2 st'
  | Abort e st' => Abort e st'
  end.
Proof.
  revert i st. induction l1 as [|c l1 IH]; intros i st; simpl.
  - by rewrite Nat.add_0_r.
  - destruct (loop_body env i c st) as [st'|e st']; [|done].
    rewrite IH. by replace (S i + length l1) with (i + S (length l1)) by lia.
Qed.

(** The state after an iteration does not depend on what the dictionary
    held under the call's name, nor on the position or the trace. *)
Lemma loop_body_result i c (st st2 : ExecState Db Raw) :
  loop_body env i c st = Continue st2 →
  ∃ v, all_tool_results st2 = <[name c := v]> (all_tool_results st)
       ∧ result_of_call env c (db st) = Some v.
Proof.
  unfold result_of_call, loop_body. simpl.
  destruct (TOOL_REGISTRY env !! name c) as [f|]; simpl.
  - destruct (f (model_dump_exclude_name c) (db st)) as [[e|raw] d']; simpl.
    { destruct (is_Exception env e); discriminate. }
    destruct (TOOL_FORMATTERS env !! name c) as [fm|]; simpl.
    + destruct (call_formatter fm _ _ raw) as [fe|txt]; simpl.
      * destruct (is_Exception env fe); [|discriminate].
        intros [= <-]. simpl. eexists; split; [done|]. by rewrite lookup_insert_eq.
      * intros [= <-]. simpl. eexists; split; [done|]. by rewrite lookup_insert_eq.
    + intros [= <-]. simpl. eexists; split; [done|]. by rewrite lookup_insert_eq.
  - intros [= <-]. simpl. eexists; split; [done|]. by rewrite lookup_insert_eq.
Qed.

Lemma loop_body_other i c (st st2 : ExecState Db Raw) n :
  loop_body env i c st = Continue st2 → name c ≠ n →
  all_tool_results st2 !! n = all_tool_results st !! n.
Proof.
  intros H Hn. destruct (loop_body_result _ _ _ _ H) as (v & -> & _).
  by rewrite lookup_insert_ne.
Qed.

Lemma exec_loop_other i l (st st' : ExecState Db Raw) n :
  exec_loop env i l st = Continue st' →
  Forall (λ c, name c ≠ n) l →
  all_tool_results st' !! n = all_tool_results st !! n.
Proof.
  revert i st. induction l as [|c l IH]; intros i st; simpl.
  - by intros [= <-].
  - destruct (loop_body env i c st) as [st1|e st1] eqn:Hb; [|done].
    intros Hl Hall. apply Forall_cons in Hall as [Hc Hall].
    rewrite (IH _ _ Hl Hall). by eapply loop_body_other.
Qed.

(** The trace grows by the calls of the batch that are in the registry,
    in order, each tagged with a position of the part just run. *)
Lemma loop_body_awaited i c (st : ExecState Db Raw) :
  ∃ new, fresh_in i 1 new ∧
    match loop_body env i c st with
    | Continue st' => awaited st' = awaited st ++ new
                      ∧ new.*2 = filter (λ c', registered env c') [c]
    | Abort _ st' => awaited st' = awaited st ++ new
    end.
Proof.
  unfold loop_body, registered, fresh_in. simpl.
  destruct (TOOL_REGISTRY env !! name c) as [f|] eqn:Hreg; simpl.
  - exists [(i, c)]. split; [repeat constructor; simpl; lia|].
    assert (filter (λ c', bool_decide (is_Some (TOOL_REGISTRY env !! name c'))) [c]
            = [c]) as Hf.
    { rewrite filter_cons_True; [done|]. apply bool_decide_pack. by rewrite Hreg. }
    destruct (f (model_dump_exclude_name c) (db st)) as [[e|raw] d']; simpl.
    { by destruct (is_Exception env e). }
    destruct (TOOL_FORMATTERS env !! name c) as [fm|]; simpl; [|by rewrite Hf].
    destruct (call_formatter fm _ _ raw) as [fe|txt]; simpl; [|by rewrite Hf].
    destruct (is_Exception env fe); simpl; by rewrite ?Hf.
  - exists []. split; [constructor|]. rewrite app_nil_r. split; [done|].
    rewrite filter_cons_False; [done|].
    intros H. apply bool_decide_unpack in H. rewrite Hreg in H. by destruct H.
Qed.

Lemma exec_loop_awaited i l (st : ExecState Db Raw) :
  ∃ new, fresh_in i (length l) new ∧
    match exec_loop env i l st with
    | Continue st' => awaited st' = awaited st ++ new
                      ∧ new.*2 = filter (λ c', registered env c') l
    | Abort _ st' => awaited st' = awaited st ++ new
    end.
Proof.
  revert i st. induction l as [|c l IH]; intros i st; simpl.
  - exists []. split; [constructor|]. by rewrite app_nil_r.
  - destruct (loop_body_awaited i c st) as (n1 & Hn1 & Hb).
    destruct (loop_body env i c st) as [st1|e st1].
    + destruct Hb as [Ha Hf]. destruct (IH (S i) st1) as (n2 & Hn2 & Hl).
      exists (n1 ++ n2). split.
      { apply Forall_app. split; (eapply Forall_impl; [eassumption|]);
          simpl; intros; lia. }
      destruct (exec_loop env (S i) l st1) as [st2|e st2].
      * destruct Hl as [Ha2 Hf2]. rewrite Ha2, Ha, <- app_assoc. split; [done|].
        rewrite fmap_app, Hf, Hf2.
        by rewrite <- (filter_app _ [c] l).
      * by rewrite Hl, Ha, <- app_assoc.
    + exists n1. split; [|done].
      eapply Forall_impl; [eassumption|]. simpl; intros; lia.
Qed.

(** C2. When the invocation at position K raises while its query is
    executed (the invocations before it having completed), no invocation
    after K is attempted, the exception reaches the caller in place of a
    result dictionary, and the transaction is rolled back. *)
Theorem execution_failure_aborts_batch
    (pre post : list ToolCall) (c : ToolCall) (d : Db) st1 tool_func e d' :
  exec_loop env 0 pre (mkExecState ∅ d []) = Continue st1 →
  TOOL_REGISTRY env !! name c = Some tool_func →
  tool_func (model_dump_exclude_name c) (db st1) = (inl e, d') →
  let r := execute_tools_sequentially env (pre ++ c :: post) d in
  outcome r = Raised e
  ∧ transaction r = RolledBack
  ∧ calls_awaited r = awaited st1 ++ [(length pre, c)]
  ∧ Forall (λ p, p.1 ≤ length pre) (calls_awaited r).
Proof.
  intros Hpre Hreg Hf r.
  assert (∃ st', exec_loop env 0 (pre ++ c :: post) (mkExecState ∅ d []) = Abort e st'
                 ∧ awaited st' = awaited st1 ++ [(length pre, c)]) as (st' & Hrun & Haw).
  { rewrite exec_loop_app, Hpre. simpl. unfold loop_body. simpl. rewrite Hreg. simpl.
    rewrite Hf. destruct (is_Exception env e); eexists; split; done. }
  subst r. unfold execute_tools_sequentially. rewrite Hrun. simpl.
  repeat split; [done|]. rewrite Haw.
  destruct (exec_loop_awaited 0 pre (mkExecState ∅ d [])) as (new & Hnew & Hl).
  rewrite Hpre in Hl. destruct Hl as [-> _]. simpl.
  apply Forall_app. split.
  - eapply Forall_impl; [exact Hnew|]. simpl. intros; lia.
  - repeat constructor.
Qed.

(** Two states that differ only by the entry of a tool missing from the
    registry (and by the positions recorded in the trace). *)
Lemma loop_body_sim n i j c (st st0 : ExecState Db Raw) :
  TOOL_REGISTRY env !! n = None →
  let err := ErrorPayload (msg_not_available n) in
  all_tool_results st = <[n := err]> (all_tool_results st0) →
  db st = db st0 → (awaited st).*2 = (awaited st0).*2 →
  match loop_body env i c st, loop_body env j c st0 with
  | Continue a, Continue b =>
      all_tool_results a = <[n := err]> (all_tool_results b)
      ∧ db a = db b ∧ (awaited a).*2 = (awaited b).*2
  | Abort e a, Abort e0 b => e = e0 ∧ db a = db b ∧ (awaited a).*2 = (awaited b).*2
  | _, _ => False
  end.
Proof.
  intros Hn err Hres Hdb Haw. unfold loop_body. simpl.
  destruct (TOOL_REGISTRY env !! name c) as [f|] eqn:Hreg; simpl.
  - assert (name c ≠ n) as Hne by (intros Heq; rewrite Heq in Hreg; congruence).
    rewrite Hdb.
    assert ((awaited st ++ [(i, c)]).*2 = (awaited st0 ++ [(j, c)]).*2) as Haw'.
    { by rewrite !fmap_app, Haw. }
    assert (∀ v, <[name c := v]> (all_tool_results st)
                 = <[n := err]> (<[name c := v]> (all_tool_results st0))) as Hins.
    { intros v. rewrite Hres. by apply insert_insert_ne. }
    destruct (f (model_dump_exclude_name c) (db st0)) as [[e|raw] d']; simpl.
    { destruct (is_Exception env e); simpl; done. }
    destruct (TOOL_FORMATTERS env !! name c) as [fm|]; simpl; [|done].
    destruct (call_formatter fm _ _ raw) as [fe|txt]; simpl; [|done].
    destruct (is_Exception env fe); simpl; done.
  - simpl. repeat split; [|done..].
    rewrite Hres. destruct (decide (name c = n)) as [Heq|Hne].
    + rewrite Heq. by rewrite !insert_insert_eq.
    + by apply insert_insert_ne.
Qed.

Lemma exec_loop_sim n l : ∀ i j (st st0 : ExecState Db Raw),
  TOOL_REGISTRY env !! n = None →
  let err := ErrorPayload (msg_not_available n) in
  all_tool_results st = <[n := err]> (all_tool_results st0) →
  db st = db st0 → (awaited st).*2 = (awaited st0).*2 →
  match exec_loop env i l st, exec_loop env j l st0 with
  | Continue a, Continue b =>
      all_tool_results a = <[n := err]> (all_tool_results b)
      ∧ db a = db b ∧ (awaited a).*2 = (awaited b).*2
  | Abort e a, Abort e0 b => e = e0 ∧ db a = db b ∧ (awaited a).*2 = (awaited b).*2
  | _, _ => False
  end.
Proof.
  induction l as [|c l IH]; intros i j st st0 Hn err Hres Hdb Haw; simpl; [done|].
  pose proof (loop_body_sim n i j c st st0 Hn Hres Hdb Haw) as Hb.
  destruct (loop_body env i c st) as [a|e a], (loop_body env j c st0) as [b|e0 b];
    try done.
  destruct Hb as (? & ? & ?). by apply IH.
Qed.

(** An iteration on a registered tool that falls through: the tool
    function returned its rows, and what is stored under the name is
    their formatted text, the error entry of a formatter that failed, or
    the rows themselves when the tool has no formatter. *)
Lemma loop_body_registered i c (st st2 : ExecState Db Raw) tool_func :
  TOOL_REGISTRY env !! name c = Some tool_func →
  loop_body env i c st = Continue st2 →
  ∃ raw_results d',
    tool_func (model_dump_exclude_name c) (db st) = (inr raw_results, d')
    ∧ all_tool_results st2
      = <[name c :=
            match TOOL_FORMATTERS env !! name c with
            | Some formatter =>
                match call_formatter formatter (name c)
                        (model_dump_exclude_name c) raw_results with
                | inr formatted_results => Formatted formatted_results
                | inl _ => ErrorPayload (msg_failed_to_format (name c))
                end
            | None => RawResults raw_results
            end]> (all_tool_results st).
Proof.
  intros Hreg. unfold loop_body. simpl. rewrite Hreg.
  destruct (tool_func (model_dump_exclude_name c) (db st)) as [[e|raw] d']; simpl.
  { destruct (is_Exception env e); discriminate. }
  intros Hst2. exists raw, d'. split; [done|]. revert Hst2.
  destruct (TOOL_FORMATTERS env !! name c) as [fm|]; simpl.
  - destruct (call_formatter fm _ _ raw) as [fe|txt]; simpl.
    + destruct (is_Exception env fe); [|discriminate].
      by intros [= <-].
    + by intros [= <-].
  - by intros [= <-].
Qed.

Lemma exec_loop_split i l1 c l2 (st st3 : ExecState Db Raw) :
  exec_loop env i (l1 ++ c :: l2) st = Continue st3 →
  ∃ st1 st2,
    exec_loop env i l1 st = Continue st1
    ∧ loop_body env (i + length l1) c st1 = Continue st2
    ∧ exec_loop env (S (i + length l1)) l2 st2 = Continue st3.
Proof.
  rewrite exec_loop_app. simpl.
  destruct (exec_loop env i l1 st) as [st1|e st1]; [|done].
  destruct (loop_body env (i + length l1) c st1) as [st2|e st2] eqn:Hb; [|done].
  intros Hl. by exists st1, st2.
Qed.

(** When a batch returns, the entry of a registered tool is what its
    last invocation stored: the tool function was applied to the database
    state the calls before it had left, it returned its rows, and the
    dictionary holds them formatted (or the error entry of the formatter,
    or the rows themselves). *)
Lemma returned_results_of_registered_calls (batch : list ToolCall) (d : Db) M :
  outcome (execute_tools_sequentially env batch d) = Returned M →
  ∀ l1 c' l2 tool_func,
    batch = l1 ++ c' :: l2 →
    TOOL_REGISTRY env !! name c' = Some tool_func →
    Forall (λ c'', name c'' ≠ name c') l2 →
    ∃ st' raw_results d',
      exec_loop env 0 l1 (mkExecState ∅ d []) = Continue st'
      ∧ tool_func (model_dump_exclude_name c') (db st') = (inr raw_results, d')
      ∧ M !! name c'
        = Some match TOOL_FORMATTERS env !! name c' with
               | Some formatter =>
                   match call_formatter formatter (name c')
                           (model_dump_exclude_name c') raw_results with
                   | inr formatted_results => Formatted formatted_results
                   | inl _ => ErrorPayload (msg_failed_to_format (name c'))
                   end
               | None => RawResults raw_results
               end.
Proof.
  unfold execute_tools_sequentially.
  destruct (exec_loop env 0 batch _) as [st3|e st3] eqn:Hrun; simpl; [|done].
  intros [= <-] l1 c' l2 tool_func -> Hreg Hlater.
  destruct (exec_loop_split _ _ _ _ _ _ Hrun) as (st1 & st2 & Hl1 & Hb & Hl2).
  destruct (loop_body_registered _ _ _ _ _ Hreg Hb) as (raw & d' & Hf & Hres).
  exists st1, raw, d'. split; [done|]. split; [done|].
  rewrite (exec_loop_other _ _ _ _ _ Hl2 Hlater), Hres.
  by rewrite lookup_insert_eq.
Qed.

(** The error entry of a tool that is not registered stays: a later
    invocation under that name stores the same entry again. *)
Lemma exec_loop_keeps_missing_entry n l i (st st' : ExecState Db Raw) :
  TOOL_REGISTRY env !! n = None →
  exec_loop env i l st = Continue st' →
  all_tool_results st !! n = Some (ErrorPayload (msg_not_available n)) →
  all_tool_results st' !! n = Some (ErrorPayload (msg_not_available n)).
Proof.
  intros Hn. revert i st. induction l as [|c l IH]; intros i st; simpl.
  { by intros [= <-]. }
  destruct (loop_body env i c st) as [st1|e st1] eqn:Hb; [|done].
  intros Hl Hst. apply (IH _ _ Hl).
  destruct (decide (name c = n)) as [<-|Hne].
  - revert Hb. unfold loop_body. simpl. rewrite Hn. intros [= <-]. simpl.
    by rewrite lookup_insert_eq.
  - by rewrite (loop_body_other _ _ _ _ _ Hb Hne).
Qed.

(** When a batch returns, every invocation of a tool that is not in the
    registry has its error entry in the dictionary. *)
Lemma returned_entries_of_missing_tools (batch : list ToolCall) (d : Db) M :
  outcome (execute_tools_sequentially env batch d) = Returned M →
  ∀ c', c' ∈ batch →
    TOOL_REGISTRY env !! name c' = None →
    M !! name c' = Some (ErrorPayload (msg_not_available (name c'))).
Proof.
  unfold execute_tools_sequentially.
  destruct (exec_loop env 0 batch _) as [st3|e st3] eqn:Hrun; simpl; [|done].
  intros [= <-] c' Hin Hn.
  apply list_elem_of_split in Hin as (l1 & l2 & ->).
  destruct (exec_loop_split _ _ _ _ _ _ Hrun) as (st1 & st2 & Hl1 & Hb & Hl2).
  apply (exec_loop_keeps_missing_entry _ _ _ _ _ Hn Hl2).
  revert Hb. unfold loop_body. simpl. rewrite Hn. intros [= <-]. simpl.
  by rewrite lookup_insert_eq.
Qed.

(** The batch with a missing tool against the batch without it. *)
Lemma missing_tool_is_transparent
    (pre post : list ToolCall) (c : ToolCall) (d : Db) :
  TOOL_REGISTRY env !! name c = None →
  let err := ErrorPayload (msg_not_available (name c)) in
  let r := execute_tools_sequentially env (pre ++ c :: post) d in
  let r0 := execute_tools_sequentially env (pre ++ post) d in
  (calls_awaited r).*2 = (calls_awaited r0).*2
  ∧ final_db r = final_db r0
  ∧ match outcome r0 with
    | Returned M0 =>
        outcome r = Returned (<[name c := err]> M0)
        ∧ transaction r = Committed
        ∧ (calls_awaited r).*2 = filter (λ c', registered env c') (pre ++ post)
    | Raised e => outcome r = Raised e ∧ transaction r = RolledBack
    end.
Proof.
  intros Hn err r r0. subst r r0. unfold execute_tools_sequentially.
  pose proof (exec_loop_awaited 0 (pre ++ post) (mkExecState ∅ d [])) as (new & _ & Htr).
  rewrite !exec_loop_app in *. simpl in *.
  destruct (exec_loop env 0 pre (mkExecState ∅ d [])) as [st1|e st1] eqn:Hpre;
    [|simpl; done].
  assert (loop_body env (length pre) c st1
          = Continue (set_result (name c) err st1)) as ->.
  { unfold loop_body. simpl. by rewrite Hn. }
  pose proof (exec_loop_sim (name c) post (S (length pre)) (length pre)
                (set_result (name c) err st1) st1 Hn) as Hsim.
  simpl in Hsim. specialize (Hsim eq_refl eq_refl eq_refl).
  destruct (exec_loop env (S (length pre)) post _) as [a|e a],
           (exec_loop env (length pre) post st1) as [b|e0 b]; try done; simpl.
  - destruct Hsim as (Hres & Hdb & Haw). destruct Htr as [Hb Hf].
    repeat split; try done.
    + by rewrite Hres.
    + rewrite Haw, Hb. simpl. done.
  - destruct Hsim as (-> & Hdb & Haw). done.
Qed.

(** C7, as the code has it.  An invocation whose tool is not in the
    registry never aborts the batch: the batch runs as the batch without
    it (the same tool functions are called on the same database states)
    and its error entry is recorded.  When the other invocations run to
    completion the dictionary is returned and the transaction committed;
    every invocation of a registered tool was executed, the dictionary
    holds the error entry under the name of every tool of the batch that
    is not registered and, under the name of every registered tool of
    the batch, the result of its last invocation: what its tool function
    returned on the database state reached, formatted.  When another invocation raises, the batch is
    aborted with that exception, as for any batch. *)
Theorem missing_tool_does_not_abort
    (pre post : list ToolCall) (c : ToolCall) (d : Db) :
  TOOL_REGISTRY env !! name c = None →
  let err := ErrorPayload (msg_not_available (name c)) in
  let r := execute_tools_sequentially env (pre ++ c :: post) d in
  let r0 := execute_tools_sequentially env (pre ++ post) d in
  (calls_awaited r).*2 = (calls_awaited r0).*2
  ∧ final_db r = final_db r0
  ∧ match outcome r0 with
    | Returned M0 =>
        let M := <[name c := err]> M0 in
        outcome r = Returned M
        ∧ transaction r = Committed
        ∧ (calls_awaited r).*2 = filter (λ c', registered env c') (pre ++ post)
        ∧ M !! name c = Some err
        ∧ (∀ c', c' ∈ pre ++ c :: post →
             TOOL_REGISTRY env !! name c' = None →
             M !! name c' = Some (ErrorPayload (msg_not_available (name c'))))
        ∧ ∀ l1 c' l2 tool_func,
            pre ++ c :: post = l1 ++ c' :: l2 →
            TOOL_REGISTRY env !! name c' = Some tool_func →
            Forall (λ c'', name c'' ≠ name c') l2 →
            ∃ st' raw_results d',
              exec_loop env 0 l1 (mkExecState ∅ d []) = Continue st'
              ∧ tool_func (model_dump_exclude_name c') (db st')
                = (inr raw_results, d')
              ∧ M !! name c'
                = Some match TOOL_FORMATTERS env !! name c' with
                       | Some formatter =>
                           match call_formatter formatter (name c')
                                   (model_dump_exclude_name c') raw_results with
                           | inr formatted_results => Formatted formatted_results
                           | inl _ => ErrorPayload (msg_failed_to_format (name c'))
                           end
                       | None => RawResults raw_results
                       end
    | Raised e => outcome r = Raised e ∧ transaction r = RolledBack
    end.
Proof.
  intros Hn err r r0.
  destruct (missing_tool_is_transparent pre post c d Hn) as (Haw & Hdb & Hout).
  fold err r r0 in Haw, Hdb, Hout.
  split; [exact Haw|]. split; [exact Hdb|].
  destruct (outcome r0) as [M0|e]; [|exact Hout].
  destruct Hout as (Hret & Htx & Hall). intros M.
  split; [exact Hret|]. split; [exact Htx|]. split; [exact Hall|].
  split; [apply lookup_insert_eq|].
  split; [apply (returned_entries_of_missing_tools (pre ++ c :: post) d M Hret)|].
  apply (returned_results_of_registered_calls (pre ++ c :: post) d M Hret).
Qed.


End WithTools.

(** The fixture of the unit tests: the second of three tools fails. *)
Lemma execution_failure_aborts_batch_witness :
  let r := execute_tools_sequentially sample_env
             ([call_of "outages"] ++ call_of "cinemas" :: [call_of "performances"]) 0 in
  outcome r = Raised (lit "Tool execution failed")
  ∧ transaction r = RolledBack
  ∧ calls_awaited r = [(0, call_of "outages")] ++ [(1, call_of "cinemas")]
  ∧ Forall (λ p, p.1 ≤ 1) (calls_awaited r).
Proof.
  eapply (execution_failure_aborts_batch sample_env [call_of "outages"]
            [call_of "performances"] (call_of "cinemas") 0
            (mkExecState _ 1 [(0, call_of "outages")])
            (fun _ d => (inl (lit "Tool execution failed"), S d))
            (lit "Tool execution failed") 2).
  - vm_compute. reflexivity.
  - vm_compute. reflexivity.
  - reflexivity.
Defined.

(** The unit test of the missing tool, with one more invocation after it. *)
Lemma missing_tool_does_not_abort_witness :
  TOOL_REGISTRY sample_env !! name (call_of "tool_missing") = None
  ∧ let c := call_of "tool_missing" in
    let pre := [call_of "outages"] in
    let post := [call_of "history"] in
    let err := ErrorPayload (msg_not_available (name c)) in
    let r := execute_tools_sequentially sample_env (pre ++ c :: post) 0 in
    let r0 := execute_tools_sequentially sample_env (pre ++ post) 0 in
    (calls_awaited r).*2 = (calls_awaited r0).*2
    ∧ final_db r = final_db r0
    ∧ match outcome r0 with
      | Returned M0 =>
          let M := <[name c := err]> M0 in
          outcome r = Returned M
          ∧ transaction r = Committed
          ∧ (calls_awaited r).*2
            = filter (λ c', registered sample_env c') (pre ++ post)
          ∧ M !! name c = Some err
          ∧ (∀ c', c' ∈ pre ++ c :: post →
               TOOL_REGISTRY sample_env !! name c' = None →
               M !! name c' = Some (ErrorPayload (msg_not_available (name c'))))
          ∧ ∀ l1 c' l2 tool_func,
              pre ++ c :: post = l1 ++ c' :: l2 →
              TOOL_REGISTRY sample_env !! name c' = Some tool_func →
              Forall (λ c'', name c'' ≠ name c') l2 →
              ∃ st' raw_results d',
                exec_loop sample_env 0 l1 (mkExecState ∅ 0 []) = Continue st'
                ∧ tool_func (model_dump_exclude_name c') (db st')
                  = (inr raw_results, d')
                ∧ M !! name c'
                  = Some match TOOL_FORMATTERS sample_env !! name c' with
                         | Some formatter =>
                             match call_formatter formatter (name c')
                                     (model_dump_exclude_name c') raw_results with
                             | inr formatted_results => Formatted formatted_results
                             | inl _ => ErrorPayload (msg_failed_to_format (name c'))
                             end
                         | None => RawResults raw_results
                         end
      | Raised e => outcome r = Raised e ∧ transaction r = RolledBack
      end.
Proof.
  assert (TOOL_REGISTRY sample_env !! name (call_of "tool_missing") = None) as H
    by (vm_compute; reflexivity).
  split; [exact H|].
  exact (missing_tool_does_not_abort sample_env [call_of "outages"]
           [call_of "history"] (call_of "tool_missing") 0 H).
Defined.

(** C7, the claim as written.  A batch with a missing tool is aborted
    like any other when the tool function of another invocation raises:
    no dictionary is returned, the transaction is rolled back and the
    invocation after the failing one is never executed. *)
Lemma missing_tool_batch_is_aborted_by_a_failing_tool :
  let batch := [call_of "tool_missing"; call_of "cinemas"; call_of "performances"] in
  let r := execute_tools_sequentially sample_env batch 0 in
  TOOL_REGISTRY sample_env !! name (call_of "tool_missing") = None
  ∧ registered sample_env (call_of "performances") = true
  ∧ outcome r = Raised (lit "Tool execution failed")
  ∧ transaction r = RolledBack
  ∧ calls_awaited r = [(1, call_of "cinemas")].
Proof. vm_compute. repeat split; reflexivity. Qed.


End ExecutorFacts.

(* ===================================================================== *)
(** ** Properties of the date parser                                      *)
(* ===================================================================== *)

Module DateTimeFacts.

Section WithUnicode.

Context {U : UnicodeData} {F : UnicodeFacts U}.

Lemma re_digit_ascii (k : N) (r : str) :
  (k < 10)%N -> re_digit ((48 + k)%N :: r) = Some (k, r).
Proof.
  intros Hk. unfold re_digit. rewrite decimal_ascii by lia.
  by replace (48 + k - 48)%N with k by lia.
Qed.

Lemma re_char_cons (ch : N) (r : str) : re_char ch (ch :: r) = Some (0%N, r).
Proof. unfold re_char. by rewrite N.eqb_refl. Qed.

Lemma re_Y_four_digits (y : N) (r : str) :
  (y <= 9999)%N -> re_Y (four_digits y ++ r) = Some (y, r).
Proof.
  intros Hy. unfold re_Y, re_pair, four_digits. cbn [app].
  assert (y / 1000 < 10)%N by (apply N.Div0.div_lt_upper_bound; lia).
  rewrite !re_digit_ascii by (try done; by apply N.mod_lt).
  do 2 f_equal.
  assert (y / 10 / 10 = y / 100)%N as E2 by (by rewrite N.Div0.div_div).
  assert (y / 100 / 10 = y / 1000)%N as E3 by (by rewrite N.Div0.div_div).
  pose proof (N.div_mod y 10 ltac:(done)) as H1.
  pose proof (N.div_mod (y / 10) 10 ltac:(done)) as H2.
  pose proof (N.div_mod (y / 100) 10 ltac:(done)) as H3.
  rewrite E2 in H2. rewrite E3 in H3. lia.
Qed.

Lemma re_m_two_digits {A} (m : N) (k : N -> str -> option A) (r : str) (a : A) :
  (1 <= m <= 12)%N -> k m r = Some a ->
  re_alt re_m k (two_digits m ++ r) = Some a.
Proof.
  intros Hm Hk.
  assert (m ∈ [1; 2; 3; 4; 5; 6; 7; 8; 9; 10; 11; 12]%N) as Hin.
  { apply list_elem_of_In. simpl. lia. }
  repeat (apply elem_of_cons in Hin as [-> | Hin];
          [vm_compute; vm_compute in Hk; by rewrite Hk |]).
  by apply elem_of_nil in Hin.
Qed.

Lemma re_d_two_digits {A} (d : N) (f : N -> str -> A) :
  (1 <= d <= 31)%N ->
  re_alt re_d (fun d r => Some (f d r)) (two_digits d) = Some (f d []).
Proof.
  intros Hd.
  assert (d ∈ [1; 2; 3; 4; 5; 6; 7; 8; 9; 10; 11; 12; 13; 14; 15; 16; 17; 18; 19;
               20; 21; 22; 23; 24; 25; 26; 27; 28; 29; 30; 31]%N) as Hin.
  { apply list_elem_of_In. simpl. lia. }
  pose proof decimal_ascii as Hdec. clear Hd.
  destruct U as [nfc nfd mn low dec]. simpl in Hdec. clear F.
  repeat (apply elem_of_cons in Hin as [-> | Hin];
          [vm_compute; rewrite ?Hdec by lia; reflexivity |]).
  by apply elem_of_nil in Hin.
Qed.

(** The text "YYYY-MM-DD" of a date parses to that date. *)
Lemma strptime_date_isoformat (d : date) :
  make_date (year d) (month d) (day d) = Some d ->
  strptime_date (isoformat d) = Some d.
Proof.
  intros Hd. unfold strptime_date, match_Ymd, isoformat.
  assert ((1 <= year d <= 9999) /\ (1 <= month d <= 12)
          /\ (1 <= day d <= 31))%N as (Hy & Hm & Hday).
  { unfold make_date in Hd.
    destruct (_ && _) eqn:E in Hd; [|done].
    repeat (apply andb_prop in E as [E ?]).
    repeat match goal with H : (_ <=? _)%N = true |- _ => apply N.leb_le in H end.
    assert (days_in_month (year d) (month d) <= 31)%N.
    { unfold days_in_month. repeat case_match; lia. }
    lia. }
  rewrite re_Y_four_digits by lia. cbn [app]. rewrite re_char_cons.
  match goal with
  | |- context [re_alt re_m ?k _] =>
      rewrite (re_m_two_digits (month d) k (hyphen :: two_digits (day d))
                 (year d, month d, day d, [])); [done..|]
  end.
  cbn beta. rewrite re_char_cons.
  by rewrite (re_d_two_digits (day d) (fun d0 r0 => (year d, month d, d0, r0))).
Qed.

End WithUnicode.

End DateTimeFacts.

(* ===================================================================== *)
(** ** Properties of the filter builders and assemblers                   *)
(* ===================================================================== *)

Module BuilderFacts.

Section WithContext.

Context {U : UnicodeData} {S : Settings}.

Lemma date_loop_spec (dates : list str) : forall valid_dates has_attempted_dates,
  date_loop dates valid_dates has_attempted_dates
  = (valid_dates ++ parsed_dates dates,
     has_attempted_dates || negb (bool_decide (attempted_entries dates = []))).
Proof.
  unfold parsed_dates, attempted_entries.
  induction dates as [|date_str rest IH]; intros vd flag; simpl.
  - by rewrite app_nil_r, orb_false_r.
  - destruct (str_eqb date_str wildcard || negb (truthy date_str)); simpl; [apply IH|].
    destruct (strptime_date date_str) as [d|]; rewrite IH; simpl.
    + by rewrite <- app_assoc, orb_true_r.
    + by rewrite orb_true_r.
Qed.

(** What a date builder returns, in terms of the entries it attempted. *)
Lemma date_filter_result_spec (column : Column) (dates : list str) :
  date_filter_result column (date_loop dates [] false)
  = match parsed_dates dates with
    | _ :: _ => Some (In_ column (parsed_dates dates))
    | [] => if bool_decide (attempted_entries dates = []) then None else Some False_
    end.
Proof.
  rewrite date_loop_spec. simpl.
  destruct (parsed_dates dates); simpl; [|done].
  by destruct (bool_decide (attempted_entries dates = [])).
Qed.

Lemma attempted_wildcard_only : attempted_entries [wildcard] = [].
Proof. reflexivity. Qed.

(** Each date builder is the shared loop behind the wildcard test. *)
Lemma date_builders_spec :
  Forall (fun bc : (list str -> option ColumnElement) * Column =>
            forall dates,
              fst bc dates
              = match parsed_dates dates with
                | _ :: _ => Some (In_ (snd bc) (parsed_dates dates))
                | [] => if bool_decide (attempted_entries dates = [])
                        then None else Some False_
                end)
    date_filter_builders.
Proof.
  repeat constructor; simpl; intros dates;
    (unfold _build_outage_date_filter, _build_screening_date_filter,
       _build_hospital_shift_date_filter, _build_performance_date_filter;
     case_bool_decide as Hw; [by subst dates | apply date_filter_result_spec]).
Qed.

(** C3. A date builder given a list other than [["*"]] parses every entry
    that is neither the wildcard nor empty and skips those that do not
    parse; when entries were attempted and none parsed it returns the
    always-false predicate, and when some parsed it returns the IN
    predicate over exactly the parsed dates. *)
Theorem date_filter_parses_and_skips (dates : list str) :
  dates <> [wildcard] ->
  Forall (fun bc : (list str -> option ColumnElement) * Column =>
            (attempted_entries dates <> [] -> parsed_dates dates = [] ->
             fst bc dates = Some False_)
            /\ (parsed_dates dates <> [] ->
                fst bc dates = Some (In_ (snd bc) (parsed_dates dates))))
    date_filter_builders.
Proof.
  intros _. eapply Forall_impl; [apply date_builders_spec|].
  intros [b c] Hb. simpl in *. rewrite Hb. split.
  - intros Ha ->. by rewrite bool_decide_eq_false_2.
  - by destruct (parsed_dates dates).
Qed.

(** C1, as the code has it.  When entries were attempted and none of them
    parses, the predicate of a date builder selects no row; when some
    parse, the entries that do not are ignored and the predicate selects
    the rows whose date is one of the parsed dates. *)
Theorem unparseable_dates_select_nothing_only_alone
    (pg : Postgres) (dates : list str) (row : Row) :
  attempted_entries dates <> [] ->
  Forall (fun bc : (list str -> option ColumnElement) * Column =>
            (parsed_dates dates = [] -> matches pg (fst bc dates) row = false)
            /\ (parsed_dates dates <> [] ->
                matches pg (fst bc dates) row = true
                <-> exists d, row (snd bc) = SqlDate d /\ d ∈ parsed_dates dates))
    date_filter_builders.
Proof.
  intros Ha. eapply Forall_impl; [apply date_builders_spec|].
  intros [b c] Hb. simpl in *. rewrite Hb. split.
  - intros ->. by rewrite bool_decide_eq_false_2.
  - intros Hp. destruct (parsed_dates dates) as [|d0 ds] eqn:E; [done|].
    simpl. destruct (row c) as [|d|?|?]; simpl.
    + split; [intros H; first [discriminate | apply bool_decide_eq_true in H; done]
            | intros (d & ? & _); done].
    + split.
      * intros H%bool_decide_eq_true. injection H as H.
        apply bool_decide_eq_true in H. by exists d.
      * intros (d' & [= <-] & Hin). apply bool_decide_eq_true. f_equal.
        by apply bool_decide_eq_true.
    + split; [intros H; first [discriminate | apply bool_decide_eq_true in H; done]
            | intros (d & ? & _); done].
    + split; [intros H; first [discriminate | apply bool_decide_eq_true in H; done]
            | intros (d & ? & _); done].
Qed.

Lemma valid_terms_of_sentinels (terms : list str) :
  only_sentinels terms -> valid_terms_normalized terms = [].
Proof.
  induction 1 as [|term terms [-> | ->] _ IH]; simpl; done.
Qed.

Lemma fuzzy_of_sentinels (column : Column) (terms : list str) threshold :
  only_sentinels terms -> build_fuzzy_conditions column terms threshold = [].
Proof.
  intros H. unfold build_fuzzy_conditions. by rewrite valid_terms_of_sentinels.
Qed.

Lemma regex_of_sentinels (column : Column) (terms : list str) :
  only_sentinels terms -> build_regex_conditions column terms = [].
Proof.
  intros H. unfold build_regex_conditions. by rewrite valid_terms_of_sentinels.
Qed.

Lemma attempted_of_sentinels (dates : list str) :
  only_sentinels dates -> attempted_entries dates = [].
Proof.
  induction 1 as [|term terms [-> | ->] _ IH]; simpl; done.
Qed.

Lemma cinema_conditions_of_sentinels (cinemas : list str) :
  only_sentinels cinemas -> _build_cinema_filter cinemas = None.
Proof.
  intros H. unfold _build_cinema_filter. case_bool_decide; [done|].
  replace (flat_map _ cinemas) with (@nil ColumnElement); [done|].
  clear -H. induction H as [|term terms [-> | ->] _ IH]; simpl; done.
Qed.

Lemma list_builders_of_sentinels (terms : list str) :
  only_sentinels terms -> Forall (fun B => B terms = None) list_filter_builders.
Proof.
  intros H.
  assert (forall bc, bc ∈ date_filter_builders -> fst bc terms = None) as Hdate.
  { intros bc Hin. pose proof date_builders_spec as Hs.
    rewrite Forall_forall in Hs. rewrite (Hs bc Hin).
    unfold parsed_dates. rewrite (attempted_of_sentinels _ H). done. }
  unfold list_filter_builders. repeat apply Forall_cons_2; try apply Forall_nil_2.
  - apply (Hdate (_build_outage_date_filter, Outage_outage_date)).
    unfold date_filter_builders. set_solver.
  - done.
  - done.
  - apply (Hdate (_build_screening_date_filter, Screening_screening_date)).
    unfold date_filter_builders. set_solver.
  - unfold _build_movie_filter. case_bool_decide; [done|].
    by rewrite !fuzzy_of_sentinels.
  - unfold _build_genre_filter. destruct (_ || _); [done|].
    by rewrite regex_of_sentinels, fuzzy_of_sentinels.
  - by apply cinema_conditions_of_sentinels.
  - apply (Hdate (_build_hospital_shift_date_filter, HospitalShift_hospital_shift_date)).
    unfold date_filter_builders. set_solver.
  - unfold _build_hospital_name_filter. case_bool_decide; [done|].
    by rewrite regex_of_sentinels, fuzzy_of_sentinels.
  - unfold _build_specialties_filter. by destruct (_ || _).
  - apply (Hdate (_build_performance_date_filter, Performance_performance_date)).
    unfold date_filter_builders. set_solver.
  - unfold _build_performance_name_filter. case_bool_decide; [done|].
    by rewrite fuzzy_of_sentinels.
  - unfold _build_performance_location_filter. case_bool_decide; [done|].
    by rewrite fuzzy_of_sentinels.
Qed.

(** C4. A field whose input holds only wildcards and empty entries (the
    default [["*"]], the empty list, [None] or ["*"] for a scalar) gets no
    predicate from its builder, and a statement none of whose fields got
    a predicate has no WHERE clause. *)
Theorem sentinel_only_fields_produce_no_predicate :
  (forall terms, only_sentinels terms ->
     Forall (fun B => B terms = None) list_filter_builders)
  /\ (forall column terms threshold, only_sentinels terms ->
        build_fuzzy_conditions column terms threshold = []
        /\ build_regex_conditions column terms = [])
  /\ (forall t, t = None \/ (exists term, t = Some term /\ sentinel term) ->
        _build_outage_type_filter t = None /\ _build_performance_type_filter t = None)
  /\ _build_year_filter None = None
  /\ (forall start_time end_time, sentinel start_time -> sentinel end_time ->
        _build_hospital_shift_time_filter start_time end_time = None)
  /\ (forall dates t locations areas,
        _build_outage_date_filter dates = None ->
        _build_outage_type_filter t = None ->
        _build_outage_location_filter locations = None ->
        _build_outage_affected_areas_filter areas = None ->
        whereclause (build_outages_statement dates t locations areas) = None)
  /\ (forall dates movies cinemas flag genres year,
        _build_screening_date_filter dates = None ->
        _build_movie_filter movies = None ->
        _build_cinema_filter cinemas = None ->
        _build_genre_filter genres = None ->
        _build_year_filter year = None ->
        whereclause (build_cinemas_statement dates movies cinemas flag genres year)
        = None)
  /\ (forall dates names start_time end_time specialties contact,
        _build_hospital_shift_date_filter dates = None ->
        _build_hospital_name_filter names = None ->
        _build_hospital_shift_time_filter start_time end_time = None ->
        _build_specialties_filter specialties = None ->
        whereclause (build_hospital_shifts_statement dates names start_time end_time
                       specialties contact) = None)
  /\ (forall dates names locations t,
        _build_performance_date_filter dates = None ->
        _build_performance_name_filter names = None ->
        _build_performance_location_filter locations = None ->
        _build_performance_type_filter t = None ->
        whereclause (build_performances_statement dates names locations t) = None).
Proof.
  split; [exact list_builders_of_sentinels|].
  split; [intros; split; [by apply fuzzy_of_sentinels | by apply regex_of_sentinels]|].
  split.
  { intros t [-> | (term & -> & [-> | ->])]; done. }
  split; [done|].
  split.
  { intros st en [-> | ->] [-> | ->]; reflexivity. }
  split.
  { intros * H1 H2 H3 H4. unfold build_outages_statement.
    by rewrite H1, H2. }
  split.
  { intros * H1 H2 H3 H4 H5. unfold build_cinemas_statement.
    rewrite H1, H2, H3, H4, H5. by destruct flag. }
  split.
  { intros * H1 H2 H3 H4. unfold build_hospital_shifts_statement.
    by rewrite H1, H2, H3, H4. }
  intros * H1 H2 H3 H4. unfold build_performances_statement.
  by rewrite H1, H2, H3, H4.
Qed.

(** C5, as the code has it.  The statements for screenings, performances
    and hospital shifts are ordered by ascending date, then by ascending
    cinema and movie name (and time when times are selected), performance
    name, or hospital name; the statement for outages is ordered by
    descending date, then descending start time. *)
Theorem statement_ordering :
  (forall dates movies cinemas flag genres year,
     let stmt := build_cinemas_statement dates movies cinemas flag genres year in
     order_by_clauses stmt
     = [(Screening_screening_date, Asc); (Cinema_cinema_name, Asc);
        (Movie_movie_name, Asc)]
       ++ (if flag then [(Screening_screening_time, Asc)] else [])
     /\ ascending_by_date_first Screening_screening_date stmt)
  /\ (forall dates names locations t,
        let stmt := build_performances_statement dates names locations t in
        order_by_clauses stmt
        = [(Performance_performance_date, Asc); (Performance_performance_name, Asc)]
        /\ ascending_by_date_first Performance_performance_date stmt)
  /\ (forall dates names start_time end_time specialties contact,
        let stmt := build_hospital_shifts_statement dates names start_time end_time
                      specialties contact in
        order_by_clauses stmt
        = [(HospitalShift_hospital_shift_date, Asc);
           (HospitalShift_hospital_name, Asc)]
        /\ ascending_by_date_first HospitalShift_hospital_shift_date stmt)
  /\ (forall dates t locations areas,
        order_by_clauses (build_outages_statement dates t locations areas)
        = [(Outage_outage_date, Desc); (Outage_outage_start, Desc)]).
Proof.
  assert (forall filters stmt,
            order_by_clauses (apply_filters filters stmt) = order_by_clauses stmt) as Hf.
  { intros [|f fs] stmt; [done|]. unfold apply_filters, where_. simpl.
    by destruct (whereclause stmt). }
  split; [|split; [|split]].
  - intros dates movies cinemas flag genres yr stmt.
    assert (order_by_clauses stmt
            = [(Screening_screening_date, Asc); (Cinema_cinema_name, Asc);
               (Movie_movie_name, Asc)]
              ++ (if flag then [(Screening_screening_time, Asc)] else [])) as E.
    { subst stmt. unfold build_cinemas_statement. destruct flag; simpl; by rewrite Hf. }
    split; [exact E|]. unfold ascending_by_date_first. rewrite E.
    eexists. split; [reflexivity|]. split; [done|].
    destruct flag; repeat constructor.
  - intros. subst stmt. unfold build_performances_statement, ascending_by_date_first.
    simpl. rewrite Hf. simpl. split; [done|].
    eexists. split; [reflexivity|]. split; [done|]. repeat constructor.
  - intros. subst stmt. unfold build_hospital_shifts_statement, ascending_by_date_first.
    simpl. rewrite Hf. simpl. split; [done|].
    eexists. split; [reflexivity|]. split; [done|]. repeat constructor.
  - intros. unfold build_outages_statement. simpl. by rewrite Hf.
Qed.

(** C8. The location and affected-areas builders of the outages and the
    specialties builder of the hospital shifts return no predicate for
    any input, so that the statements do not depend on these fields. *)
Theorem placeholder_filters_return_nothing :
  (forall terms,
     _build_outage_location_filter terms = None
     /\ _build_outage_affected_areas_filter terms = None
     /\ _build_specialties_filter terms = None)
  /\ (forall dates t locations areas,
        build_outages_statement dates t locations areas
        = build_outages_statement dates t [wildcard] [wildcard])
  /\ (forall dates names start_time end_time specialties contact,
        build_hospital_shifts_statement dates names start_time end_time
          specialties contact
        = build_hospital_shifts_statement dates names start_time end_time
            [wildcard] contact).
Proof.
  split.
  { intros terms. repeat split. unfold _build_specialties_filter.
    by destruct (_ || _). }
  split; [done|].
  intros. unfold build_hospital_shifts_statement, _build_specialties_filter.
  by destruct (_ || _).
Qed.

End WithContext.

(** *** The scenarios of the specification, on the sample database *)

(** The outage scenario of the specification: the list holds a valid date
    and an entry that does not parse, and the predicate built still
    selects the outages of the valid date. *)
Lemma mixed_date_list_selects_the_valid_date :
  let dates := [lit "2024-03-20"; lit "not-a-date"] in
  let date_filter :=
    _build_outage_date_filter (U:=unicode_excerpt) (S:=sample_settings) dates in
  (lit "not-a-date" ∈ dates /\ lit "not-a-date" <> wildcard
   /\ strptime_date (U:=unicode_excerpt) (lit "not-a-date") = None)
  /\ date_filter = Some (In_ Outage_outage_date [mkDate 2024 3 20])
  /\ matches sample_postgres date_filter (outage_row (mkDate 2024 3 20) (lit "power"))
     = true.
Proof.
  repeat split.
  - apply list_elem_of_In. right. left. reflexivity.
  - vm_compute. discriminate.
Qed.

Lemma unparseable_dates_select_nothing_only_alone_witness :
  let dates := [lit "invalid1"; lit "2024/12/31"; lit "*"] in
  attempted_entries dates <> []
  /\ Forall (fun bc : (list str -> option ColumnElement) * Column =>
               (parsed_dates (U:=unicode_excerpt) dates = [] ->
                matches sample_postgres (fst bc dates)
                  (outage_row (mkDate 2024 12 31) (lit "water")) = false)
               /\ (parsed_dates (U:=unicode_excerpt) dates <> [] ->
                   matches sample_postgres (fst bc dates)
                     (outage_row (mkDate 2024 12 31) (lit "water")) = true
                   <-> exists d, outage_row (mkDate 2024 12 31) (lit "water") (snd bc)
                                 = SqlDate d
                                 /\ d ∈ parsed_dates (U:=unicode_excerpt) dates))
       (date_filter_builders (U:=unicode_excerpt) (S:=sample_settings)).
Proof.
  intros dates.
  assert (attempted_entries dates <> []) as H by (vm_compute; discriminate).
  split; [exact H|].
  exact (unparseable_dates_select_nothing_only_alone (U:=unicode_excerpt)
           (S:=sample_settings) sample_postgres dates
           (outage_row (mkDate 2024 12 31) (lit "water")) H).
Defined.

(** The mixed list of the unit tests. *)
Lemma date_filter_parses_and_skips_witness :
  let dates := [lit "2024-01-15"; lit "invalid-date"; lit ""; lit "2024-01-17"] in
  dates <> [wildcard]
  /\ parsed_dates (U:=unicode_excerpt) dates = [mkDate 2024 1 15; mkDate 2024 1 17]
  /\ Forall (fun bc : (list str -> option ColumnElement) * Column =>
               (attempted_entries dates <> [] ->
                parsed_dates (U:=unicode_excerpt) dates = [] ->
                fst bc dates = Some False_)
               /\ (parsed_dates (U:=unicode_excerpt) dates <> [] ->
                   fst bc dates
                   = Some (In_ (snd bc) (parsed_dates (U:=unicode_excerpt) dates))))
       (date_filter_builders (U:=unicode_excerpt) (S:=sample_settings)).
Proof.
  intros dates.
  assert (dates <> [wildcard]) as H by (vm_compute; discriminate).
  split; [exact H|]. split; [vm_compute; reflexivity|].
  exact (date_filter_parses_and_skips (U:=unicode_excerpt) (S:=sample_settings) dates H).
Defined.

(** The defaults of the tool arguments, and a list of sentinels. *)
Lemma sentinel_only_fields_produce_no_predicate_witness :
  only_sentinels [lit "*"; lit ""; lit "*"]
  /\ _build_outage_date_filter (U:=unicode_excerpt) (S:=sample_settings)
       [lit "*"; lit ""; lit "*"] = None
  /\ _build_hospital_name_filter (U:=unicode_excerpt) (S:=sample_settings)
       [lit "*"; lit ""; lit "*"] = None
  /\ whereclause
       (build_performances_statement (U:=unicode_excerpt) (S:=sample_settings)
          [lit "*"] [] [lit ""] (Some (lit "*"))) = None.
Proof.
  assert (only_sentinels [lit "*"; lit ""; lit "*"]) as H.
  { unfold only_sentinels. repeat apply Forall_cons_2; try apply Forall_nil_2;
      first [left; reflexivity | right; reflexivity]. }
  destruct (sentinel_only_fields_produce_no_predicate (U:=unicode_excerpt)
              (S:=sample_settings)) as (Hlist & _ & _ & _ & _ & _ & _ & _ & Hperf).
  split; [exact H|].
  pose proof (Hlist _ H) as Hall. rewrite Forall_forall in Hall.
  split; [|split].
  - apply Hall. unfold list_filter_builders. set_solver.
  - apply Hall. unfold list_filter_builders. set_solver.
  - apply Hperf; reflexivity.
Defined.

(** The statement for outages, with the default arguments, is ordered by
    descending date. *)
Lemma outages_are_ordered_by_descending_date :
  let stmt := build_outages_statement (U:=unicode_excerpt) (S:=sample_settings)
                [lit "*"] (Some (lit "*")) [lit "*"] [lit "*"] in
  order_by_clauses stmt = [(Outage_outage_date, Desc); (Outage_outage_start, Desc)]
  /\ ~ ascending_by_date_first Outage_outage_date stmt.
Proof.
  split; [reflexivity|].
  intros (rest & E & _). vm_compute in E. discriminate.
Qed.

End BuilderFacts.

(* ===================================================================== *)
(** ** Properties of the text normaliser                                  *)
(* ===================================================================== *)

Module NormalizeFacts.

Lemma collapse_collapsed (s : str) : forall in_run,
  collapsed in_run (collapse_from in_run s) = true.
Proof.
  induction s as [|c r IH]; intros b; simpl; [done|].
  destruct (isspace c) eqn:Hc.
  - destruct b; simpl; [apply IH|]. by rewrite IH.
  - simpl. rewrite Hc. apply IH.
Qed.

Lemma collapse_fixes_collapsed (s : str) : forall in_run,
  collapsed in_run s = true -> collapse_from in_run s = s.
Proof.
  induction s as [|c r IH]; intros b; simpl; [done|].
  destruct (isspace c) eqn:Hc.
  - intros H. apply andb_prop in H as [H Hr]. apply andb_prop in H as [H32 Hb].
    apply N.eqb_eq in H32. subst c. destruct b; [done|].
    by rewrite (IH true Hr).
  - intros Hr. by rewrite (IH false Hr).
Qed.

Lemma collapse_snoc (s : str) (c : codepoint) : forall in_run,
  isspace c = false ->
  collapse_from in_run (s ++ [c]) = collapse_from in_run s ++ [c].
Proof.
  induction s as [|d r IH]; intros b Hc; simpl.
  - by rewrite Hc.
  - destruct (isspace d); [destruct b|]; by rewrite IH.
Qed.

Lemma lstrip_suffix (s : str) :
  exists ws, s = ws ++ lstrip s /\ Forall (fun c => isspace c = true) ws.
Proof.
  induction s as [|c r (ws & IH & Hws)]; simpl.
  - by exists [].
  - destruct (isspace c) eqn:Hc.
    + exists (c :: ws). split; [by rewrite <- app_comm_cons, <- IH|].
      by constructor.
    + by exists [].
Qed.

Lemma lstrip_head (s : str) c : head (lstrip s) = Some c -> isspace c = false.
Proof.
  induction s as [|d r IH]; simpl; [done|].
  destruct (isspace d) eqn:Hd; [done|]. simpl. by intros [= <-].
Qed.

Lemma lstrip_fixes (s : str) :
  (forall c, head s = Some c -> isspace c = false) -> lstrip s = s.
Proof.
  destruct s as [|c r]; simpl; [done|]. intros H. by rewrite (H c eq_refl).
Qed.

Lemma last_rev_head {A} (l : list A) : last l = head (rev l).
Proof.
  induction l as [|x l IH] using rev_ind; [done|].
  by rewrite last_snoc, rev_unit.
Qed.

Lemma head_rev_last {A} (l : list A) : head l = last (rev l).
Proof. by rewrite last_rev_head, rev_involutive. Qed.

Lemma rstrip_fixes (s : str) :
  (forall c, last s = Some c -> isspace c = false) -> rstrip s = s.
Proof.
  intros H. unfold rstrip. rewrite lstrip_fixes; [apply rev_involutive|].
  intros c Hc. apply H. by rewrite last_rev_head.
Qed.

Lemma rstrip_prefix (s : str) : exists ws, s = rstrip s ++ ws.
Proof.
  destruct (lstrip_suffix (rev s)) as (ws & E & _). exists (rev ws).
  unfold rstrip. by rewrite <- rev_app_distr, <- E, rev_involutive.
Qed.

Lemma strip_no_edge_space (s : str) : no_edge_space (strip s).
Proof.
  unfold strip. split.
  - intros c Hc. destruct (rstrip_prefix (lstrip s)) as (ws & E).
    apply (lstrip_head s). rewrite E.
    destruct (rstrip (lstrip s)); [done|]. exact Hc.
  - intros c Hc. unfold rstrip in Hc. rewrite last_rev_head, rev_involutive in Hc.
    by apply (lstrip_head (rev (lstrip s))).
Qed.

Lemma strip_fixes (s : str) : no_edge_space s -> strip s = s.
Proof.
  intros [Hh Hl]. unfold strip. rewrite (lstrip_fixes s Hh). by apply rstrip_fixes.
Qed.

Lemma collapse_no_edge_space (s : str) :
  no_edge_space s -> no_edge_space (collapse_whitespace s).
Proof.
  intros [Hh Hl]. unfold collapse_whitespace. split.
  - destruct s as [|c r]; [done|]. simpl. rewrite (Hh c eq_refl). simpl.
    intros d [= <-]. by apply Hh.
  - destruct s as [|c r _] using rev_ind; [done|].
    rewrite last_snoc in Hl. specialize (Hl c eq_refl).
    rewrite (collapse_snoc _ _ _ Hl), last_snoc. by intros d [= <-].
Qed.

Lemma filter_all {A} (f : A -> bool) (l : list A) :
  Forall (fun x => f x = true) l -> List.filter f l = l.
Proof.
  induction 1 as [|x l Hx _ IH]; simpl; [done|]. by rewrite Hx, IH.
Qed.

Lemma Forall_filter {A} (P : A -> Prop) (f : A -> bool) (l : list A) :
  Forall P l -> Forall P (List.filter f l).
Proof.
  induction 1 as [|x l Hx _ IH]; simpl; [done|]. destruct (f x); [by constructor|done].
Qed.

Lemma Forall_strip (P : codepoint -> Prop) (s : str) :
  Forall P s -> Forall P (strip s).
Proof.
  intros H. unfold strip.
  destruct (lstrip_suffix s) as (ws & E & _).
  assert (Forall P (lstrip s)) as Hl.
  { rewrite E in H. by apply Forall_app in H as [_ H]. }
  destruct (rstrip_prefix (lstrip s)) as (ws' & E').
  rewrite E' in Hl. by apply Forall_app in Hl as [Hl _].
Qed.

Lemma Forall_collapse (P : codepoint -> Prop) (s : str) : forall in_run,
  P 32%N -> Forall P s -> Forall P (collapse_from in_run s).
Proof.
  intros b H32 H. revert b.
  induction H as [|c r Hc _ IH]; intros b; simpl; [done|].
  destruct (isspace c); [destruct b|]; try apply IH; constructor; auto.
Qed.

(** The excerpt has the facts asked of a database. *)
Lemma unicode_excerpt_facts : UnicodeFacts unicode_excerpt.
Proof.
  split; [reflexivity | reflexivity |].
  intros c [Hlo Hhi]. simpl. unfold decimal_value, between.
  apply N.leb_le in Hlo, Hhi. by rewrite Hlo, Hhi.
Qed.

Section WithUnicode.

Context {U : UnicodeData} {F : UnicodeFacts U}.

Lemma plain_space : plain 32%N.
Proof.
  split; [apply space_not_Mn|]. split; [done|].
  unfold punctuation_to_remove, string_punctuation. simpl. intros Hin.
  repeat (apply elem_of_cons in Hin as [Hin|Hin]; [discriminate|]).
  by apply elem_of_nil in Hin.
Qed.

Lemma stripped_text_is_plain (decomposed : str) :
  Forall plain (strip_marks_and_punctuation decomposed).
Proof.
  unfold strip_marks_and_punctuation, collapse_whitespace.
  apply Forall_collapse; [apply plain_space|]. apply Forall_strip.
  unfold translate_remove, replace_char. apply Forall_forall. intros c Hin.
  apply list_elem_of_In, filter_In in Hin as [Hin Hp].
  apply in_map_iff in Hin as (d & Hd & Hin).
  apply filter_In in Hin as [_ HMn]. apply negb_true_iff in HMn.
  apply negb_true_iff, bool_decide_eq_false in Hp.
  split; [|split; [|done]].
  - destruct (d =? final_sigma)%N; subst c; [apply sigma_not_Mn | done].
  - destruct (d =? final_sigma)%N eqn:E; subst c; [done|].
    by apply N.eqb_neq in E.
Qed.

Lemma stripped_text_is_settled (decomposed : str) :
  let y := strip_marks_and_punctuation decomposed in
  no_edge_space y /\ collapsed false y = true.
Proof.
  unfold strip_marks_and_punctuation. split.
  - apply collapse_no_edge_space, strip_no_edge_space.
  - apply collapse_collapsed.
Qed.

(** The steps after the decomposition do nothing on a text they produced. *)
Lemma strip_marks_and_punctuation_idempotent (decomposed : str) :
  strip_marks_and_punctuation (strip_marks_and_punctuation decomposed)
  = strip_marks_and_punctuation decomposed.
Proof.
  pose proof (stripped_text_is_plain decomposed) as Hp.
  destruct (stripped_text_is_settled decomposed) as [He Hc].
  set (y := strip_marks_and_punctuation decomposed) in *.
  unfold strip_marks_and_punctuation at 1.
  assert (List.filter (fun c => negb (category_Mn c)) y = y) as ->.
  { apply filter_all. eapply Forall_impl; [exact Hp|].
    intros c (HMn & _). by rewrite HMn. }
  assert (replace_char final_sigma small_sigma y = y) as ->.
  { unfold replace_char. clear -Hp. induction Hp as [|c r (_ & Hs & _) _ IH]; [done|].
    simpl. rewrite IH. apply N.eqb_neq in Hs. by rewrite Hs. }
  assert (translate_remove punctuation_to_remove y = y) as ->.
  { apply filter_all. eapply Forall_impl; [exact Hp|].
    intros c (_ & _ & Hpu). by rewrite bool_decide_eq_false_2. }
  rewrite (strip_fixes y He). by apply collapse_fixes_collapsed.
Qed.

(** C9, as the code has it.  Normalising a normalised text gives the
    same text whenever the first steps of the pipeline (NFC, lower case,
    NFD) leave the normalised text as it is. *)
Theorem normalize_text_idempotent_on_stable_forms (text : option str) :
  (forall y, normalize_text text = Some y -> decomposed_lower y = y) ->
  normalize_text (normalize_text text) = normalize_text text.
Proof.
  intros Hstable. destruct text as [text|]; [|done].
  unfold normalize_text in *.
  destruct (truthy text); simpl in *; [|done].
  specialize (Hstable _ eq_refl).
  destruct (truthy (strip_marks_and_punctuation (decomposed_lower text))) eqn:Ht; simpl.
  - f_equal. rewrite Hstable. apply strip_marks_and_punctuation_idempotent.
  - f_equal. by destruct (strip_marks_and_punctuation (decomposed_lower text)).
Qed.

End WithUnicode.

(** The Greek sentence of the unit tests. *)
Lemma normalize_text_idempotent_on_stable_forms_witness :
  let text := Some (lit "Ελληνικά  κείμενο, με τόνους και τελικό σίγμας.") in
  normalize_text (U:=unicode_excerpt) text
  = Some (lit "ελληνικα κειμενο με τονουσ και τελικο σιγμασ")
  /\ normalize_text (U:=unicode_excerpt) (normalize_text (U:=unicode_excerpt) text)
     = normalize_text (U:=unicode_excerpt) text.
Proof.
  intros text. split; [vm_compute; reflexivity|].
  apply (normalize_text_idempotent_on_stable_forms (U:=unicode_excerpt)
           (F:=unicode_excerpt_facts) text).
  intros y Hy. vm_compute in Hy. injection Hy as <-. vm_compute. reflexivity.
Defined.

(** Two spacing marks of different combining classes, kept apart by an
    exclamation mark: the first pass removes the exclamation mark, the
    second one puts the marks in canonical order. *)
Lemma normalize_text_reorders_marks_on_second_pass :
  let text := Some [0x302E; 33; 0x1B44]%N in
  normalize_text (U:=unicode_excerpt) text = Some [0x302E; 0x1B44]%N
  /\ normalize_text (U:=unicode_excerpt) (normalize_text (U:=unicode_excerpt) text)
     = Some [0x1B44; 0x302E]%N
  /\ normalize_text (U:=unicode_excerpt) (normalize_text (U:=unicode_excerpt) text)
     <> normalize_text (U:=unicode_excerpt) text.
Proof.
  intros text. split; [vm_compute; reflexivity|]. split; [vm_compute; reflexivity|].
  vm_compute. discriminate.
Qed.

End NormalizeFacts.

(* ===================================================================== *)
(** ** Properties of the formatters                                       *)
(* ===================================================================== *)

Module FormatterFacts.

Lemma seq_leb_total (a : list N) : forall b, seq_leb a b = true \/ seq_leb b a = true.
Proof.
  induction a as [|x a IH]; intros [|y b]; simpl; auto.
  destruct (N.ltb_spec x y), (N.ltb_spec y x); auto; try lia.
Qed.

Lemma insert_sorted_Sorted {A} (leb : A -> A -> bool) (x : A) (l : list A) :
  (forall a b, leb a b = true \/ leb b a = true) ->
  Sorted (fun a b => leb a b = true) l ->
  Sorted (fun a b => leb a b = true) (insert_sorted leb x l).
Proof.
  intros Htot. induction 1 as [|y r Hr IH Hhd]; simpl.
  - repeat constructor.
  - destruct (leb y x) eqn:E.
    + constructor; [exact IH|].
      destruct r as [|z r']; simpl; [by constructor|].
      destruct (leb z x); constructor; [|exact E]. by inversion Hhd.
    + constructor; [by constructor|]. constructor.
      destruct (Htot y x) as [H|H]; [congruence|exact H].
Qed.

Lemma sorted_Sorted {A} (leb : A -> A -> bool) (l : list A) :
  (forall a b, leb a b = true \/ leb b a = true) ->
  Sorted (fun a b => leb a b = true) (sorted leb l).
Proof.
  intros Htot. unfold sorted.
  assert (forall acc, Sorted (fun a b => leb a b = true) acc ->
            Sorted (fun a b => leb a b = true)
              (fold_left (fun acc x => insert_sorted leb x acc) l acc)) as H.
  { induction l as [|x l IH]; intros acc Hacc; simpl; [done|].
    apply IH. by apply insert_sorted_Sorted. }
  apply H. constructor.
Qed.

(** What orders the sections of every formatter: the text of their
    headers, compared as strings. *)
Lemma sections_in_text_order :
  (forall outages,
     Sorted (fun a b => seq_leb (fst a) (fst b) = true) (outage_sections outages))
  /\ (forall performances,
        Sorted (fun a b => seq_leb (fst a) (fst b) = true)
          (performance_sections performances))
  /\ (forall shifts,
        Sorted (fun a b => seq_leb (fst a) (fst b) = true)
          (hospital_shift_sections shifts))
  /\ (forall screenings flag,
        Sorted (fun a b => seq_leb (fst a) (fst b) = true)
          (screening_sections screenings flag)).
Proof.
  repeat split; intros; apply sorted_Sorted; intros a b; apply seq_leb_total.
Qed.

(** C6, on the code.  With a row of 15 January 2024 and a row of
    1 February 2024, in either order, every formatter renders the section
    of February before the section of January: "01/02/2024" comes before
    "15/01/2024" as text. *)
Theorem date_sections_follow_the_text_of_the_date :
  ascending_dates [feb_01; jan_15] = false
  /\ Forall (fun rows =>
               List.map fst (outage_sections rows) = [lit "01/02/2024"; lit "15/01/2024"])
       [[outage_on jan_15; outage_on feb_01]; [outage_on feb_01; outage_on jan_15]]
  /\ Forall (fun rows =>
               List.map fst (performance_sections rows)
               = [lit "01/02/2024"; lit "15/01/2024"])
       [[performance_on jan_15; performance_on feb_01];
        [performance_on feb_01; performance_on jan_15]]
  /\ Forall (fun rows =>
               List.map fst (hospital_shift_sections rows)
               = [lit "01/02/2024"; lit "15/01/2024"])
       [[shift_on jan_15; shift_on feb_01]; [shift_on feb_01; shift_on jan_15]]
  /\ Forall (fun rows =>
               List.map fst (screening_sections rows false)
               = [lit "01/02/2024"; lit "15/01/2024"])
       [[screening_on jan_15; screening_on feb_01];
        [screening_on feb_01; screening_on jan_15]]
  /\ format_outages [outage_on jan_15; outage_on feb_01]
     = lit "Βρέθηκαν οι ακόλουθες προγραμματισμένες διακοπές:" ++ [10; 10]%N
       ++ lit "--- 01/02/2024 ---" ++ [10%N]
       ++ lit "- Τύπος: ρεύματος, Ώρες: Άγνωστη - Άγνωστη" ++ [10; 10]%N
       ++ lit "--- 15/01/2024 ---" ++ [10%N]
       ++ lit "- Τύπος: ρεύματος, Ώρες: Άγνωστη - Άγνωστη".
Proof.
  split; [reflexivity|].
  repeat split; repeat constructor; vm_compute; reflexivity.
Qed.

End FormatterFacts.

(* ===================================================================== *)
(** ** More on the executor: trace, keys, failures                        *)
(* ===================================================================== *)

Module BatchFacts.
Import Executor ExecutorSpec ExecutorFacts.

Section WithTools.

Context {Db Raw exn : Type}.
Variable env : ToolEnv Db Raw exn.

(** One iteration: what is added to the trace. *)
Lemma loop_body_trace i c (st : ExecState Db Raw) :
  match loop_body env i c st with
  | Continue st' | Abort _ st' =>
      awaited st' = awaited st ++ filter (λ p, registered env p.2) [(i, c)]
  end.
Proof.
  unfold loop_body, registered. simpl.
  destruct (TOOL_REGISTRY env !! name c) as [f|] eqn:Hreg; simpl.
  - assert (filter (λ p : nat * ToolCall,
              bool_decide (is_Some (TOOL_REGISTRY env !! name p.2))) [(i, c)]
            = [(i, c)]) as Hf.
    { rewrite filter_cons_True; [done|]. simpl. apply bool_decide_pack.
      by rewrite Hreg. }
    rewrite Hf.
    destruct (f (model_dump_exclude_name c) (db st)) as [[e|raw] d']; simpl.
    { by destruct (is_Exception env e). }
    destruct (TOOL_FORMATTERS env !! name c) as [fm|]; simpl; [|done].
    destruct (call_formatter fm _ _ raw) as [fe|txt]; simpl; [|done].
    by destruct (is_Exception env fe).
  - rewrite filter_cons_False, app_nil_r; [done|]. simpl.
    intros H. apply bool_decide_unpack in H. rewrite Hreg in H. by destruct H.
Qed.

Lemma exec_loop_trace i l (st : ExecState Db Raw) :
  ∃ j, j ≤ length l ∧
    match exec_loop env i l st with
    | Continue st' =>
        j = length l ∧
        awaited st' = awaited st
                      ++ filter (λ p, registered env p.2) (enumerate_from i l)
    | Abort _ st' =>
        0 < j ∧
        awaited st' = awaited st
                      ++ filter (λ p, registered env p.2)
                           (enumerate_from i (take j l))
    end.
Proof.
  revert i st. induction l as [|c l IH]; intros i st; simpl.
  - exists 0. by rewrite app_nil_r.
  - pose proof (loop_body_trace i c st) as Hb.
    destruct (loop_body env i c st) as [st1|e st1].
    + destruct (IH (S i) st1) as (j & Hj & Hl). exists (S j). split; [lia|].
      destruct (exec_loop env (S i) l st1) as [st2|e st2].
      * destruct Hl as [-> Hl]. split; [done|].
        rewrite Hl, Hb, <- app_assoc. f_equal.
        by rewrite <- filter_app.
      * destruct Hl as [_ Hl]. split; [lia|]. simpl.
        rewrite Hl, Hb, <- app_assoc. f_equal.
        by rewrite <- filter_app.
    + exists 1. split; [lia|]. split; [lia|]. simpl. by rewrite ?take_0.
Qed.

(** X1.  The tool functions awaited by a batch are the registered calls of
    an initial part of the batch, each once, in batch order; when the
    batch returns, the initial part is the whole batch. *)
Theorem awaited_calls_are_an_initial_part (batch : list ToolCall) (d : Db) :
  let r := execute_tools_sequentially env batch d in
  ∃ j, j ≤ length batch
    ∧ calls_awaited r
      = filter (λ p, registered env p.2) (enumerate_from 0 (take j batch))
    ∧ match outcome r with
      | Returned _ => j = length batch
      | Raised _ => 0 < j
      end.
Proof.
  unfold execute_tools_sequentially.
  destruct (exec_loop_trace 0 batch (mkExecState ∅ d [])) as (j & Hj & H).
  exists j. split; [done|].
  destruct (exec_loop env 0 batch _) as [st|e st]; simpl in *.
  - destruct H as [-> H]. by rewrite firstn_all.
  - by destruct H as [? H].
Qed.

Lemma exec_loop_dom i l (st st' : ExecState Db Raw) :
  exec_loop env i l st = Continue st' →
  dom (all_tool_results st')
  = dom (all_tool_results st) ∪ list_to_set (name <$> l).
Proof.
  revert i st. induction l as [|c l IH]; intros i st; simpl.
  - intros [= <-]. by rewrite (right_id_L ∅ (∪)).
  - destruct (loop_body env i c st) as [st1|e st1] eqn:Hb; [|done].
    intros Hl. rewrite (IH _ _ Hl).
    destruct (loop_body_result _ _ _ _ _ Hb) as (v & -> & _).
    rewrite dom_insert_L, (comm_L (∪) {[name c]}). by rewrite (assoc_L (∪)).
Qed.

(** X2.  When the batch returns, the dictionary has exactly one entry for
    each tool name of the batch, and no other key. *)
Theorem returned_keys_are_the_batch_names (batch : list ToolCall) (d : Db) M :
  outcome (execute_tools_sequentially env batch d) = Returned M →
  dom M = list_to_set (name <$> batch).
Proof.
  unfold execute_tools_sequentially.
  destruct (exec_loop env 0 batch _) as [st|e st] eqn:Hl; simpl; [|done].
  intros [= <-]. rewrite (exec_loop_dom _ _ _ _ Hl). simpl.
  by rewrite dom_empty_L, (left_id_L ∅ (∪)).
Qed.

(** An iteration that raises: the call is registered, it was awaited, and
    the exception is the tool function's, or the formatter's when it is
    not an [Exception]. *)
Lemma loop_body_abort i c (st st' : ExecState Db Raw) e :
  loop_body env i c st = Abort e st' →
  ∃ tool_func, TOOL_REGISTRY env !! name c = Some tool_func
    ∧ awaited st' = awaited st ++ [(i, c)]
    ∧ match tool_func (model_dump_exclude_name c) (db st) with
      | (inl e', _) => e' = e
      | (inr raw_results, _) =>
          ∃ formatter, TOOL_FORMATTERS env !! name c = Some formatter
            ∧ call_formatter formatter (name c) (model_dump_exclude_name c)
                raw_results = inl e
            ∧ is_Exception env e = false
      end.
Proof.
  unfold loop_body. simpl.
  destruct (TOOL_REGISTRY env !! name c) as [f|]; simpl; [|done].
  intros H. exists f. split; [done|]. revert H.
  destruct (f (model_dump_exclude_name c) (db st)) as [[e'|raw] d']; simpl.
  { destruct (is_Exception env e'); intros [= <- <-]; done. }
  destruct (TOOL_FORMATTERS env !! name c) as [fm|]; simpl; [|done].
  destruct (call_formatter fm _ _ raw) as [fe|txt] eqn:Hfm; simpl; [|done].
  destruct (is_Exception env fe) eqn:Hexc; [done|].
  intros [= <- <-]. split; [done|]. by exists fm.
Qed.

Lemma exec_loop_abort i l (st st' : ExecState Db Raw) e :
  exec_loop env i l st = Abort e st' →
  ∃ pre c post st1, l = pre ++ c :: post
    ∧ exec_loop env i pre st = Continue st1
    ∧ loop_body env (i + length pre) c st1 = Abort e st'.
Proof.
  revert i st. induction l as [|c l IH]; intros i st; simpl; [done|].
  destruct (loop_body env i c st) as [st1|e1 st1] eqn:Hb.
  - intros Hl. destruct (IH _ _ Hl) as (pre & c' & post & st2 & -> & Hpre & Hc).
    exists (c :: pre), c', post, st2. simpl. rewrite Hb.
    split; [done|]. split; [done|].
    by replace (i + S (length pre)) with (S i + length pre) by lia.
  - intros [= <- <-]. exists [], c, l, st. simpl.
    by rewrite Nat.add_0_r.
Qed.

(** X3.  The executor raises nothing of its own: an exception that leaves
    the batch was raised by the last tool function awaited, or by its
    formatter when it is not an [Exception]; the calls before it had
    completed, and the transaction is rolled back. *)
Theorem raised_exception_comes_from_the_last_call_awaited
    (batch : list ToolCall) (d : Db) e :
  let r := execute_tools_sequentially env batch d in
  outcome r = Raised e →
  ∃ pre c post st1 tool_func,
    batch = pre ++ c :: post
    ∧ exec_loop env 0 pre (mkExecState ∅ d []) = Continue st1
    ∧ TOOL_REGISTRY env !! name c = Some tool_func
    ∧ last (calls_awaited r) = Some (length pre, c)
    ∧ transaction r = RolledBack
    ∧ match tool_func (model_dump_exclude_name c) (db st1) with
      | (inl e', _) => e' = e
      | (inr raw_results, _) =>
          ∃ formatter, TOOL_FORMATTERS env !! name c = Some formatter
            ∧ call_formatter formatter (name c) (model_dump_exclude_name c)
                raw_results = inl e
            ∧ is_Exception env e = false
      end.
Proof.
  unfold execute_tools_sequentially.
  destruct (exec_loop env 0 batch _) as [st|e' st] eqn:Hl; simpl; [done|].
  intros [= ->].
  destruct (exec_loop_abort _ _ _ _ _ Hl) as (pre & c & post & st1 & -> & Hpre & Hc).
  destruct (loop_body_abort _ _ _ _ _ Hc) as (f & Hreg & Haw & Hf).
  exists pre, c, post, st1, f. rewrite Haw, last_snoc. done.
Qed.

(** X4.  A formatter that raises an [Exception] does not stop the batch:
    the error entry is stored under the tool's name and the calls after
    it are processed, on the database state the tool function left. *)
Theorem formatting_failure_is_recorded_and_the_batch_goes_on
    (pre post : list ToolCall) (c : ToolCall) (d : Db) st1
    tool_func raw_results d' formatter fmt_e :
  exec_loop env 0 pre (mkExecState ∅ d []) = Continue st1 →
  TOOL_REGISTRY env !! name c = Some tool_func →
  tool_func (model_dump_exclude_name c) (db st1) = (inr raw_results, d') →
  TOOL_FORMATTERS env !! name c = Some formatter →
  call_formatter formatter (name c) (model_dump_exclude_name c) raw_results
    = inl fmt_e →
  is_Exception env fmt_e = true →
  Forall (λ c', name c' ≠ name c) post →
  let entry := ErrorPayload (msg_failed_to_format (name c)) in
  let st2 := set_result (name c) entry
               (set_db d' (log_await (length pre) c st1)) in
  let r := execute_tools_sequentially env (pre ++ c :: post) d in
  exec_loop env 0 (pre ++ c :: post) (mkExecState ∅ d [])
    = exec_loop env (S (length pre)) post st2
  ∧ match outcome r with
    | Returned M => M !! name c = Some entry ∧ transaction r = Committed
    | Raised e => ∃ st', exec_loop env (S (length pre)) post st2 = Abort e st'
    end.
Proof.
  intros Hpre Hreg Hf Hfm Hcall Hexc Hpost entry st2 r.
  assert (exec_loop env 0 (pre ++ c :: post) (mkExecState ∅ d [])
          = exec_loop env (S (length pre)) post st2) as Heq.
  { rewrite exec_loop_app, Hpre. simpl. unfold loop_body. simpl.
    by rewrite Hreg, Hf, Hfm, Hcall, Hexc. }
  split; [done|].
  subst r. unfold execute_tools_sequentially. rewrite Heq.
  destruct (exec_loop env (S (length pre)) post st2) as [st3|e st3] eqn:Hl;
    simpl.
  - split; [|done]. rewrite (exec_loop_other _ _ _ _ _ _ Hl Hpost).
    subst st2. simpl. by rewrite lookup_insert_eq.
  - by exists st3.
Qed.

End WithTools.

Lemma returned_keys_are_the_batch_names_witness :
  dom (<[lit "outages" := Formatted (lit "outages: 07")]>
       (<[lit "tool_missing" :=
            ErrorPayload (lit "Tool 'tool_missing' not available.")]>
          (∅ : gmap str (ToolResult (list nat)))))
  = list_to_set (name <$> [call_of "outages"; call_of "tool_missing"]).
Proof.
  apply (returned_keys_are_the_batch_names sample_env
           [call_of "outages"; call_of "tool_missing"] 0).
  vm_compute. reflexivity.
Defined.

Lemma raised_exception_comes_from_the_last_call_awaited_witness :
  let batch := [call_of "outages"; call_of "cinemas"; call_of "performances"] in
  let r := execute_tools_sequentially sample_env batch 0 in
  ∃ pre c post st1 tool_func,
    batch = pre ++ c :: post
    ∧ exec_loop sample_env 0 pre (mkExecState ∅ 0 []) = Continue st1
    ∧ TOOL_REGISTRY sample_env !! name c = Some tool_func
    ∧ last (calls_awaited r) = Some (length pre, c)
    ∧ transaction r = RolledBack
    ∧ match tool_func (model_dump_exclude_name c) (db st1) with
      | (inl e', _) => e' = lit "Tool execution failed"
      | (inr raw_results, _) =>
          ∃ formatter, TOOL_FORMATTERS sample_env !! name c = Some formatter
            ∧ call_formatter formatter (name c) (model_dump_exclude_name c)
                raw_results = inl (lit "Tool execution failed")
            ∧ is_Exception sample_env (lit "Tool execution failed") = false
      end.
Proof.
  intros batch r.
  apply (raised_exception_comes_from_the_last_call_awaited sample_env batch 0).
  vm_compute. reflexivity.
Defined.

(** The unit test of the formatter failure, with calls around it. *)
Lemma formatting_failure_is_recorded_and_the_batch_goes_on_witness :
  let pre := [call_of "outages"] in
  let c := call_of "performances" in
  let post := [call_of "history"] in
  let entry := ErrorPayload (msg_failed_to_format (name c)) in
  let st2 := set_result (name c) entry
               (set_db 2 (log_await (length pre) c
                            (mkExecState
                               (<[lit "outages" := Formatted (lit "outages: 07")]> ∅)
                               1 [(0, call_of "outages")]))) in
  let r := execute_tools_sequentially sample_env (pre ++ c :: post) 0 in
  exec_loop sample_env 0 (pre ++ c :: post) (mkExecState ∅ 0 [])
    = exec_loop sample_env (S (length pre)) post st2
  ∧ match outcome r with
    | Returned M => M !! name c = Some entry ∧ transaction r = Committed
    | Raised e =>
        ∃ st', exec_loop sample_env (S (length pre)) post st2 = Abort e st'
    end.
Proof.
  intros pre c post.
  apply (formatting_failure_is_recorded_and_the_batch_goes_on sample_env
           pre post c 0 _ (fun _ d => (inr [d], S d)) [1] 2
           (fun raw _ => inl (lit "TypeError")) (lit "TypeError")).
  - vm_compute. reflexivity.
  - vm_compute. reflexivity.
  - reflexivity.
  - vm_compute. reflexivity.
  - reflexivity.
  - vm_compute. reflexivity.
  - repeat constructor. vm_compute. discriminate.
Defined.

End BatchFacts.

(* ===================================================================== *)
(** ** More on normalised text: what it is made of, how it splits        *)
(* ===================================================================== *)

Module TextFacts.
Import NormalizeFacts.

(** White space in a collapsed text is the space character. *)
Lemma collapsed_spaces (s : str) : forall in_run,
  collapsed in_run s = true ->
  Forall (fun c => isspace c = true -> c = 32%N) s.
Proof.
  induction s as [|c r IH]; intros b; simpl; [constructor|].
  destruct (isspace c) eqn:Hc.
  - intros H. apply andb_prop in H as [H Hr]. apply andb_prop in H as [H32 _].
    apply N.eqb_eq in H32. constructor; [done|]. by apply (IH true).
  - intros Hr. constructor; [congruence|]. by apply (IH false).
Qed.

(** No two white-space characters stand side by side in it. *)
Lemma collapsed_no_double (s : str) : forall in_run i c d,
  collapsed in_run s = true ->
  s !! i = Some c -> s !! S i = Some d -> isspace c = true -> isspace d = false.
Proof.
  induction s as [|x r IH]; intros b i c d; simpl; [done|].
  destruct i as [|i]; simpl.
  - intros H [= ->] Hd Hc. rewrite Hc in H.
    apply andb_prop in H as [_ Hr].
    destruct r as [|y r']; [done|]. simpl in Hd. injection Hd as ->.
    simpl in Hr. destruct (isspace d); [|done].
    apply andb_prop in Hr as [Hr _]. apply andb_prop in Hr as [_ Hr]. done.
  - intros H Hc Hd. destruct (isspace x).
    + apply andb_prop in H as [_ Hr]. by apply (IH true i c d).
    + by apply (IH false i c d).
Qed.

(** A collapsed text that does not start with white space. *)
Lemma collapsed_after_run (s : str) :
  collapsed false s = true ->
  (forall c, head s = Some c -> isspace c = false) ->
  collapsed true s = true.
Proof.
  destruct s as [|c r]; [done|]. simpl. intros H Hh.
  by rewrite (Hh c eq_refl) in *.
Qed.

(** *** [str.split] on a collapsed text *)

Lemma split_from_not_nil (s word : str) :
  word <> [] -> split_from word s <> [].
Proof.
  revert word. induction s as [|c r IH]; intros word Hw; simpl.
  - by destruct word.
  - destruct (isspace c); [by destruct word|]. apply IH. by destruct word.
Qed.

Lemma str_join_cons (sep w : str) (rest : list str) :
  rest <> [] -> str_join sep (w :: rest) = w ++ sep ++ str_join sep rest.
Proof. by destruct rest. Qed.

(** The words of a text without white space at its end and without
    two white-space characters in a row, joined again by [sep]: the text
    with [sep] in the place of every space. *)
Lemma join_split_from (sep : str) (s : str) : forall word,
  collapsed (negb (truthy word)) s = true ->
  (forall c, last s = Some c -> isspace c = false) ->
  word <> [] \/ s <> [] ->
  str_join sep (split_from word s)
  = word ++ flat_map (fun c => if (c =? 32)%N then sep else [c]) s.
Proof.
  induction s as [|c r IH]; intros word Hcol Hlast Hne.
  - destruct Hne as [Hne|]; [|done]. destruct word; [done|]. simpl.
    by rewrite app_nil_r.
  - cbn [split_from flat_map]. simpl in Hcol. destruct (isspace c) eqn:Hc.
    + apply andb_prop in Hcol as [Hcol Hr]. apply andb_prop in Hcol as [H32 Hw].
      apply N.eqb_eq in H32. subst c. rewrite N.eqb_refl.
      destruct word as [|w0 word]; [done|].
      change (truthy (w0 :: word)) with true. cbn match.
      assert (r <> []) as Hr0.
      { intros ->. by specialize (Hlast 32%N eq_refl). }
      assert (forall c, last r = Some c -> isspace c = false) as Hlast'.
      { intros c Hl. apply Hlast. destruct r; [done|]. exact Hl. }
      assert (split_from [] r <> []) as Hsp.
      { destruct r as [|d r']; [done|]. simpl in Hr. simpl.
        destruct (isspace d).
        - apply andb_prop in Hr as [Hr _]. by apply andb_prop in Hr as [_ Hr].
        - by apply split_from_not_nil. }
      rewrite str_join_cons by done.
      by rewrite (IH [] Hr Hlast' (or_intror Hr0)).
    + assert (c <> 32%N) as H32 by (by intros ->).
      apply N.eqb_neq in H32. rewrite H32.
      assert (forall c, last r = Some c -> isspace c = false) as Hlast'.
      { intros d Hl. destruct r as [|x r']; [done|]. apply Hlast. exact Hl. }
      rewrite IH; [by rewrite <- app_assoc| |done|].
      * by destruct word.
      * left. by destruct word.
Qed.

(** Every word of a text is made of characters of the running word and
    of the text that are not white space. *)
Lemma split_from_Forall (P : codepoint -> Prop) (s : str) : forall word,
  Forall P word -> Forall (fun c => isspace c = false -> P c) s ->
  Forall (Forall P) (split_from word s).
Proof.
  induction s as [|c r IH]; intros word Hw Hs; simpl.
  - destruct word; simpl; [constructor|]. constructor; [done|constructor].
  - apply Forall_cons in Hs as [Hc Hs]. destruct (isspace c) eqn:E.
    + destruct word; simpl; [by apply IH|]. constructor; [done|]. by apply IH.
    + apply IH; [|done]. apply Forall_app. split; [done|].
      constructor; [by apply Hc|constructor].
Qed.

(** [re.escape] leaves a character alone when it is neither punctuation
    nor white space. *)
Lemma re_special_chars_spec (c : codepoint) :
  c ∈ re_special_chars -> c ∈ punctuation_to_remove \/ isspace c = true.
Proof.
  unfold re_special_chars. intros Hin.
  repeat (apply elem_of_cons in Hin as [-> | Hin];
          [first [by right | left; apply list_elem_of_In; vm_compute; tauto]|]).
  by apply elem_of_nil in Hin.
Qed.

Lemma re_escape_id (word : str) :
  Forall (fun c => (c ∉ punctuation_to_remove) /\ isspace c = false) word ->
  re_escape word = word.
Proof.
  unfold re_escape. induction 1 as [|c r [Hp Hs] _ IH]; simpl; [done|].
  rewrite IH. rewrite bool_decide_eq_false_2; [done|].
  intros [H|H]%re_special_chars_spec; [done|congruence].
Qed.

Section WithUnicode.

Context {U : UnicodeData} {F : UnicodeFacts U}.

(** What [normalize_text] returns on a string is the outcome of the last
    steps, or the empty text. *)
Lemma normalize_text_Some (text : option str) (y : str) :
  normalize_text text = Some y ->
  y = [] \/ exists decomposed, y = strip_marks_and_punctuation decomposed.
Proof.
  destruct text as [text|]; [|done]. unfold normalize_text.
  destruct (truthy text); simpl; intros [= <-]; [right; eauto | by left].
Qed.

Lemma normalize_text_settled (text : option str) (y : str) :
  normalize_text text = Some y ->
  Forall plain y /\ no_edge_space y /\ collapsed false y = true.
Proof.
  intros [-> | (decomposed & ->)]%normalize_text_Some.
  { split; [constructor|]. by split. }
  split; [apply stripped_text_is_plain|apply stripped_text_is_settled].
Qed.

(** X5.  The text returned by [normalize_text] holds no nonspacing mark, no
    final sigma and no punctuation; its white space is the space
    character, never at either end and never twice in a row. *)
Theorem normalized_text_is_clean (text : option str) (y : str) :
  normalize_text text = Some y ->
  Forall (fun c => category_Mn c = false /\ c <> final_sigma
                   /\ (c ∉ punctuation_to_remove)
                   /\ (isspace c = true -> c = 32%N)) y
  /\ no_edge_space y
  /\ (forall i, y !! i = Some 32%N -> y !! S i <> Some 32%N).
Proof.
  intros (Hp & He & Hc)%normalize_text_settled.
  split; [|split; [done|]].
  - pose proof (collapsed_spaces _ _ Hc) as Hs.
    apply Forall_forall. intros c Hin.
    destruct (proj1 (Forall_forall _ _) Hp c Hin) as (H1 & H2 & H3).
    repeat split; try done. by apply (proj1 (Forall_forall _ _) Hs c Hin).
  - intros i Hi Hsi.
    by pose proof (collapsed_no_double _ _ _ _ _ Hc Hi Hsi eq_refl).
Qed.

End WithUnicode.

(** The name of a hospital, as the tests of the regex builder write it. *)
Lemma normalized_text_is_clean_witness :
  let y := lit "αγιοσ δημητριοσ" in
  Forall (fun c => category_Mn (UnicodeData := unicode_excerpt) c = false
                   /\ c <> final_sigma
                   /\ (c ∉ punctuation_to_remove)
                   /\ (isspace c = true -> c = 32%N)) y
  /\ no_edge_space y
  /\ (forall i, y !! i = Some 32%N -> y !! S i <> Some 32%N).
Proof.
  apply (normalized_text_is_clean (U := unicode_excerpt)
           (F := unicode_excerpt_facts) (Some (lit "  Άγιος   Δημήτριος. "))).
  vm_compute. reflexivity.
Defined.

End TextFacts.

(* ===================================================================== *)
(** ** More on the filter builders                                        *)
(* ===================================================================== *)

Module FilterFacts.
Import BuilderFacts.

Lemma attempted_idempotent (terms : list str) :
  attempted_entries (attempted_entries terms) = attempted_entries terms.
Proof.
  unfold attempted_entries. induction terms as [|t terms IH]; simpl; [done|].
  destruct (negb _) eqn:E; simpl; [|done]. by rewrite E, IH.
Qed.

Lemma attempted_not_wildcard (terms : list str) :
  attempted_entries terms <> [wildcard].
Proof.
  unfold attempted_entries. induction terms as [|t terms IH]; simpl; [done|].
  destruct (negb _) eqn:E; [|done]. intros [= -> _]. done.
Qed.

Section WithContext.

Context {U : UnicodeData} {S : Settings}.

Lemma parsed_attempted (dates : list str) :
  parsed_dates (attempted_entries dates) = parsed_dates dates.
Proof. unfold parsed_dates. by rewrite attempted_idempotent. Qed.

Lemma valid_terms_attempted (terms : list str) :
  valid_terms_normalized (attempted_entries terms) = valid_terms_normalized terms.
Proof.
  unfold valid_terms_normalized, attempted_entries.
  induction terms as [|t terms IH]; [done|]. cbn [List.filter flat_map].
  destruct (str_eqb t wildcard) eqn:Hw, (truthy t) eqn:Ht;
    cbn [negb orb andb app]; try exact IH.
  cbn [flat_map]. rewrite Hw, Ht. cbn [negb andb]. by rewrite IH.
Qed.

Lemma date_builder_attempted (column : Column) (dates : list str) :
  (if bool_decide (dates = [wildcard]) then None
   else date_filter_result column (date_loop dates [] false))
  = (if bool_decide (attempted_entries dates = [wildcard]) then None
     else date_filter_result column (date_loop (attempted_entries dates) [] false)).
Proof.
  rewrite (bool_decide_eq_false_2 (attempted_entries dates = _))
    by apply attempted_not_wildcard.
  rewrite !date_filter_result_spec, parsed_attempted, attempted_idempotent.
  case_bool_decide as Hw; [|done]. by subst dates.
Qed.

Lemma cinema_conditions_attempted (f : str -> list ColumnElement) (terms : list str) :
  flat_map (fun t => if str_eqb t wildcard || negb (truthy t) then [] else f t)
    (attempted_entries terms)
  = flat_map (fun t => if str_eqb t wildcard || negb (truthy t) then [] else f t)
      terms.
Proof.
  unfold attempted_entries. induction terms as [|t terms IH]; [done|].
  cbn [List.filter flat_map].
  destruct (str_eqb t wildcard || negb (truthy t)) eqn:E; cbn [negb app];
    [exact IH|].
  cbn [flat_map]. by rewrite E, IH.
Qed.

(** X6.  Wildcards and empty strings inside a list are passed over: every
    builder that reads a list gives the filter it gives on the list
    without them. *)
Theorem sentinel_entries_are_inert (terms : list str) :
  Forall (fun builder : list str -> option ColumnElement =>
            builder terms = builder (attempted_entries terms))
    list_filter_builders.
Proof.
  pose proof (attempted_not_wildcard terms) as Hnw.
  assert (forall (G : list str -> option ColumnElement),
            G [] = None -> G terms = G (attempted_entries terms) ->
            (if bool_decide (terms = [wildcard]) then None else G terms)
            = (if bool_decide (attempted_entries terms = [wildcard]) then None
               else G (attempted_entries terms))) as Hguard.
  { intros G Hnil HG. rewrite (bool_decide_eq_false_2 (attempted_entries terms = _))
      by done.
    case_bool_decide as Hw; [|done]. subst terms.
    change (attempted_entries [wildcard]) with (@nil str). by rewrite Hnil. }
  unfold list_filter_builders.
  repeat apply Forall_cons_2; try apply Forall_nil_2; try reflexivity.
  - apply date_builder_attempted.
  - apply date_builder_attempted.
  - unfold _build_movie_filter, build_fuzzy_conditions.
    apply (Hguard (fun l => match _ ++ _ ++ _ with [] => None | _ => _ end));
      [done|]. by rewrite valid_terms_attempted.
  - unfold _build_genre_filter, build_fuzzy_conditions, build_regex_conditions.
    rewrite (bool_decide_eq_false_2 (attempted_entries terms = [wildcard])) by done.
    rewrite valid_terms_attempted.
    destruct (decide (terms = [wildcard])) as [->|Hw]; [done|].
    rewrite (bool_decide_eq_false_2 (terms = [wildcard])) by done.
    destruct (decide (terms = [])) as [->|Hn]; [done|].
    rewrite (bool_decide_eq_false_2 (terms = [])) by done. cbn [orb].
    destruct (decide (attempted_entries terms = [])) as [Ha|Ha].
    + rewrite (bool_decide_eq_true_2 _ Ha).
      pose proof (valid_terms_attempted terms) as Hv. rewrite Ha in Hv.
      by rewrite <- Hv.
    + by rewrite (bool_decide_eq_false_2 _ Ha).
  - unfold _build_cinema_filter.
    apply (Hguard (fun l => match flat_map _ l with [] => None | _ => _ end));
      [done|]. by rewrite cinema_conditions_attempted.
  - apply date_builder_attempted.
  - unfold _build_hospital_name_filter, build_fuzzy_conditions,
      build_regex_conditions.
    apply (Hguard (fun l => match _ ++ _ with [] => None | _ => _ end));
      [done|]. by rewrite valid_terms_attempted.
  - unfold _build_specialties_filter. by do 2 destruct (_ || _).
  - apply date_builder_attempted.
  - unfold _build_performance_name_filter, build_fuzzy_conditions.
    apply (Hguard (fun l => match List.map _ (valid_terms_normalized l) with
                            | [] => None | _ => _ end));
      [done|]. by rewrite valid_terms_attempted.
  - unfold _build_performance_location_filter, build_fuzzy_conditions.
    apply (Hguard (fun l => match List.map _ (valid_terms_normalized l) with
                            | [] => None | _ => _ end));
      [done|]. by rewrite valid_terms_attempted.
Qed.

(** *** The WHERE clause of a statement *)

Lemma and3_true (a b : option bool) :
  bool_decide (and3 a b = Some true)
  = bool_decide (a = Some true) && bool_decide (b = Some true).
Proof. by destruct a as [[]|], b as [[]|]. Qed.

Lemma and3_true_r (a b : option bool) :
  bool_decide (and3 a (and3 b (Some true)) = Some true)
  = bool_decide (a = Some true) && bool_decide (b = Some true).
Proof. by destruct a as [[]|], b as [[]|]. Qed.

Lemma eval_And (pg : Postgres) (row : Row) (filters : list ColumnElement) :
  bool_decide (eval pg row (And_ filters) = Some true)
  = forallb (fun f => matches pg (Some f) row) filters.
Proof.
  induction filters as [|f filters IH]; [done|].
  cbn [forallb]. rewrite <- IH. simpl. apply and3_true.
Qed.

Lemma matches_apply_filters (pg : Postgres) (row : Row) filters (stmt : Select) :
  whereclause stmt = None ->
  matches pg (whereclause (apply_filters filters stmt)) row
  = forallb (fun f => matches pg (Some f) row) filters.
Proof.
  intros Hnone. destruct filters as [|f filters]; [simpl; by rewrite Hnone|].
  unfold apply_filters, where_. cbn [whereclause]. rewrite Hnone.
  apply (eval_And pg row (f :: filters)).
Qed.

Lemma forallb_append_filter (pg : Postgres) (row : Row) filters f :
  forallb (fun f => matches pg (Some f) row) (append_filter filters f)
  = forallb (fun f => matches pg (Some f) row) filters && matches pg f row.
Proof.
  destruct f as [f|]; simpl; [|by rewrite andb_true_r].
  rewrite forallb_app. simpl. by rewrite andb_true_r.
Qed.

(** X7.  The WHERE clause of every statement selects a row exactly when each
    field's filter does: the fields are combined by AND, a field without
    filter imposes nothing, and the fields whose builders are
    placeholders are not consulted. *)
Theorem where_clause_is_the_conjunction_of_the_field_filters
    (pg : Postgres) (row : Row) :
  (forall outage_dates outage_type locations affected_areas,
     matches pg
       (whereclause
          (build_outages_statement outage_dates outage_type locations
             affected_areas)) row
     = matches pg (_build_outage_date_filter outage_dates) row
       && matches pg (_build_outage_type_filter outage_type) row)
  /\ (forall screening_dates movies cinemas halls_and_screening_times genres yr,
        matches pg
          (whereclause
             (build_cinemas_statement screening_dates movies cinemas
                halls_and_screening_times genres yr)) row
        = matches pg (_build_screening_date_filter screening_dates) row
          && matches pg (_build_movie_filter movies) row
          && matches pg (_build_cinema_filter cinemas) row
          && matches pg (_build_genre_filter genres) row
          && matches pg (_build_year_filter yr) row)
  /\ (forall hospital_shift_dates hospital_names start_time end_time
             specialty_terms include_contact_info,
        matches pg
          (whereclause
             (build_hospital_shifts_statement hospital_shift_dates hospital_names
                start_time end_time specialty_terms include_contact_info)) row
        = matches pg (_build_hospital_shift_date_filter hospital_shift_dates) row
          && matches pg (_build_hospital_name_filter hospital_names) row
          && matches pg (_build_hospital_shift_time_filter start_time end_time) row)
  /\ (forall performance_dates performance_names performance_locations
             performance_type,
        matches pg
          (whereclause
             (build_performances_statement performance_dates performance_names
                performance_locations performance_type)) row
        = matches pg (_build_performance_date_filter performance_dates) row
          && matches pg (_build_performance_name_filter performance_names) row
          && matches pg (_build_performance_location_filter performance_locations) row
          && matches pg (_build_performance_type_filter performance_type) row).
Proof.
  repeat split; intros.
  - unfold build_outages_statement. cbn [order_by whereclause].
    rewrite matches_apply_filters by done.
    rewrite !forallb_append_filter.
    unfold _build_outage_location_filter, _build_outage_affected_areas_filter.
    change (matches pg None row) with true.
    by rewrite !andb_true_r.
  - unfold build_cinemas_statement. cbn [order_by whereclause].
    destruct halls_and_screening_times; cbn [negb distinct whereclause];
      rewrite matches_apply_filters by done;
      by rewrite !forallb_append_filter.
  - unfold build_hospital_shifts_statement. cbn [order_by whereclause].
    rewrite matches_apply_filters by done.
    rewrite !forallb_append_filter.
    assert (_build_specialties_filter specialty_terms = None) as ->
      by (unfold _build_specialties_filter; by destruct (_ || _)).
    change (matches pg None row) with true.
    by rewrite !andb_true_r.
  - unfold build_performances_statement. cbn [order_by whereclause].
    rewrite matches_apply_filters by done.
    by rewrite !forallb_append_filter.
Qed.

(** *** Terms that normalise to nothing *)

Lemma valid_terms_wildcard : valid_terms_normalized [wildcard] = [].
Proof. reflexivity. Qed.

(** The builders that match names give no filter exactly when no term is
    left after the wildcards, the empty strings and the terms whose
    normal form is empty are passed over. *)
Lemma name_filter_absent_iff (terms : list str) :
  Forall (fun builder : list str -> option ColumnElement =>
            builder terms = None <-> valid_terms_normalized terms = [])
    [_build_movie_filter; _build_genre_filter; _build_hospital_name_filter;
     _build_performance_name_filter; _build_performance_location_filter].
Proof.
  repeat apply Forall_cons_2; try apply Forall_nil_2.
  - unfold _build_movie_filter, build_fuzzy_conditions.
    case_bool_decide as Hw; [by subst terms|].
    by destruct (valid_terms_normalized terms).
  - unfold _build_genre_filter, build_fuzzy_conditions, build_regex_conditions.
    destruct (decide (terms = [wildcard])) as [->|Hw]; [done|].
    rewrite (bool_decide_eq_false_2 (terms = [wildcard])) by done.
    destruct (decide (terms = [])) as [->|Hn]; [done|].
    rewrite (bool_decide_eq_false_2 (terms = [])) by done. cbn [orb].
    destruct (valid_terms_normalized terms) as [|y ys]; [done|].
    split; [|done]. cbn [flat_map List.map].
    destruct (_ ++ _ :: _) eqn:E; [|done].
    symmetry in E. by apply app_cons_not_nil in E.
  - unfold _build_hospital_name_filter, build_fuzzy_conditions,
      build_regex_conditions.
    case_bool_decide as Hw; [by subst terms|].
    destruct (valid_terms_normalized terms) as [|y ys]; [done|].
    split; [|done]. cbn [flat_map List.map].
    destruct (_ ++ _ :: _) as [|c [|c' l]] eqn:E; [|done..].
    symmetry in E. by apply app_cons_not_nil in E.
  - unfold _build_performance_name_filter, build_fuzzy_conditions.
    case_bool_decide as Hw; [by subst terms|].
    by destruct (valid_terms_normalized terms).
  - unfold _build_performance_location_filter, build_fuzzy_conditions.
    case_bool_decide as Hw; [by subst terms|].
    by destruct (valid_terms_normalized terms).
Qed.

(** The name builders read their argument through the normalised terms
    only: the tests on the wildcard list and on the empty list agree with
    what the normalised terms give. *)
Lemma name_filter_of_valid_terms (terms terms' : list str) :
  valid_terms_normalized terms = valid_terms_normalized terms' ->
  Forall (fun builder : list str -> option ColumnElement =>
            builder terms = builder terms')
    [_build_movie_filter; _build_genre_filter; _build_hospital_name_filter;
     _build_performance_name_filter; _build_performance_location_filter].
Proof.
  intros Heq.
  pose proof (name_filter_absent_iff terms) as Ha.
  pose proof (name_filter_absent_iff terms') as Hb.
  destruct (valid_terms_normalized terms) as [|y ys] eqn:Hv.
  { symmetry in Heq.
    repeat (apply Forall_cons_1 in Ha as [? Ha]).
    repeat (apply Forall_cons_1 in Hb as [? Hb]).
    repeat apply Forall_cons_2; try apply Forall_nil_2;
      match goal with
      | H1 : ?b terms = None <-> _, H2 : ?b terms' = None <-> _
        |- ?b terms = ?b terms' =>
          rewrite (proj2 H1 eq_refl), (proj2 H2 Heq); reflexivity
      end. }
  clear Ha Hb.
  assert (terms <> [wildcard]) as Hw.
  { intros ->. by rewrite valid_terms_wildcard in Hv. }
  assert (terms <> []) as Hn by (by intros ->).
  assert (terms' <> [wildcard]) as Hw'.
  { intros ->. by rewrite valid_terms_wildcard in Heq. }
  assert (terms' <> []) as Hn' by (by intros ->).
  repeat apply Forall_cons_2; try apply Forall_nil_2;
    unfold _build_movie_filter, _build_genre_filter, _build_hospital_name_filter,
      _build_performance_name_filter, _build_performance_location_filter,
      build_fuzzy_conditions, build_regex_conditions;
    rewrite ?(bool_decide_eq_false_2 (terms = [wildcard])),
      ?(bool_decide_eq_false_2 (terms = [])),
      ?(bool_decide_eq_false_2 (terms' = [wildcard])),
      ?(bool_decide_eq_false_2 (terms' = [])) by done;
    by rewrite Hv, <- Heq.
Qed.

Lemma lstrip_white_space (s : str) :
  Forall (fun c => isspace c = true) s -> lstrip s = [].
Proof. induction 1 as [|c s Hc _ IH]; simpl; [done|]. by rewrite Hc. Qed.

(** A text of nonspacing marks, punctuation and white space: the marks
    and the punctuation are removed, what is left is stripped away. *)
Lemma strip_marks_and_punctuation_nothing_left (decomposed : str) :
  Forall (fun c => category_Mn c = true \/ c ∈ punctuation_to_remove
                   \/ isspace c = true) decomposed ->
  strip_marks_and_punctuation decomposed = [].
Proof.
  intros Hall. unfold strip_marks_and_punctuation, strip, rstrip.
  assert (Forall (fun c => isspace c = true)
            (translate_remove punctuation_to_remove
               (replace_char final_sigma small_sigma
                  (List.filter (fun c => negb (category_Mn c)) decomposed)))) as Hsp.
  { induction Hall as [|c d Hc _ IH]; [constructor|].
    cbn [List.filter]. destruct (category_Mn c) eqn:HMn; cbn [negb]; [exact IH|].
    assert (c ∈ punctuation_to_remove \/ isspace c = true) as Hc'
      by (destruct Hc as [Hc|Hc]; [congruence|exact Hc]).
    assert ((c =? final_sigma)%N = false) as Hs.
    { apply N.eqb_neq. intros ->. destruct Hc' as [Hp|Hp].
      - apply (bool_decide_pack _) in Hp. vm_compute in Hp. destruct Hp.
      - vm_compute in Hp. discriminate. }
    unfold replace_char, translate_remove in *. cbn [List.map List.filter].
    rewrite Hs. case_bool_decide as Hp; cbn [negb]; [exact IH|].
    constructor; [|exact IH]. by destruct Hc'. }
  rewrite (lstrip_white_space _ Hsp). reflexivity.
Qed.

Lemma valid_terms_app (terms terms' : list str) :
  valid_terms_normalized (terms ++ terms')
  = valid_terms_normalized terms ++ valid_terms_normalized terms'.
Proof. unfold valid_terms_normalized. apply flat_map_app. Qed.

(** X8.  A term whose lower-cased, decomposed form holds nothing but
    nonspacing marks, punctuation and white space, a term made of
    punctuation alone for one, restricts nothing: its normal form is
    empty, the comprehension passes it over, so that it adds no fuzzy and
    no regular-expression condition, every name builder gives for a list
    with it the filter it gives for the list without it, and no filter
    for the term alone. *)
Theorem punctuation_only_term_restricts_nothing
    (before after : list str) (term : str) :
  Forall (fun c => category_Mn c = true \/ c ∈ punctuation_to_remove
                   \/ isspace c = true) (decomposed_lower term) ->
  normalize_text (Some term) = Some []
  /\ valid_terms_normalized (before ++ term :: after)
     = valid_terms_normalized (before ++ after)
  /\ (forall column threshold,
        build_fuzzy_conditions column (before ++ term :: after) threshold
        = build_fuzzy_conditions column (before ++ after) threshold)
  /\ (forall column,
        build_regex_conditions column (before ++ term :: after)
        = build_regex_conditions column (before ++ after))
  /\ Forall (fun builder : list str -> option ColumnElement =>
               builder (before ++ term :: after) = builder (before ++ after)
               /\ builder [term] = None)
       [_build_movie_filter; _build_genre_filter; _build_hospital_name_filter;
        _build_performance_name_filter; _build_performance_location_filter].
Proof.
  intros Hall.
  assert (normalize_text (Some term) = Some []) as Hnorm.
  { unfold normalize_text. destruct (truthy term); cbn [negb]; [|done].
    by rewrite strip_marks_and_punctuation_nothing_left. }
  assert (valid_terms_normalized [term] = []) as Hone.
  { unfold valid_terms_normalized. cbn [flat_map]. rewrite Hnorm.
    by destruct (negb _ && _). }
  assert (valid_terms_normalized (before ++ term :: after)
          = valid_terms_normalized (before ++ after)) as Hsame.
  { change (term :: after) with ([term] ++ after).
    by rewrite !valid_terms_app, Hone. }
  split; [exact Hnorm|]. split; [exact Hsame|].
  split; [intros column threshold; unfold build_fuzzy_conditions; by rewrite Hsame|].
  split; [intros column; unfold build_regex_conditions; by rewrite Hsame|].
  pose proof (name_filter_of_valid_terms _ _ Hsame) as Hb.
  pose proof (name_filter_absent_iff [term]) as Ha.
  repeat (apply Forall_cons_1 in Ha as [? Ha]).
  repeat (apply Forall_cons_1 in Hb as [? Hb]).
  repeat apply Forall_cons_2; try apply Forall_nil_2;
    match goal with
    | H1 : ?b [term] = None <-> _, H2 : ?b _ = ?b _ |- ?b _ = ?b _ /\ _ =>
        split; [exact H2|exact (proj2 H1 Hone)]
    end.
Qed.

(** *** The time bounds of a hospital-shift query *)

Lemma strptime_time_ok_wildcard : strptime_time_ok wildcard = false.
Proof.
  unfold strptime_time_ok, match_HMS. change wildcard with [42%N]. simpl.
  by destruct (decimal 42%N).
Qed.

Lemma wildcard_bound_is_no_time {A} (s : str) (a b : A) :
  (if negb (str_eqb s wildcard) then (if strptime_time_ok s then a else b) else b)
  = (if strptime_time_ok s then a else b).
Proof.
  unfold str_eqb. case_bool_decide as Hw; [|done]. subst s.
  by rewrite strptime_time_ok_wildcard.
Qed.

(** X9.  A bound is applied exactly when it reads as a time, and the two
    bounds are combined by AND; a bound that is the wildcard, or that
    does not read as a time, is dropped and restricts nothing. *)
Theorem time_bounds_apply_only_when_they_parse
    (pg : Postgres) (row : Row) (start_time_str end_time_str : str) :
  matches pg (_build_hospital_shift_time_filter start_time_str end_time_str) row
  = (if strptime_time_ok start_time_str
     then matches pg
            (Some (GeStr HospitalShift_hospital_shift_start_time start_time_str)) row
     else true)
    && (if strptime_time_ok end_time_str
        then matches pg
               (Some (LeStr HospitalShift_hospital_shift_end_time end_time_str)) row
        else true).
Proof.
  unfold _build_hospital_shift_time_filter.
  rewrite (wildcard_bound_is_no_time start_time_str).
  destruct (strptime_time_ok start_time_str);
    rewrite (wildcard_bound_is_no_time end_time_str);
    destruct (strptime_time_ok end_time_str); cbn [app]; try done.
  - unfold matches. simpl. apply and3_true_r.
  - cbn [matches]. by rewrite andb_true_r.
Qed.

End WithContext.

Section WithFacts.

Context {U : UnicodeData} {F : UnicodeFacts U} {S : Settings}.

(** *** Dates written in ISO form *)

Lemma isoformat_is_attempted (d : date) :
  negb (str_eqb (isoformat d) wildcard || negb (truthy (isoformat d))) = true.
Proof.
  unfold isoformat, four_digits, str_eqb. cbn [app truthy].
  change wildcard with [42%N]. by rewrite bool_decide_eq_false_2.
Qed.

Lemma attempted_isoformat (ds : list date) :
  attempted_entries (List.map isoformat ds) = List.map isoformat ds.
Proof.
  unfold attempted_entries. induction ds as [|d ds IH]; [done|].
  cbn [List.map List.filter]. by rewrite isoformat_is_attempted, IH.
Qed.

Lemma parsed_isoformat (ds : list date) :
  Forall (fun d => make_date (year d) (month d) (day d) = Some d) ds ->
  parsed_dates (List.map isoformat ds) = ds.
Proof.
  unfold parsed_dates. rewrite attempted_isoformat.
  induction 1 as [|d ds Hd _ IH]; [done|]. cbn [List.map omap].
  unfold omap in *. cbn [list_omap]. fold (@list_omap).
  by rewrite (DateTimeFacts.strptime_date_isoformat d Hd), IH.
Qed.

(** X10.  Dates of the calendar written as "YYYY-MM-DD" are read back as
    they are: on a non-empty list of them every date builder gives the
    IN filter over exactly these dates, in the order given. *)
Theorem iso_dates_are_read_back (ds : list date) :
  ds <> [] ->
  Forall (fun d => make_date (year d) (month d) (day d) = Some d) ds ->
  Forall (fun bc : (list str -> option ColumnElement) * Column =>
            fst bc (List.map isoformat ds) = Some (In_ (snd bc) ds))
    date_filter_builders.
Proof.
  intros Hne Hds. eapply Forall_impl; [apply date_builders_spec|].
  intros [b c] Hb. simpl in *. rewrite Hb, (parsed_isoformat ds Hds).
  by destruct ds.
Qed.

(** *** Clock times written as "HH:MM:SS" *)

Lemma re_range_ascii (lo hi k : N) (r : str) :
  (lo <= k <= hi)%N -> re_range lo hi ((48 + k)%N :: r) = Some (k, r).
Proof.
  intros [Hlo Hhi]. unfold re_range.
  assert ((48 + lo <=? 48 + k)%N = true) as -> by (apply N.leb_le; lia).
  assert ((48 + k <=? 48 + hi)%N = true) as -> by (apply N.leb_le; lia).
  simpl. by replace (48 + k - 48)%N with k by lia.
Qed.

Lemma re_range_other (lo hi k : N) (r : str) :
  (k < lo \/ hi < k)%N -> re_range lo hi ((48 + k)%N :: r) = None.
Proof.
  intros Hk. unfold re_range.
  destruct (48 + lo <=? 48 + k)%N eqn:E1; [|done].
  destruct (48 + k <=? 48 + hi)%N eqn:E2; [|done].
  apply N.leb_le in E1, E2. lia.
Qed.

Lemma two_digits_value (n : N) : (10 * (n / 10) + n mod 10 = n)%N.
Proof. symmetry. apply N.div_mod. done. Qed.

Lemma re_H_two_digits {A} (h : N) (k : N -> str -> option A) (r : str) (a : A) :
  (h < 24)%N -> k h r = Some a ->
  re_alt re_H k (two_digits h ++ r) = Some a.
Proof.
  intros Hh Hk. unfold re_H, two_digits. cbn [app re_alt].
  assert (h mod 10 < 10)%N as Hm by (by apply N.mod_lt).
  pose proof (N.le_0_l (h mod 10)) as H0.
  pose proof (N.le_0_l (h / 10)) as H0'.
  pose proof (two_digits_value h) as Hv.
  destruct (decide (h / 10 = 2)%N) as [E|E].
  - unfold re_pair at 1. rewrite E in *.
    rewrite re_range_ascii by lia. rewrite re_range_ascii by lia.
    by rewrite Hv, Hk.
  - assert (h / 10 < 2)%N as Hlt.
    { assert (h / 10 < 3)%N by (apply N.Div0.div_lt_upper_bound; lia). lia. }
    unfold re_pair at 1. rewrite (re_range_other 2 2) by lia.
    unfold re_pair at 1. rewrite re_range_ascii by lia.
    rewrite DateTimeFacts.re_digit_ascii by done.
    by rewrite Hv, Hk.
Qed.

Lemma re_M_two_digits {A} (m : N) (k : N -> str -> option A) (r : str) (a : A) :
  (m < 60)%N -> k m r = Some a ->
  re_alt re_M k (two_digits m ++ r) = Some a.
Proof.
  intros Hm Hk. unfold re_M, two_digits. cbn [app re_alt].
  assert (m mod 10 < 10)%N as Hd by (by apply N.mod_lt).
  pose proof (N.le_0_l (m mod 10)) as H0.
  pose proof (N.le_0_l (m / 10)) as H0'.
  assert (m / 10 < 6)%N as Hlt by (apply N.Div0.div_lt_upper_bound; lia).
  unfold re_pair at 1. rewrite re_range_ascii by lia.
  rewrite DateTimeFacts.re_digit_ascii by done.
  by rewrite two_digits_value, Hk.
Qed.

Lemma re_S_two_digits {A} (s : N) (k : N -> str -> option A) (r : str) (a : A) :
  (s < 60)%N -> k s r = Some a ->
  re_alt re_S k (two_digits s ++ r) = Some a.
Proof.
  intros Hs Hk. unfold re_S, two_digits. cbn [app re_alt].
  assert (s mod 10 < 10)%N as Hd by (by apply N.mod_lt).
  pose proof (N.le_0_l (s mod 10)) as H0.
  pose proof (N.le_0_l (s / 10)) as H0'.
  assert (s / 10 < 6)%N as Hlt by (apply N.Div0.div_lt_upper_bound; lia).
  unfold re_pair at 1. rewrite (re_range_other 6 6) by lia.
  unfold re_pair at 1. rewrite re_range_ascii by lia.
  rewrite DateTimeFacts.re_digit_ascii by done.
  by rewrite two_digits_value, Hk.
Qed.

Lemma strptime_time_ok_strftime (h m s : N) :
  (h < 24)%N -> (m < 60)%N -> (s < 60)%N ->
  strptime_time_ok (strftime_HMS h m s) = true.
Proof.
  intros Hh Hm Hs. unfold strptime_time_ok.
  assert (match_HMS (strftime_HMS h m s) = Some (h, m, s, [])) as ->.
  { unfold match_HMS, strftime_HMS.
    apply re_H_two_digits; [done|]. cbn [app].
    rewrite DateTimeFacts.re_char_cons.
    apply re_M_two_digits; [done|]. cbn [app].
    rewrite DateTimeFacts.re_char_cons.
    rewrite <- (app_nil_r (two_digits s)).
    by apply re_S_two_digits. }
  apply N.leb_le. lia.
Qed.

(** X11.  Clock times written as "HH:MM:SS" are accepted: with two of them as
    bounds the filter asks for a start time at or after the first and an
    end time at or before the second. *)
Theorem clock_times_are_accepted_as_bounds (h m s h' m' s' : N) :
  (h < 24)%N -> (m < 60)%N -> (s < 60)%N ->
  (h' < 24)%N -> (m' < 60)%N -> (s' < 60)%N ->
  _build_hospital_shift_time_filter (strftime_HMS h m s) (strftime_HMS h' m' s')
  = Some (And_ [GeStr HospitalShift_hospital_shift_start_time (strftime_HMS h m s);
                LeStr HospitalShift_hospital_shift_end_time (strftime_HMS h' m' s')]).
Proof.
  intros Hh Hm Hs Hh' Hm' Hs'. unfold _build_hospital_shift_time_filter.
  rewrite !wildcard_bound_is_no_time.
  by rewrite !strptime_time_ok_strftime.
Qed.

(** *** The pattern of a regex condition *)

Lemma valid_terms_settled (terms : list str) :
  Forall (fun y => y <> [] /\ Forall plain y /\ no_edge_space y
                   /\ collapsed false y = true)
    (valid_terms_normalized terms).
Proof.
  unfold valid_terms_normalized. induction terms as [|t terms IH]; [constructor|].
  cbn [flat_map]. apply Forall_app. split; [|exact IH].
  destruct (negb (str_eqb t wildcard) && truthy t); [|constructor].
  destruct (normalize_text (Some t)) as [y|] eqn:E; [|constructor].
  destruct (truthy y) eqn:Ht; [|constructor].
  constructor; [|constructor].
  split; [by destruct y|]. by apply (TextFacts.normalize_text_settled (Some t)).
Qed.

Lemma regex_pattern_of_settled (y : str) :
  y <> [] -> Forall plain y -> no_edge_space y -> collapsed false y = true ->
  split y <> []
  /\ str_join (lit "\M.*\m") (List.map re_escape (split y))
     = flat_map (fun c => if (c =? 32)%N then lit "\M.*\m" else [c]) y.
Proof.
  intros Hne Hp [Hh Hl] Hc. unfold split.
  assert (List.map re_escape (split_from [] y) = split_from [] y) as ->.
  { assert (Forall (Forall (fun c => (c ∉ punctuation_to_remove)
                                      /\ isspace c = false))
              (split_from [] y)) as Hw.
    { apply TextFacts.split_from_Forall; [constructor|].
      eapply Forall_impl; [exact Hp|]. by intros c (_ & _ & ?) ?. }
    induction Hw as [|w ws Hw _ IH]; [done|]. cbn [List.map].
    by rewrite (TextFacts.re_escape_id w Hw), IH. }
  split.
  - destruct y as [|c r]; [done|]. simpl. rewrite (Hh c eq_refl).
    by apply TextFacts.split_from_not_nil.
  - rewrite (TextFacts.join_split_from _ y []); [done| |done|by right].
    by apply TextFacts.collapsed_after_run.
Qed.

(** X12.  Every term that survives normalisation gives one regex condition,
    and [re.escape] has nothing to escape in it: the pattern is the
    normalised term between [\m] and [\M], with [\M.*\m] in the place of
    each space. *)
Theorem regex_pattern_is_the_normalised_term (column : Column) (terms : list str) :
  build_regex_conditions column terms
  = List.map
      (fun y =>
         RegexMatchI column
           (lit "\m" ++ flat_map (fun c => if (c =? 32)%N then lit "\M.*\m" else [c]) y
            ++ lit "\M"))
      (valid_terms_normalized terms).
Proof.
  unfold build_regex_conditions.
  pose proof (valid_terms_settled terms) as Hv.
  induction Hv as [|y ys (Hne & Hp & He & Hc) _ IH]; [done|].
  cbn [flat_map List.map]. rewrite IH.
  destruct (regex_pattern_of_settled y Hne Hp He Hc) as [Hsp ->].
  by destruct (split y).
Qed.

End WithFacts.

(** The term [!!] next to a title, in the excerpt of the database. *)
Lemma punctuation_only_term_restricts_nothing_witness :
  Forall (fun c => category_Mn (UnicodeData := unicode_excerpt) c = true
                   \/ c ∈ punctuation_to_remove \/ isspace c = true)
    (decomposed_lower (U := unicode_excerpt) (lit "!!"))
  /\ normalize_text (U := unicode_excerpt) (Some (lit "!!")) = Some []
  /\ valid_terms_normalized (U := unicode_excerpt)
       ([lit "Matrix"] ++ lit "!!" :: [lit " ; "])
     = valid_terms_normalized (U := unicode_excerpt) ([lit "Matrix"] ++ [lit " ; "])
  /\ (forall column threshold,
        build_fuzzy_conditions (U := unicode_excerpt) (S := sample_settings) column
          ([lit "Matrix"] ++ lit "!!" :: [lit " ; "]) threshold
        = build_fuzzy_conditions (U := unicode_excerpt) (S := sample_settings) column
            ([lit "Matrix"] ++ [lit " ; "]) threshold)
  /\ (forall column,
        build_regex_conditions (U := unicode_excerpt) (S := sample_settings) column
          ([lit "Matrix"] ++ lit "!!" :: [lit " ; "])
        = build_regex_conditions (U := unicode_excerpt) (S := sample_settings) column
            ([lit "Matrix"] ++ [lit " ; "]))
  /\ Forall (fun builder : list str -> option ColumnElement =>
               builder ([lit "Matrix"] ++ lit "!!" :: [lit " ; "])
               = builder ([lit "Matrix"] ++ [lit " ; "])
               /\ builder [lit "!!"] = None)
       [_build_movie_filter (U := unicode_excerpt) (S := sample_settings);
        _build_genre_filter (U := unicode_excerpt) (S := sample_settings);
        _build_hospital_name_filter (U := unicode_excerpt) (S := sample_settings);
        _build_performance_name_filter (U := unicode_excerpt) (S := sample_settings);
        _build_performance_location_filter (U := unicode_excerpt)
          (S := sample_settings)].
Proof.
  assert (Forall (fun c => category_Mn (UnicodeData := unicode_excerpt) c = true
                           \/ c ∈ punctuation_to_remove \/ isspace c = true)
            (decomposed_lower (U := unicode_excerpt) (lit "!!"))) as H.
  { replace (decomposed_lower (U := unicode_excerpt) (lit "!!")) with [33; 33]%N
      by (vm_compute; reflexivity).
    repeat constructor; right; left; apply (bool_decide_unpack _);
      vm_compute; exact I. }
  split; [exact H|].
  exact (punctuation_only_term_restricts_nothing (U := unicode_excerpt)
           (S := sample_settings) [lit "Matrix"] [lit " ; "] (lit "!!") H).
Defined.

Lemma iso_dates_are_read_back_witness :
  Forall (fun bc : (list str -> option ColumnElement) * Column =>
            fst bc (List.map isoformat [mkDate 2024 2 29; mkDate 2025 12 31])
            = Some (In_ (snd bc) [mkDate 2024 2 29; mkDate 2025 12 31]))
    (date_filter_builders (U := unicode_excerpt) (S := sample_settings)).
Proof.
  apply (iso_dates_are_read_back (U := unicode_excerpt)
           (F := NormalizeFacts.unicode_excerpt_facts) (S := sample_settings)
           [mkDate 2024 2 29; mkDate 2025 12 31]).
  - discriminate.
  - repeat constructor.
Defined.

Lemma clock_times_are_accepted_as_bounds_witness :
  _build_hospital_shift_time_filter (U := unicode_excerpt) (S := sample_settings)
    (strftime_HMS 8 0 0) (strftime_HMS 23 59 59)
  = Some (And_ [GeStr HospitalShift_hospital_shift_start_time (strftime_HMS 8 0 0);
                LeStr HospitalShift_hospital_shift_end_time (strftime_HMS 23 59 59)]).
Proof.
  apply (clock_times_are_accepted_as_bounds (U := unicode_excerpt)
           (F := NormalizeFacts.unicode_excerpt_facts) (S := sample_settings)
           8 0 0 23 59 59); lia.
Defined.

Lemma regex_pattern_is_the_normalised_term_witness :
  build_regex_conditions (U := unicode_excerpt) (S := sample_settings)
    HospitalShift_normalized_hospital_name [lit "Άγιος  Δημήτριος"; lit "*"; lit "!!"]
  = List.map
      (fun y =>
         RegexMatchI HospitalShift_normalized_hospital_name
           (lit "\m" ++ flat_map (fun c => if (c =? 32)%N then lit "\M.*\m" else [c]) y
            ++ lit "\M"))
      (valid_terms_normalized (U := unicode_excerpt)
         [lit "Άγιος  Δημήτριος"; lit "*"; lit "!!"]).
Proof.
  exact (regex_pattern_is_the_normalised_term (U := unicode_excerpt)
           (F := NormalizeFacts.unicode_excerpt_facts) (S := sample_settings)
           HospitalShift_normalized_hospital_name
           [lit "Άγιος  Δημήτριος"; lit "*"; lit "!!"]).
Defined.

End FilterFacts.

(* ===================================================================== *)
(** ** More on the formatters: grouping, order, failures                  *)
(* ===================================================================== *)

Module ReportFacts.
Import FormatterFacts.

(** *** [sorted] rearranges *)

Lemma insert_sorted_Permutation {A} (leb : A -> A -> bool) (x : A) (l : list A) :
  insert_sorted leb x l ≡ₚ x :: l.
Proof.
  induction l as [|y l IH]; simpl; [done|].
  destruct (leb y x); [|done]. rewrite IH. apply Permutation_swap.
Qed.

Lemma sorted_Permutation {A} (leb : A -> A -> bool) (l : list A) :
  sorted leb l ≡ₚ l.
Proof.
  unfold sorted.
  assert (forall acc, fold_left (fun acc x => insert_sorted leb x acc) l acc
                      ≡ₚ acc ++ l) as H.
  { induction l as [|x l IH]; intros acc; simpl; [by rewrite app_nil_r|].
    rewrite IH, insert_sorted_Permutation.
    by rewrite <- Permutation_middle. }
  apply (H []).
Qed.

Lemma Forall_impl_in {A} (P Q : A -> Prop) (l : list A) :
  Forall P l -> (forall x, x ∈ l -> P x -> Q x) -> Forall Q l.
Proof.
  intros HP H. apply Forall_forall. intros x Hx. apply H; [done|].
  by apply (proj1 (Forall_forall P l) HP).
Qed.

(** *** Grouping by key *)

Lemma group_append_new {V} (key : str) (v : V) (groups : list (str * list V)) :
  key ∉ List.map fst groups -> group_append key v groups = groups ++ [(key, [v])].
Proof.
  induction groups as [|[k vs] groups IH]; simpl; [done|].
  intros Hk. apply not_elem_of_cons in Hk as [Hne Hk].
  unfold str_eqb. rewrite bool_decide_eq_false_2 by done. by rewrite IH.
Qed.

Lemma group_append_old {V} (key : str) (v : V) (groups : list (str * list V)) :
  key ∈ List.map fst groups ->
  exists g1 vs g2, groups = g1 ++ (key, vs) :: g2
    /\ group_append key v groups = g1 ++ (key, vs ++ [v]) :: g2.
Proof.
  induction groups as [|[k vs] groups IH]; simpl.
  - by intros ?%elem_of_nil.
  - intros Hk. unfold str_eqb. case_bool_decide as E.
    + subst k. by exists [], vs, groups.
    + apply elem_of_cons in Hk as [Hk|Hk]; [done|].
      destruct (IH Hk) as (g1 & vs' & g2 & -> & ->).
      by exists ((k, vs) :: g1), vs', g2.
Qed.

Lemma group_append_grouped {A} (key : A -> str) (rows : list A) (v : A)
    (groups : list (str * list A)) :
  grouped_by key rows groups ->
  grouped_by key (rows ++ [v]) (group_append (key v) v groups).
Proof.
  intros (Hnd & Hsec & Hrows).
  destruct (decide (key v ∈ List.map fst groups)) as [Hin|Hnin].
  - destruct (group_append_old (key v) v groups Hin) as (g1 & vs & g2 & -> & ->).
    assert (List.map fst (g1 ++ (key v, vs ++ [v]) :: g2)
            = List.map fst (g1 ++ (key v, vs) :: g2)) as Hkeys.
    { by rewrite !map_app. }
    unfold grouped_by. rewrite Hkeys. split; [done|]. split.
    + rewrite map_app in Hnd. simpl in Hnd.
      apply NoDup_app in Hnd as (_ & Hdis & Hnd2).
      apply NoDup_cons in Hnd2 as [Hk2 _].
      apply Forall_app in Hsec as [H1 H2].
      apply Forall_cons in H2 as [[_ Hvs] H2]. simpl in Hvs.
      apply Forall_app. split; [|apply Forall_cons; split].
      * eapply Forall_impl_in; [exact H1|].
        intros [k ws] Hks [Hne Hws]. simpl in *. split; [done|].
        rewrite filter_app, <- Hws, filter_cons_False, filter_nil, app_nil_r; [done|].
        intros Heq. apply (Hdis k); [|rewrite Heq; by left].
        apply list_elem_of_In, in_map_iff. exists (k, ws).
        split; [done|]. by apply list_elem_of_In.
      * simpl. split; [by destruct vs|].
        by rewrite filter_app, <- Hvs, filter_cons_True, filter_nil.
      * eapply Forall_impl_in; [exact H2|].
        intros [k ws] Hks [Hne Hws]. simpl in *. split; [done|].
        rewrite filter_app, <- Hws, filter_cons_False, filter_nil, app_nil_r; [done|].
        intros Heq. apply Hk2. rewrite Heq.
        apply list_elem_of_In, in_map_iff. exists (k, ws).
        split; [done|]. by apply list_elem_of_In.
    + apply Forall_app. split; [done|]. by repeat constructor.
  - rewrite group_append_new by done. unfold grouped_by.
    rewrite map_app. simpl. split; [|split].
    + apply NoDup_app. split; [done|]. split; [|apply NoDup_singleton].
      intros k Hk ->%list_elem_of_singleton. done.
    + apply Forall_app. split; [|apply Forall_cons; split; [|constructor]].
      * eapply Forall_impl_in; [exact Hsec|].
        intros [k ws] Hks [Hne Hws]. simpl in *. split; [done|].
        rewrite filter_app, <- Hws, filter_cons_False, filter_nil, app_nil_r; [done|].
        intros Heq. apply Hnin. rewrite Heq.
        apply list_elem_of_In, in_map_iff. exists (k, ws).
        split; [done|]. by apply list_elem_of_In.
      * simpl. split; [done|].
        rewrite filter_app, filter_cons_True, filter_nil by done.
        assert (filter (fun r => key r = key v) rows = []) as ->; [|done].
        apply ExecutorFacts.filter_none. eapply Forall_impl; [exact Hrows|].
        intros r Hr Heq. apply Hnin. by rewrite <- Heq.
    + apply Forall_app. split.
      * eapply Forall_impl; [exact Hrows|]. intros r Hr.
        apply elem_of_app. by left.
      * repeat constructor. apply elem_of_app. right. by left.
Qed.

Lemma fold_group_append_grouped {A} (key : A -> str) (rows : list A) :
  grouped_by key rows
    (fold_left (fun groups r => group_append (key r) r groups) rows []).
Proof.
  assert (forall done_rows groups,
            grouped_by key done_rows groups ->
            grouped_by key (done_rows ++ rows)
              (fold_left (fun groups r => group_append (key r) r groups) rows groups))
    as H.
  { induction rows as [|r rows IH]; intros done_rows groups Hg; simpl.
    - by rewrite app_nil_r.
    - rewrite (cons_middle r), app_assoc. apply IH.
      by apply group_append_grouped. }
  apply (H [] []). split; [constructor|]. split; constructor.
Qed.

Lemma grouped_by_Permutation {A} (key : A -> str) (rows : list A)
    (g1 g2 : list (str * list A)) :
  g1 ≡ₚ g2 -> grouped_by key rows g1 -> grouped_by key rows g2.
Proof.
  intros Hp (Hnd & Hsec & Hrows).
  assert (List.map fst g1 ≡ₚ List.map fst g2) as Hk by (by apply Permutation_map).
  split; [by rewrite <- Hk|]. split; [by rewrite <- Hp|].
  eapply Forall_impl; [exact Hrows|]. intros r Hr. by rewrite <- Hk.
Qed.

Lemma outage_sections_grouped (outages : list OutageRow) :
  grouped_by (fun o => date_str_of (outage_date o)) outages
    (outage_sections outages).
Proof.
  unfold outage_sections, sorted_items.
  eapply grouped_by_Permutation; [symmetry; apply sorted_Permutation|].
  apply (fold_group_append_grouped (fun o => date_str_of (outage_date o))).
Qed.

Lemma hospital_shift_sections_grouped (shifts : list HospitalShiftRow) :
  grouped_by (fun s => date_str_of (hospital_shift_date s)) shifts
    (hospital_shift_sections shifts).
Proof.
  unfold hospital_shift_sections, sorted_items.
  eapply grouped_by_Permutation; [symmetry; apply sorted_Permutation|].
  apply (fold_group_append_grouped (fun s => date_str_of (hospital_shift_date s))).
Qed.

(** The loop over the result tuples is the loop over their entities. *)
Lemma fold_performance_tuples (performances : list (list PerformanceRow)) :
  forall groups,
  fold_left
    (fun groups perf_tuple =>
       match perf_tuple with
       | [] => groups
       | perf :: _ => group_append (date_str_of (performance_date perf)) perf groups
       end) performances groups
  = fold_left
      (fun groups p => group_append (date_str_of (performance_date p)) p groups)
      (performance_rows performances) groups.
Proof.
  unfold performance_rows.
  induction performances as [|t ts IH]; intros groups; [done|].
  simpl. rewrite fold_left_app, IH. by destruct t.
Qed.

Lemma performance_sections_grouped (performances : list (list PerformanceRow)) :
  grouped_by (fun p => date_str_of (performance_date p))
    (performance_rows performances) (performance_sections performances).
Proof.
  unfold performance_sections, sorted_items.
  eapply grouped_by_Permutation; [symmetry; apply sorted_Permutation|].
  rewrite fold_performance_tuples.
  apply (fold_group_append_grouped (fun p => date_str_of (performance_date p))).
Qed.

(** X13.  In every formatter that groups entities by date, a section holds
    exactly the rows whose date reads as its header, in the order they
    came; no header is rendered twice and no row is left out. *)
Theorem sections_hold_the_rows_of_their_date :
  (forall outages,
     grouped_by (fun o => date_str_of (outage_date o)) outages
       (outage_sections outages))
  /\ (forall shifts,
        grouped_by (fun s => date_str_of (hospital_shift_date s)) shifts
          (hospital_shift_sections shifts))
  /\ (forall performances,
        grouped_by (fun p => date_str_of (performance_date p))
          (performance_rows performances) (performance_sections performances)).
Proof.
  split; [|split].
  - intros outages. apply outage_sections_grouped.
  - intros shifts. apply hospital_shift_sections_grouped.
  - intros performances. apply performance_sections_grouped.
Qed.

(** *** The failure of the hospital-shift formatter *)

Lemma hospital_shift_line_outcome (shift : HospitalShiftRow) :
  match hospital_shift_line shift with
  | inl e => e = AttributeError /\ has_string_time shift = true
  | inr _ => has_string_time shift = false
  end.
Proof.
  unfold hospital_shift_line, has_string_time, string_time, append_time_part.
  destruct (hospital_shift_start_time shift) as [[t|s]|];
    destruct (hospital_shift_end_time shift) as [[t'|s']|];
    try destruct (truthy s); try destruct (truthy s'); simpl; auto.
Qed.

Lemma lines_of_outcome {A} (render : A -> PyError + str) (rows : list A) :
  match lines_of render rows with
  | inl e => Exists (fun r => render r = inl e) rows
  | inr _ => Forall (fun r => exists line, render r = inr line) rows
  end.
Proof.
  induction rows as [|r rows IH]; simpl; [constructor|].
  destruct (render r) as [e|line] eqn:E; [by left|].
  destruct (lines_of render rows) as [e|lines]; [by right|].
  constructor; [by exists line|done].
Qed.

Lemma hospital_section_lines_outcome (sections : list (str * list HospitalShiftRow)) :
  forall formatted_lines,
  match hospital_section_lines sections formatted_lines with
  | inl e => e = AttributeError
             /\ Exists (fun s => Exists (fun r => has_string_time r = true) (snd s))
                  sections
  | inr _ => Forall (fun s => Forall (fun r => has_string_time r = false) (snd s))
               sections
  end.
Proof.
  induction sections as [|[date_str daily_shifts] sections IH]; intros acc; simpl;
    [constructor|].
  match goal with |- context [lines_of _ ?l] => set (ordered := l) end.
  assert (ordered ≡ₚ daily_shifts) as Hp by apply sorted_Permutation.
  pose proof (lines_of_outcome hospital_shift_line ordered) as Hl.
  destruct (lines_of hospital_shift_line ordered) as [e|lines].
  - rewrite Hp in Hl. apply Exists_exists in Hl as (r & Hr & He).
    pose proof (hospital_shift_line_outcome r) as Ho. rewrite He in Ho.
    destruct Ho as [-> Hs]. split; [done|]. left. simpl.
    apply Exists_exists. by exists r.
  - rewrite Hp in Hl. specialize (IH (acc ++ [header_line date_str] ++ lines)).
    destruct (hospital_section_lines sections _) as [e|out].
    + destruct IH as [-> IH]. split; [done|]. by right.
    + constructor; [|done]. simpl. eapply Forall_impl; [exact Hl|].
      intros r (line & Hr). pose proof (hospital_shift_line_outcome r) as Ho.
      by rewrite Hr in Ho.
Qed.

Lemma grouped_by_rows {A} (key : A -> str) (rows : list A) sections (r : A) :
  grouped_by key rows sections ->
  r ∈ rows <-> exists s, s ∈ sections /\ r ∈ snd s.
Proof.
  intros (_ & Hsec & Hrows). split.
  - intros Hr. pose proof (proj1 (Forall_forall _ _) Hrows r Hr) as Hk.
    apply list_elem_of_In, in_map_iff in Hk as ([k vs] & Hkey & Hs).
    apply list_elem_of_In in Hs. simpl in Hkey. exists (k, vs). split; [done|].
    destruct (proj1 (Forall_forall _ _) Hsec _ Hs) as [_ Hvs]. simpl in *.
    rewrite Hvs. by apply list_elem_of_filter.
  - intros (s & Hs & Hr).
    destruct (proj1 (Forall_forall _ _) Hsec _ Hs) as [_ Hvs].
    rewrite Hvs in Hr. by apply list_elem_of_filter in Hr as [_ Hr].
Qed.

(** X14.  The hospital-shift formatter calls [strftime] on the shift times:
    it raises [AttributeError] exactly when some shift holds a time as a
    non-empty string, which is how the table declares the two columns;
    on any other rows it returns a text. *)
Theorem hospital_formatter_fails_on_string_times (shifts : list HospitalShiftRow) :
  match format_hospital_shifts shifts with
  | inl e => e = AttributeError
             /\ Exists (fun s => has_string_time s = true) shifts
  | inr _ => Forall (fun s => has_string_time s = false) shifts
  end.
Proof.
  pose proof (hospital_shift_sections_grouped shifts) as Hg.
  pose proof (fun r => grouped_by_rows _ shifts _ r Hg) as Hin.
  unfold format_hospital_shifts. destruct shifts as [|s0 shifts]; [constructor|].
  set (all := s0 :: shifts) in *.
  pose proof (hospital_section_lines_outcome (hospital_shift_sections all)
                [lit "Βρέθηκαν οι ακόλουθες εφημερίες νοσοκομείων:"]) as Ho.
  destruct (hospital_section_lines _ _) as [e|lines].
  - destruct Ho as [-> Ho]. split; [done|].
    apply Exists_exists in Ho as (s & Hs & Hr).
    apply Exists_exists in Hr as (r & Hr & Hbad).
    apply Exists_exists. exists r. split; [|done].
    apply Hin. by exists s.
  - apply Forall_forall. intros r Hr.
    apply Hin in Hr as (s & Hs & Hrs).
    pose proof (proj1 (Forall_forall _ _) Ho s Hs) as Hsok.
    by apply (proj1 (Forall_forall _ _) Hsok r Hrs).
Qed.

(** *** The message of an empty result *)

Lemma str_join_head (sep h : str) (rest : list str) :
  h <> [] -> head (str_join sep (h :: rest)) = head h.
Proof. intros Hh. destruct h; [done|]. by destruct rest. Qed.

Lemma fold_left_keeps_head {A} (h : str) (f : list str -> A -> list str)
    (sections : list A) :
  (forall lines s, exists more, f lines s = lines ++ more) ->
  forall acc, exists tl, fold_left f sections (h :: acc) = h :: tl.
Proof.
  intros Hf. induction sections as [|s sections IH]; intros acc; simpl;
    [by exists acc|].
  destruct (Hf (h :: acc) s) as [more ->]. apply (IH (acc ++ more)).
Qed.

Lemma hospital_section_lines_keeps_head (h : str) sections : forall acc lines,
  hospital_section_lines sections (h :: acc) = inr lines ->
  exists tl, lines = h :: tl.
Proof.
  induction sections as [|[date_str daily] sections IH]; intros acc lines; simpl.
  - intros [= <-]. by exists acc.
  - destruct (lines_of _ _) as [e|ls]; [done|]. apply IH.
Qed.

(** X15.  The message that nothing was found is returned for the empty result
    and for no other: a result with rows opens with the line announcing
    what was found. *)
Theorem nothing_found_is_said_only_of_the_empty_result :
  (forall outages,
     format_outages outages
     = lit "Δεν βρέθηκαν προγραμματισμένες διακοπές που να ταιριάζουν με τα κριτήριά σας."
     <-> outages = [])
  /\ (forall performances,
        format_performances performances
        = lit "Δεν βρέθηκαν παραστάσεις που να ταιριάζουν με τα κριτήριά σας."
        <-> performances = [])
  /\ (forall shifts,
        format_hospital_shifts shifts
        = inr (lit "Δεν βρέθηκαν εφημερίες νοσοκομείων που να ταιριάζουν με τα κριτήριά σας.")
        <-> shifts = [])
  /\ (forall screenings halls_and_screening_times,
        format_screenings screenings halls_and_screening_times
        = inr (lit "Δεν βρέθηκαν προβολές ταινιών που να ταιριάζουν με τα κριτήριά σας.")
        <-> screenings = []).
Proof.
  split; [|split; [|split]].
  - intros outages. split; [|by intros ->].
    destruct outages as [|o outages]; [done|]. unfold format_outages.
    match goal with
    | |- context [fold_left ?f ?l [?h]] =>
        destruct (fold_left_keeps_head h f l) with (acc := @nil str) as (tl & ->)
    end.
    { intros lines [date_str daily]. eauto. }
    intros H. apply (f_equal head) in H. rewrite str_join_head in H by done.
    vm_compute in H. discriminate.
  - intros performances. split; [|by intros ->].
    destruct performances as [|p performances]; [done|]. unfold format_performances.
    match goal with
    | |- context [fold_left ?f ?l [?h]] =>
        destruct (fold_left_keeps_head h f l) with (acc := @nil str) as (tl & ->)
    end.
    { intros lines [date_str daily]. eauto. }
    intros H. apply (f_equal head) in H. rewrite str_join_head in H by done.
    vm_compute in H. discriminate.
  - intros shifts. split; [|by intros ->].
    destruct shifts as [|sh shifts]; [done|]. unfold format_hospital_shifts.
    destruct (hospital_section_lines _ _) as [e|lines] eqn:E; [done|].
    apply hospital_section_lines_keeps_head in E as (tl & ->).
    intros [= H]. apply (f_equal head) in H.
    destruct tl; vm_compute in H; discriminate.
  - intros screenings flag. split; [|by intros ->].
    destruct screenings as [|sc screenings]; [done|]. unfold format_screenings.
    destruct (screening_section_lines _ _) as [e|lines]; [done|].
    intros [= H]. apply (f_equal head) in H.
    destruct lines; vm_compute in H; discriminate.
Qed.

(** *** The order of the sections *)

Lemma str_of_N_four_digits (y : N) :
  (1000 <= y <= 9999)%N -> str_of_N y = four_digits y.
Proof.
  intros Hy. unfold str_of_N, four_digits.
  assert (y / 10 / 10 = y / 100)%N as E2 by (by rewrite N.Div0.div_div).
  assert (y / 100 / 10 = y / 1000)%N as E3 by (by rewrite N.Div0.div_div).
  assert (y / 1000 / 10 = y / 10000)%N as E4 by (by rewrite N.Div0.div_div).
  assert (y / 10 <> 0)%N as H1.
  { intros H. apply N.div_small_iff in H; [lia|done]. }
  assert (y / 100 <> 0)%N as H2.
  { intros H. apply N.div_small_iff in H; [lia|done]. }
  assert (y / 1000 <> 0)%N as H3.
  { intros H. apply N.div_small_iff in H; [lia|done]. }
  assert (y / 10000 = 0)%N as H4 by (apply N.div_small; lia).
  assert (y / 1000 < 10)%N as H5 by (apply N.Div0.div_lt_upper_bound; lia).
  do 4 (cbn [digits_from]; rewrite ?E2, ?E3, ?E4;
        try rewrite (proj2 (N.eqb_neq _ _) H1);
        try rewrite (proj2 (N.eqb_neq _ _) H2);
        try rewrite (proj2 (N.eqb_neq _ _) H3)).
  rewrite H4. cbn [N.eqb]. by rewrite (N.mod_small (y / 1000) 10).
Qed.

Lemma seq_leb_digit (a b : N) (r r' : list N) :
  seq_leb ((48 + a)%N :: r) ((48 + b)%N :: r')
  = if (a <? b)%N then true else if (b <? a)%N then false else seq_leb r r'.
Proof.
  simpl. destruct (N.ltb_spec (48 + a) (48 + b)), (N.ltb_spec a b);
    try lia; try done.
  destruct (N.ltb_spec (48 + b) (48 + a)), (N.ltb_spec b a); try lia; done.
Qed.

Lemma seq_leb_same (c : N) (r r' : list N) :
  seq_leb (c :: r) (c :: r') = seq_leb r r'.
Proof. simpl. by rewrite N.ltb_irrefl. Qed.

Lemma seq_leb_two_digits (n n' : N) (r r' : list N) :
  seq_leb (two_digits n ++ r) (two_digits n' ++ r')
  = if (n <? n')%N then true else if (n' <? n)%N then false else seq_leb r r'.
Proof.
  unfold two_digits. cbn [app]. rewrite !seq_leb_digit.
  pose proof (N.div_mod n 10 ltac:(done)) as Hn.
  pose proof (N.div_mod n' 10 ltac:(done)) as Hn'.
  pose proof (N.mod_lt n 10 ltac:(done)) as Hm.
  pose proof (N.mod_lt n' 10 ltac:(done)) as Hm'.
  pose proof (N.le_0_l (n mod 10)). pose proof (N.le_0_l (n' mod 10)).
  pose proof (N.le_0_l (n / 10)). pose proof (N.le_0_l (n' / 10)).
  repeat match goal with
         | |- context [(?a <? ?b)%N] => destruct (N.ltb_spec a b)
         end; try done; lia.
Qed.

Lemma seq_leb_four_digits (n n' : N) :
  (n <= 9999)%N -> (n' <= 9999)%N ->
  seq_leb (four_digits n) (four_digits n')
  = if (n <? n')%N then true else if (n' <? n)%N then false else true.
Proof.
  intros Hn Hn'. unfold four_digits. rewrite !seq_leb_digit. cbn [seq_leb].
  assert (forall y, y / 10 / 10 = y / 100)%N as E2
    by (intros; by rewrite N.Div0.div_div).
  assert (forall y, y / 100 / 10 = y / 1000)%N as E3
    by (intros; by rewrite N.Div0.div_div).
  pose proof (N.div_mod n 10 ltac:(done)) as H1.
  pose proof (N.div_mod (n / 10) 10 ltac:(done)) as H2.
  pose proof (N.div_mod (n / 100) 10 ltac:(done)) as H3.
  pose proof (N.div_mod n' 10 ltac:(done)) as H1'.
  pose proof (N.div_mod (n' / 10) 10 ltac:(done)) as H2'.
  pose proof (N.div_mod (n' / 100) 10 ltac:(done)) as H3'.
  rewrite E2 in H2, H2'. rewrite E3 in H3, H3'.
  pose proof (N.mod_lt n 10 ltac:(done)).
  pose proof (N.mod_lt (n / 10) 10 ltac:(done)).
  pose proof (N.mod_lt (n / 100) 10 ltac:(done)).
  pose proof (N.mod_lt n' 10 ltac:(done)).
  pose proof (N.mod_lt (n' / 10) 10 ltac:(done)).
  pose proof (N.mod_lt (n' / 100) 10 ltac:(done)).
  pose proof (N.le_0_l (n mod 10)). pose proof (N.le_0_l (n' mod 10)).
  pose proof (N.le_0_l ((n / 10) mod 10)). pose proof (N.le_0_l ((n' / 10) mod 10)).
  pose proof (N.le_0_l ((n / 100) mod 10)). pose proof (N.le_0_l ((n' / 100) mod 10)).
  pose proof (N.le_0_l (n / 1000)). pose proof (N.le_0_l (n' / 1000)).
  pose proof (N.le_0_l (n / 100)). pose proof (N.le_0_l (n' / 100)).
  pose proof (N.le_0_l (n / 10)). pose proof (N.le_0_l (n' / 10)).
  repeat match goal with
         | |- context [(?a <? ?b)%N] => destruct (N.ltb_spec a b)
         end; try done; lia.
Qed.

(** On dates of the calendar with a four-digit year, the order of the
    texts "dd/mm/YYYY" is the order by day, then month, then year. *)
Lemma strftime_dmY_leb (a b : date) :
  four_digit_year a -> four_digit_year b ->
  seq_leb (strftime_dmY a) (strftime_dmY b) = dmy_leb a b.
Proof.
  intros [Ha Hya] [Hb Hyb].
  assert (year a <= 9999 /\ year b <= 9999)%N as [Hya' Hyb'].
  { unfold make_date in Ha, Hb.
    destruct (_ && _) eqn:Ea in Ha; [|done].
    destruct (_ && _) eqn:Eb in Hb; [|done].
    repeat (apply andb_prop in Ea as [Ea ?]).
    repeat (apply andb_prop in Eb as [Eb ?]).
    repeat match goal with H : (_ <=? _)%N = true |- _ => apply N.leb_le in H end.
    done. }
  unfold strftime_dmY, dmy_leb.
  rewrite !str_of_N_four_digits by done.
  change (lit "/") with [47%N]. cbn [app].
  rewrite (seq_leb_two_digits (day a) (day b)). rewrite seq_leb_same.
  rewrite (seq_leb_two_digits (month a) (month b)). rewrite seq_leb_same.
  rewrite seq_leb_four_digits by done.
  cbn [seq_leb]. done.
Qed.

Lemma Sorted_impl_in {A} (R R' : A -> A -> Prop) (l : list A) :
  (forall x y, x ∈ l -> y ∈ l -> R x y -> R' x y) ->
  Sorted R l -> Sorted R' l.
Proof.
  intros H Hs. induction Hs as [|x l Hs IH Hhd]; [constructor|].
  constructor.
  - apply IH. intros a b Ha Hb. apply H; by right.
  - destruct Hhd as [|y l Hxy]; constructor.
    apply H; [by left|right; by left|done].
Qed.

Lemma sections_by_dmy {A} (date_of : A -> option date) (rows : list A)
    (sections : list (str * list A)) :
  grouped_by (fun r => date_str_of (date_of r)) rows sections ->
  Sorted (fun s1 s2 => seq_leb (fst s1) (fst s2) = true) sections ->
  Sorted (fun s1 s2 =>
            forall r1 r2 d1 d2,
              r1 ∈ snd s1 -> r2 ∈ snd s2 ->
              date_of r1 = Some d1 -> date_of r2 = Some d2 ->
              four_digit_year d1 -> four_digit_year d2 ->
              dmy_leb d1 d2 = true)
    sections.
Proof.
  intros (_ & Hsec & _). apply Sorted_impl_in.
  intros s1 s2 Hs1 Hs2 Hleb r1 r2 d1 d2 Hr1 Hr2 Hd1 Hd2 Hv1 Hv2.
  destruct (proj1 (Forall_forall _ _) Hsec _ Hs1) as [_ E1].
  destruct (proj1 (Forall_forall _ _) Hsec _ Hs2) as [_ E2].
  rewrite E1 in Hr1. rewrite E2 in Hr2.
  apply list_elem_of_filter in Hr1 as [K1 _].
  apply list_elem_of_filter in Hr2 as [K2 _].
  rewrite Hd1 in K1. rewrite Hd2 in K2. simpl in K1, K2.
  rewrite <- strftime_dmY_leb by done. rewrite K1, K2. exact Hleb.
Qed.

(** X16.  The sections come in the order of their headers as text: for dates
    of four-digit years that is by day of the month first, then by month,
    then by year, so the order of the calendar only among dates of one
    month. *)
Theorem sections_are_ordered_by_day_then_month_then_year :
  (forall outages,
     Sorted (fun s1 s2 =>
               forall r1 r2 d1 d2,
                 r1 ∈ snd s1 -> r2 ∈ snd s2 ->
                 outage_date r1 = Some d1 -> outage_date r2 = Some d2 ->
                 four_digit_year d1 -> four_digit_year d2 ->
                 dmy_leb d1 d2 = true)
       (outage_sections outages))
  /\ (forall shifts,
        Sorted (fun s1 s2 =>
                  forall r1 r2 d1 d2,
                    r1 ∈ snd s1 -> r2 ∈ snd s2 ->
                    hospital_shift_date r1 = Some d1 ->
                    hospital_shift_date r2 = Some d2 ->
                    four_digit_year d1 -> four_digit_year d2 ->
                    dmy_leb d1 d2 = true)
          (hospital_shift_sections shifts))
  /\ (forall performances,
        Sorted (fun s1 s2 =>
                  forall r1 r2 d1 d2,
                    r1 ∈ snd s1 -> r2 ∈ snd s2 ->
                    performance_date r1 = Some d1 ->
                    performance_date r2 = Some d2 ->
                    four_digit_year d1 -> four_digit_year d2 ->
                    dmy_leb d1 d2 = true)
          (performance_sections performances)).
Proof.
  split; [|split]; intros rows.
  - apply (sections_by_dmy outage_date rows); [apply outage_sections_grouped|].
    apply sorted_Sorted. intros a b. apply seq_leb_total.
  - apply (sections_by_dmy hospital_shift_date rows);
      [apply hospital_shift_sections_grouped|].
    apply sorted_Sorted. intros a b. apply seq_leb_total.
  - apply (sections_by_dmy performance_date (performance_rows rows));
      [apply performance_sections_grouped|].
    apply sorted_Sorted. intros a b. apply seq_leb_total.
Qed.

(** *** Screenings: rows of the other shape, rows without names *)

Lemma group_screening_other (flag : bool) (grouped : Grouped) (row : ScreeningTuple) :
  has_times row = negb flag -> group_screening flag grouped row = grouped.
Proof. by destruct flag, row. Qed.

(** X17.  Rows that do not have the shape the flag announces are skipped one
    by one; when a result that is not empty holds no other rows, the
    text is the opening line alone, with no section after it. *)
Theorem screenings_of_the_other_shape_leave_a_bare_header
    (screenings : list ScreeningTuple) (halls_and_screening_times : bool) :
  screenings <> [] ->
  Forall (fun row => has_times row = negb halls_and_screening_times) screenings ->
  format_screenings screenings halls_and_screening_times
  = inr (lit "Βρέθηκαν οι ακόλουθες προβολές ταινιών:").
Proof.
  intros Hne Hall. unfold format_screenings, screening_sections.
  assert (forall grouped,
            fold_left (group_screening halls_and_screening_times) screenings grouped
            = grouped) as ->.
  { clear Hne. induction Hall as [|row rows Hrow _ IH]; intros grouped; [done|].
    simpl. rewrite group_screening_other by done. apply IH. }
  destruct screenings as [|row rows]; [by destruct Hne|]. vm_compute. reflexivity.
Qed.

Lemma dict_upsert_Forall {K V} `{EqDecision K} (P : K * V -> Prop) (key : K)
    (f : option V -> V) (d : list (K * V)) :
  Forall P d -> P (key, f None) ->
  (forall v, P (key, v) -> P (key, f (Some v))) ->
  Forall P (dict_upsert key f d).
Proof.
  intros Hd Hnew Hold. induction Hd as [|[k v] d Hkv Hd IH]; simpl.
  - by repeat constructor.
  - destruct (decide (k = key)) as [->|Hne]; constructor; auto.
Qed.

Lemma group_screening_named (flag : bool) (grouped : Grouped) (row : ScreeningTuple) :
  is_Some (fst (screening_names row)) -> is_Some (snd (screening_names row)) ->
  Forall (named_section flag) grouped ->
  Forall (named_section flag) (group_screening flag grouped row).
Proof.
  intros Hc Hm Hg.
  assert (forall date_str entry,
            (forall old, flag = true -> exists details, entry old = Details details) ->
            forall cinema movie, is_Some cinema -> is_Some movie ->
            Forall (named_section flag)
              (grouped_update date_str cinema movie entry grouped)) as Hupd.
  { intros date_str entry Hentry cinema movie Hcin Hmov. unfold grouped_update.
    assert (forall movies_data,
              Forall (named_entry flag) movies_data ->
              Forall (named_entry flag) (dict_upsert movie entry movies_data))
      as Hmovies.
    { intros movies_data Hmd. apply dict_upsert_Forall; [done| |].
      - split; [done|]. apply Hentry.
      - intros v _. split; [done|]. apply Hentry. }
    assert (forall cinemas_data,
              Forall (named_cinema flag) cinemas_data ->
              Forall (named_cinema flag)
                (dict_upsert cinema
                   (fun movies_data =>
                      dict_upsert movie entry (default [] movies_data))
                   cinemas_data)) as Hcinemas.
    { intros cinemas_data Hcd. apply dict_upsert_Forall; [done| |].
      - split; [done|]. apply (Hmovies []). constructor.
      - intros v [_ Hv]. split; [done|]. by apply (Hmovies v). }
    apply dict_upsert_Forall; [done| |].
    - apply (Hcinemas []). constructor.
    - intros v Hv. by apply (Hcinemas v). }
  unfold group_screening.
  destruct flag, row as [date_obj time_obj movie cinema hall genre release_year
                        |date_obj movie cinema genre release_year]; simpl in *;
    try done.
  - apply Hupd; [|done..]. intros old _. unfold append_details.
    destruct old as [[l|]|]; eauto.
  - apply Hupd; [|done..]. intros old. discriminate.
Qed.

Lemma sorted_optional_items_named {V} (items : list (option str * V)) :
  Forall (fun kv => is_Some (fst kv)) items ->
  exists out, sorted_optional_items items = inr out /\ out ≡ₚ items.
Proof.
  intros Hall. unfold sorted_optional_items.
  destruct items as [|a [|b rest]]; [by eexists..|].
  set (all := a :: b :: rest) in *.
  assert (existsb (fun kv : option str * V => negb (bool_decide (is_Some (fst kv)))) all
          = false) as ->.
  { clearbody all. induction Hall as [|kv l Hkv _ IH]; [done|]. simpl.
    by rewrite (bool_decide_eq_true_2 _ Hkv), IH. }
  eexists. split; [done|]. apply sorted_Permutation.
Qed.

Lemma lines_of_named {A} (render : A -> PyError + str) (rows : list A) :
  Forall (fun r => exists line, render r = inr line) rows ->
  exists lines, lines_of render rows = inr lines.
Proof.
  induction 1 as [|r rows (line & Hr) _ (lines & IH)]; simpl; [by eexists|].
  rewrite Hr, IH. by eexists.
Qed.

Lemma movie_line_named (flag : bool) (item : option str * MovieEntry) :
  named_entry flag item -> exists line, movie_line flag item = inr line.
Proof.
  destruct item as [movie entry]. intros [_ Hd]. unfold movie_line.
  destruct flag; [|by eexists]. destruct (Hd eq_refl) as [details Hdet].
  simpl in Hdet. subst entry. by eexists.
Qed.

Lemma cinema_lines_named (flag : bool) cinemas :
  Forall (named_cinema flag) cinemas ->
  exists lines, cinema_lines flag cinemas = inr lines.
Proof.
  induction 1 as [|[cinema movies_data] cinemas [_ Hmov] _ (more & IH)]; simpl;
    [by eexists|].
  simpl in Hmov.
  destruct (sorted_optional_items_named movies_data) as (movies & -> & Hp).
  { eapply Forall_impl; [exact Hmov|]. by intros kv [? _]. }
  destruct (lines_of_named (movie_line flag) movies) as (lines & ->).
  { rewrite Hp. eapply Forall_impl; [exact Hmov|]. apply movie_line_named. }
  rewrite IH. by eexists.
Qed.

Lemma screening_section_lines_named (flag : bool) (sections : Grouped) :
  Forall (named_section flag) sections ->
  exists lines, screening_section_lines flag sections = inr lines.
Proof.
  induction 1 as [|[date_str cinemas_data] sections Hsec _ (more & IH)]; simpl;
    [by eexists|].
  unfold named_section in Hsec. simpl in Hsec.
  destruct (sorted_optional_items_named cinemas_data) as (cinemas & -> & Hp).
  { eapply Forall_impl; [exact Hsec|]. by intros kv [? _]. }
  destruct (cinema_lines_named flag cinemas) as (lines & ->).
  { by rewrite Hp. }
  rewrite IH. by eexists.
Qed.

(** X18.  When every row names its cinema and its movie, the screenings
    formatter returns a text: the comparisons between keys that sorting
    makes never meet a missing name. *)
Theorem screenings_with_names_are_formatted
    (screenings : list ScreeningTuple) (halls_and_screening_times : bool) :
  Forall (fun row => is_Some (fst (screening_names row))
                     /\ is_Some (snd (screening_names row))) screenings ->
  exists text, format_screenings screenings halls_and_screening_times = inr text.
Proof.
  intros Hall. unfold format_screenings.
  destruct screenings as [|row0 rows]; [by eexists|].
  set (all := row0 :: rows) in *. clearbody all.
  assert (Forall (named_section halls_and_screening_times)
            (screening_sections all halls_and_screening_times)) as Hsec.
  { unfold screening_sections, sorted_items. rewrite sorted_Permutation.
    assert (forall grouped,
              Forall (named_section halls_and_screening_times) grouped ->
              Forall (named_section halls_and_screening_times)
                (fold_left (group_screening halls_and_screening_times) all grouped))
      as H.
    { induction Hall as [|row l [Hc Hm] _ IH]; intros grouped Hg; [done|].
      simpl. apply IH. by apply group_screening_named. }
    apply H. constructor. }
  destruct (screening_section_lines_named _ _ Hsec) as (lines & ->).
  by eexists.
Qed.

(** Rows without times, formatted in detailed mode. *)
Lemma screenings_of_the_other_shape_leave_a_bare_header_witness :
  format_screenings [screening_on jan_15; screening_on feb_01] true
  = inr (lit "Βρέθηκαν οι ακόλουθες προβολές ταινιών:").
Proof.
  apply (screenings_of_the_other_shape_leave_a_bare_header
           [screening_on jan_15; screening_on feb_01] true).
  - discriminate.
  - repeat constructor.
Defined.

Lemma screenings_with_names_are_formatted_witness :
  exists text,
    format_screenings
      [ScreeningRow (Some jan_15) None (Some (lit "Film")) (Some (lit "Odeon"))
         None None None;
       ScreeningRow (Some jan_15) None (Some (lit "Film")) (Some (lit "Village"))
         (Some (lit "1")) None None] true
    = inr text.
Proof.
  apply (screenings_with_names_are_formatted
           [ScreeningRow (Some jan_15) None (Some (lit "Film")) (Some (lit "Odeon"))
              None None None;
            ScreeningRow (Some jan_15) None (Some (lit "Film")) (Some (lit "Village"))
              (Some (lit "1")) None None] true).
  repeat constructor; simpl; eauto.
Defined.

End ReportFacts.

(* ===================================================================== *)
(** ** The history tool in a batch                                        *)
(* ===================================================================== *)

Module RegistryFacts.
Import Executor Registry ExecutorFacts.

Section WithDatabase.

Context {Db Rows exn : Type}.
Variable THESSALONIKI_HISTORY_TEXT : str.
Variable TypeError_no_len : exn.
Variables run_cinemas run_performances run_outages run_hospital_shifts
  : gmap str PyValue -> Db -> (exn + ToolOutput Rows) * Db.
Variables format_outages format_performances format_hospital_shifts
  format_screenings : ToolOutput Rows -> option PyValue -> exn + str.
Variable is_Exception : exn -> bool.

Let env : ToolEnv Db (ToolOutput Rows) exn :=
  registry_env THESSALONIKI_HISTORY_TEXT TypeError_no_len
    run_cinemas run_performances run_outages run_hospital_shifts
    format_outages format_performances format_hospital_shifts format_screenings
    is_Exception.

Lemma run_history_answer (params : gmap str PyValue) (d : Db) :
  has_len (default (PyStr []) (params !! lit "search_query")) = true ->
  run_history (Rows := Rows) THESSALONIKI_HISTORY_TEXT TypeError_no_len params d
  = (inr (HistoryText (history_answer THESSALONIKI_HISTORY_TEXT)), d).
Proof.
  intros Hlen. unfold run_history, query_thessaloniki_history, history_answer.
  rewrite Hlen. simpl. by destruct (truthy THESSALONIKI_HISTORY_TEXT).
Qed.

(** X19.  A call of the history tool whose query is a string cannot fail and
    does not touch the database: the batch goes on with the calls after
    it, the text of the history (or, when that text is empty, the message
    that it could not be retrieved) being stored as it is, since the tool
    has no formatter. *)
Theorem history_is_answered_without_the_database
    (pre post : list ToolCall) (c : ToolCall) (d : Db) st1 :
  name c = lit "history" ->
  has_len (default (PyStr []) (model_dump_exclude_name c !! lit "search_query"))
  = true ->
  exec_loop env 0 pre (mkExecState ∅ d []) = Continue st1 ->
  exec_loop env 0 (pre ++ c :: post) (mkExecState ∅ d [])
  = exec_loop env (S (length pre)) post
      (mkExecState
         (<[lit "history" :=
              RawResults (HistoryText (history_answer THESSALONIKI_HISTORY_TEXT))]>
            (all_tool_results st1))
         (db st1)
         (awaited st1 ++ [(length pre, c)])).
Proof.
  intros Hname Hlen Hpre. rewrite exec_loop_app, Hpre. simpl.
  unfold loop_body. rewrite Hname.
  assert (Executor.TOOL_REGISTRY env !! lit "history"
          = Some (run_history THESSALONIKI_HISTORY_TEXT TypeError_no_len)) as ->.
  { vm_compute. reflexivity. }
  assert (Executor.TOOL_FORMATTERS env !! lit "history" = None) as ->.
  { vm_compute. reflexivity. }
  simpl. by rewrite run_history_answer.
Qed.

End WithDatabase.

Lemma history_is_answered_without_the_database_witness :
  let c := mkToolCall (lit "history")
             (<[lit "search_query" := PyStr (lit "Λευκός Πύργος")]> ∅) in
  let pre := [call_of "outages"] in
  let st1 := mkExecState (<[lit "outages" := Formatted (lit "outages")]> ∅) 1
               [(0, call_of "outages")] in
  exec_loop sample_registry_env 0 (pre ++ c :: [call_of "cinemas"])
    (mkExecState ∅ 0 [])
  = exec_loop sample_registry_env (S (length pre)) [call_of "cinemas"]
      (mkExecState
         (<[lit "history" :=
              RawResults
                (HistoryText (history_answer (lit "Η Θεσσαλονίκη ιδρύθηκε το 315 π.Χ.")))]>
            (all_tool_results st1))
         (db st1)
         (awaited st1 ++ [(length pre, c)])).
Proof.
  intros c pre st1.
  apply (history_is_answered_without_the_database
           (lit "Η Θεσσαλονίκη ιδρύθηκε το 315 π.Χ.") (lit "TypeError")
           (fun _ d => (inr (RowList [d]), S d)) (fun _ d => (inr (RowList [d]), S d))
           (fun _ d => (inr (RowList [d]), S d)) (fun _ d => (inr (RowList [d]), S d))
           (fun _ _ => inr (lit "outages")) (fun _ _ => inr (lit "performances"))
           (fun _ _ => inr (lit "hospital shifts")) (fun _ _ => inr (lit "screenings"))
           (fun e => true)
           pre [call_of "cinemas"] c 0 st1).
  - reflexivity.
  - vm_compute. reflexivity.
  - vm_compute. reflexivity.
Defined.

End RegistryFacts.

(* ===================================================================== *)
(** ** Properties of the chat history                                     *)
(* ===================================================================== *)

Module ChatMemoryFacts.
Import ChatMemory.

Lemma redis_range_last {A} (l : list A) (n : Z) :
  (1 <= n)%Z -> redis_range l (- n) (-1) = drop (length l - Z.to_nat n) l.
Proof.
  intros Hn. unfold redis_range. cbv zeta.
  assert ((- n <? 0)%Z = true) as -> by (apply Z.ltb_lt; lia).
  change (-1 <? 0)%Z with true. cbv iota.
  set (llen := Z.of_nat (length l)).
  set (start := if (llen + - n <? 0)%Z then 0%Z else (llen + - n)%Z).
  assert (start = Z.of_nat (length l - Z.to_nat n)) as Hstart.
  { unfold start. destruct (Z.ltb_spec (llen + - n) 0); unfold llen in *; lia. }
  destruct (decide (length l = 0)) as [Hnil|Hlen].
  - assert ((llen + -1 <? start)%Z = true) as ->.
    { apply Z.ltb_lt. unfold llen. lia. }
    destruct l; [done|discriminate].
  - assert ((llen + -1 <? start)%Z = false) as ->.
    { apply Z.ltb_ge. unfold llen. lia. }
    assert ((llen <=? start)%Z = false) as ->.
    { apply Z.leb_gt. unfold llen. lia. }
    assert ((llen <=? llen + -1)%Z = false) as -> by (apply Z.leb_gt; lia).
    cbn [orb]. rewrite Hstart, Nat2Z.id.
    apply take_ge. rewrite length_drop. unfold llen. lia.
Qed.

Lemma redis_range_all {A} (l : list A) : redis_range l 0 (-1) = l.
Proof.
  unfold redis_range. cbv zeta.
  change (0 <? 0)%Z with false. change (-1 <? 0)%Z with true. cbv iota.
  change (0 <? 0)%Z with false. cbv iota.
  set (llen := Z.of_nat (length l)).
  destruct (decide (length l = 0)) as [Hnil|Hlen].
  - assert ((llen + -1 <? 0)%Z = true) as ->.
    { apply Z.ltb_lt. unfold llen. lia. }
    destruct l; [done|discriminate].
  - assert ((llen + -1 <? 0)%Z = false) as ->.
    { apply Z.ltb_ge. unfold llen. lia. }
    assert ((llen <=? 0)%Z = false) as -> by (apply Z.leb_gt; unfold llen; lia).
    assert ((llen <=? llen + -1)%Z = false) as -> by (apply Z.leb_gt; lia).
    cbn [orb]. rewrite drop_0. apply take_ge. unfold llen. lia.
Qed.

Section WithSettings.

Variable REDIS_HISTORY_KEY_PREFIX : str.
Variable REDIS_MAX_HISTORY_LENGTH : Z.
Variable REDIS_HISTORY_TTL : Z.
Variable json_dumps : Message -> str.
Variable json_loads : str -> option Message.

(** [json.loads] reads back what [json.dumps] wrote. *)
Hypothesis loads_dumps : forall m, json_loads (json_dumps m) = Some m.

Lemma loads_all_dumps (history : list Message) :
  loads_all json_loads (json_dumps <$> history) = Some history.
Proof.
  induction history as [|m ms IH]; [done|]. rewrite fmap_cons.
  cbn [loads_all]. by rewrite loads_dumps, IH.
Qed.

(** What the history of a session holds after a turn is added. *)
Lemma add_chat_turn_lists (session_id user_message bot_message : str) (r : Redis) :
  (1 <= REDIS_MAX_HISTORY_LENGTH)%Z ->
  let key := history_key REDIS_HISTORY_KEY_PREFIX session_id in
  let grown := default [] (lists r !! key)
               ++ [json_dumps (mkMessage user user_message);
                   json_dumps (mkMessage assistant bot_message)] in
  let r' := add_chat_turn REDIS_HISTORY_KEY_PREFIX REDIS_MAX_HISTORY_LENGTH
              REDIS_HISTORY_TTL json_dumps session_id user_message bot_message
              true r in
  lists r' !! key
  = Some (drop (length grown - Z.to_nat (2 * REDIS_MAX_HISTORY_LENGTH)) grown)
  /\ ttl r' !! key = Some REDIS_HISTORY_TTL
  /\ (forall other, other <> key ->
        lists r' !! other = lists r !! other /\ ttl r' !! other = ttl r !! other).
Proof.
  intros Hmax key grown r'. subst r'. unfold add_chat_turn. fold key.
  set (u := json_dumps (mkMessage user user_message)).
  set (b := json_dumps (mkMessage assistant bot_message)).
  set (r2 := rpush key b (rpush key u r)).
  assert (lists r2 = <[key := grown]> (lists r)) as Hl2.
  { unfold r2, rpush. simpl. rewrite lookup_insert_eq. simpl.
    rewrite insert_insert_eq. unfold grown. by rewrite <- app_assoc. }
  assert (ttl r2 = ttl r) as Ht2 by done.
  set (kept := drop (length grown - Z.to_nat (2 * REDIS_MAX_HISTORY_LENGTH)) grown).
  assert (exists x rest, kept = x :: rest) as (x & rest & Hkept).
  { unfold kept. destruct (drop _ grown) as [|x rest] eqn:E; [|by eauto].
    apply (f_equal length) in E. rewrite length_drop in E. simpl in E.
    assert (2 <= length grown) by (unfold grown; rewrite length_app; simpl; lia).
    lia. }
  assert (ltrim key (- REDIS_MAX_HISTORY_LENGTH * 2) (-1) r2
          = mkRedis (<[key := kept]> (lists r2)) (ttl r2)) as Htrim.
  { unfold ltrim. rewrite Hl2, lookup_insert_eq.
    replace (- REDIS_MAX_HISTORY_LENGTH * 2)%Z
      with (- (2 * REDIS_MAX_HISTORY_LENGTH))%Z by lia.
    rewrite redis_range_last by lia. fold kept. by rewrite Hkept. }
  rewrite Htrim. unfold expire. cbn [lists ttl]. rewrite lookup_insert_eq.
  cbn [lists ttl]. rewrite !lookup_insert_eq. split; [done|]. split; [done|].
  intros other Hne. rewrite Hl2, Ht2.
  by rewrite !lookup_insert_ne.
Qed.

(** X20.  After a turn is added, the history of the session is the old one
    followed by the user's entry and the assistant's, cut down from the
    front to the last [2 * REDIS_MAX_HISTORY_LENGTH] entries; the key
    expires after [REDIS_HISTORY_TTL], and no other session is touched. *)
Theorem added_turn_is_kept_and_the_oldest_entries_go
    (session_id user_message bot_message : str) (r : Redis) :
  (1 <= REDIS_MAX_HISTORY_LENGTH)%Z ->
  let key := history_key REDIS_HISTORY_KEY_PREFIX session_id in
  let grown := default [] (lists r !! key)
               ++ [json_dumps (mkMessage user user_message);
                   json_dumps (mkMessage assistant bot_message)] in
  let r' := add_chat_turn REDIS_HISTORY_KEY_PREFIX REDIS_MAX_HISTORY_LENGTH
              REDIS_HISTORY_TTL json_dumps session_id user_message bot_message
              true r in
  lists r' !! key
  = Some (drop (length grown - Z.to_nat (2 * REDIS_MAX_HISTORY_LENGTH)) grown)
  /\ ttl r' !! key = Some REDIS_HISTORY_TTL
  /\ (forall other, other <> key ->
        lists r' !! other = lists r !! other /\ ttl r' !! other = ttl r !! other).
Proof.
  intros Hmax key grown r'.
  destruct (add_chat_turn_lists session_id user_message bot_message r Hmax)
    as (Hl & Ht & Ho).
  split; [exact Hl|]. split; [exact Ht|exact Ho].
Qed.

Lemma get_chat_history_of_entries (session_id : str) (limit : Z) (r : Redis)
    (history : list Message) :
  lists r !! history_key REDIS_HISTORY_KEY_PREFIX session_id
  = Some (json_dumps <$> history) ->
  (0 <= limit)%Z ->
  get_chat_history REDIS_HISTORY_KEY_PREFIX json_loads session_id limit true r
  = if (limit =? 0)%Z then history
    else drop (length history - Z.to_nat limit) history.
Proof.
  intros Hkey Hlimit. unfold get_chat_history, lrange. rewrite Hkey. simpl.
  destruct (Z.eqb_spec limit 0) as [->|Hne].
  - change (- 0)%Z with 0%Z. by rewrite redis_range_all, loads_all_dumps.
  - rewrite redis_range_last by lia.
    rewrite length_fmap, <- fmap_drop. by rewrite loads_all_dumps.
Qed.

(** X21.  The messages come back in the order they were stored, the oldest of
    them first: the last [limit] entries of the list when [limit] is
    positive, and the whole history when [limit] is 0. *)
Theorem history_is_read_oldest_first (session_id : str) (limit : Z) (r : Redis)
    (history : list Message) :
  lists r !! history_key REDIS_HISTORY_KEY_PREFIX session_id
  = Some (json_dumps <$> history) ->
  (0 <= limit)%Z ->
  get_chat_history REDIS_HISTORY_KEY_PREFIX json_loads session_id limit true r
  = if (limit =? 0)%Z then history
    else drop (length history - Z.to_nat limit) history.
Proof. intros Hkey Hlimit. by apply get_chat_history_of_entries. Qed.

(** X22.  A turn that was added is what the history ends with: read with a
    limit of at least two, the last two messages are the user's and the
    assistant's of that turn. *)
Theorem added_turn_is_read_back (session_id user_message bot_message : str)
    (limit : Z) (r : Redis) (history : list Message) :
  (1 <= REDIS_MAX_HISTORY_LENGTH)%Z -> (2 <= limit)%Z ->
  default [] (lists r !! history_key REDIS_HISTORY_KEY_PREFIX session_id)
  = json_dumps <$> history ->
  let r' := add_chat_turn REDIS_HISTORY_KEY_PREFIX REDIS_MAX_HISTORY_LENGTH
              REDIS_HISTORY_TTL json_dumps session_id user_message bot_message
              true r in
  exists earlier,
    get_chat_history REDIS_HISTORY_KEY_PREFIX json_loads session_id limit true r'
    = earlier ++ [mkMessage user user_message; mkMessage assistant bot_message]
    /\ earlier `suffix_of` history.
Proof.
  intros Hmax Hlimit Hold r'.
  destruct (add_chat_turn_lists session_id user_message bot_message r Hmax)
    as (Hl & _ & _). fold r' in Hl. rewrite Hold in Hl.
  set (turn := [mkMessage user user_message; mkMessage assistant bot_message]).
  change [json_dumps (mkMessage user user_message);
          json_dumps (mkMessage assistant bot_message)]
    with (json_dumps <$> turn) in Hl.
  rewrite <- fmap_app, length_fmap, <- fmap_drop in Hl.
  rewrite (get_chat_history_of_entries session_id limit r' _ Hl) by lia.
  assert ((limit =? 0)%Z = false) as -> by (apply Z.eqb_neq; lia).
  rewrite drop_drop.
  set (n := _ + _).
  assert (n <= length history) as Hn.
  { unfold n. rewrite length_drop, !length_app. simpl. lia. }
  rewrite drop_app_le by done.
  exists (drop n history). split; [done|]. apply suffix_drop.
Qed.

End WithSettings.

(** A session of two turns, the store keeping one turn. *)
Lemma added_turn_is_kept_and_the_oldest_entries_go_witness :
  let r := mkRedis (<[lit "chat_history:s" := [lit "uhello"; lit "ahi"]]> ∅) ∅ in
  let key := history_key (lit "chat_history:") (lit "s") in
  let grown := default [] (lists r !! key)
               ++ [sample_dumps (mkMessage user (lit "bye"));
                   sample_dumps (mkMessage assistant (lit "ciao"))] in
  let r' := add_chat_turn (lit "chat_history:") 1 86400 sample_dumps
              (lit "s") (lit "bye") (lit "ciao") true r in
  lists r' !! key = Some (drop (length grown - Z.to_nat (2 * 1)) grown)
  /\ ttl r' !! key = Some 86400%Z
  /\ (forall other, other <> key ->
        lists r' !! other = lists r !! other /\ ttl r' !! other = ttl r !! other).
Proof.
  intros r.
  apply (added_turn_is_kept_and_the_oldest_entries_go (lit "chat_history:") 1 86400
           sample_dumps (lit "s") (lit "bye") (lit "ciao") r).
  lia.
Defined.

Lemma sample_loads_dumps (m : Message) : sample_loads (sample_dumps m) = Some m.
Proof. by destruct m as [[] text]. Qed.

Lemma history_is_read_oldest_first_witness :
  let history := [mkMessage user (lit "hello"); mkMessage assistant (lit "hi");
                  mkMessage user (lit "bye")] in
  let r := mkRedis (<[lit "chat_history:s" := sample_dumps <$> history]> ∅) ∅ in
  get_chat_history (lit "chat_history:") sample_loads (lit "s") 2 true r
  = if (2 =? 0)%Z then history else drop (length history - Z.to_nat 2) history.
Proof.
  intros history r.
  apply (history_is_read_oldest_first (lit "chat_history:") sample_dumps sample_loads
           sample_loads_dumps (lit "s") 2 r history).
  - vm_compute. reflexivity.
  - lia.
Defined.

Lemma added_turn_is_read_back_witness :
  let history := [mkMessage user (lit "hello"); mkMessage assistant (lit "hi")] in
  let r := mkRedis (<[lit "chat_history:s" := sample_dumps <$> history]> ∅) ∅ in
  let r' := add_chat_turn (lit "chat_history:") 50 86400 sample_dumps
              (lit "s") (lit "bye") (lit "ciao") true r in
  exists earlier,
    get_chat_history (lit "chat_history:") sample_loads (lit "s") 4 true r'
    = earlier ++ [mkMessage user (lit "bye"); mkMessage assistant (lit "ciao")]
    /\ earlier `suffix_of` history.
Proof.
  intros history r.
  apply (added_turn_is_read_back (lit "chat_history:") 50 86400
           sample_dumps sample_loads sample_loads_dumps
           (lit "s") (lit "bye") (lit "ciao") 4 r history).
  - lia.
  - lia.
  - vm_compute. reflexivity.
Defined.

End ChatMemoryFacts.
